(** * Anomaly detection and trend analysis for the executive dashboard

    A shallow embedding of [anomaly_detector.py] (class [AnomalyDetector]
    and [prepare_sales_data_for_anomaly_detection]) and of
    [trend_analyzer.py] (class [TrendAnalyzer] and [analyze_sales_trends]),
    the properties the specification states about them, and further
    properties of the same code.

    Numbers.  The Python code computes on IEEE doubles through numpy,
    pandas, scipy and scikit-learn.  Here a double is an exact rational,
    one of the two infinities, or NaN: rounding is left out, the special
    values and their comparison rules are kept, because the code relies on
    them (a comparison with NaN is false, 0/0 is NaN).  A sum, a product or
    a quotient of finite values is the exact one: it is neither rounded nor
    turned into an infinity when it is beyond the largest double.  So what
    is proved of a computed value (a slope, a strength, a forecast, a
    z-score, a total) is proved in exact arithmetic, and the theorems say
    so; what is proved of an exception, of a missing value or of the
    columns of a table does not depend on it.  Columns hold doubles and
    flags; an integer column is read as doubles.

    Tables.  A pandas [DataFrame] is an ordered list of named columns.
    Tables are objects: they live in a store, are passed by reference, and
    [df[name] = values] updates the object in place.  [data.copy()]
    allocates a new object. *)

From Stdlib Require Import String Ascii QArith Qabs Qround Lqa ZArith Bool Lia Arith List
  Permutation.
Import ListNotations.

Open Scope Q_scope.

(** ** Doubles *)

Module Float.

Inductive float : Type :=
| Fin (q : Q)
| PInf
| NInf
| NaN.

Definition zero : float := Fin 0.

Definition is_nan (x : float) : bool :=
  match x with NaN => true | _ => false end.

Definition is_finite (x : float) : bool :=
  match x with Fin _ => true | _ => false end.

Definition Qltb (a b : Q) : bool := negb (Qle_bool b a).

(** Sign of a rational as a comparison result. *)
Definition Qsign (a : Q) : comparison := (Qnum a ?= 0)%Z.

Definition neg (x : float) : float :=
  match x with
  | Fin q => Fin (- q)
  | PInf => NInf
  | NInf => PInf
  | NaN => NaN
  end.

Definition add (x y : float) : float :=
  match x, y with
  | NaN, _ | _, NaN => NaN
  | Fin a, Fin b => Fin (a + b)
  | PInf, NInf | NInf, PInf => NaN
  | PInf, _ | _, PInf => PInf
  | NInf, _ | _, NInf => NInf
  end.

Definition sub (x y : float) : float := add x (neg y).

(** An infinity with the sign of [s]; NaN when [s] is zero. *)
Definition inf_of_sign (s : comparison) : float :=
  match s with Gt => PInf | Lt => NInf | Eq => NaN end.

Definition flip (s : comparison) : comparison := CompOpp s.

Definition mul (x y : float) : float :=
  match x, y with
  | NaN, _ | _, NaN => NaN
  | Fin a, Fin b => Fin (a * b)
  | Fin a, PInf | PInf, Fin a => inf_of_sign (Qsign a)
  | Fin a, NInf | NInf, Fin a => inf_of_sign (flip (Qsign a))
  | PInf, PInf | NInf, NInf => PInf
  | PInf, NInf | NInf, PInf => NInf
  end.

(** numpy division: a zero divisor gives an infinity, or NaN for 0/0; no
    exception is raised (signed zeros are not modelled). *)
Definition div (x y : float) : float :=
  match x, y with
  | NaN, _ | _, NaN => NaN
  | Fin a, Fin b =>
      if Qeq_bool b 0 then inf_of_sign (Qsign a) else Fin (a / b)
  | Fin _, PInf | Fin _, NInf => Fin 0
  | PInf, Fin b => match Qsign b with Lt => NInf | _ => PInf end
  | NInf, Fin b => match Qsign b with Lt => PInf | _ => NInf end
  | PInf, PInf | PInf, NInf | NInf, PInf | NInf, NInf => NaN
  end.

Definition abs (x : float) : float :=
  match x with
  | Fin q => Fin (Qabs q)
  | PInf | NInf => PInf
  | NaN => NaN
  end.

(** [x < y]; false as soon as one side is NaN. *)
Definition ltb (x y : float) : bool :=
  match x, y with
  | NaN, _ | _, NaN => false
  | Fin a, Fin b => Qltb a b
  | NInf, NInf => false
  | NInf, _ => true
  | _, NInf => false
  | PInf, _ => false
  | _, PInf => true
  end.

Definition gtb (x y : float) : bool := ltb y x.

(** [x <= y]; false as soon as one side is NaN. *)
Definition leb (x y : float) : bool :=
  match x, y with
  | NaN, _ | _, NaN => false
  | Fin a, Fin b => Qle_bool a b
  | NInf, _ => true
  | _, PInf => true
  | PInf, _ => false
  | _, NInf => false
  end.

Definition geb (x y : float) : bool := leb y x.

(** [x == y] on doubles; NaN is equal to nothing. *)
Definition eqb (x y : float) : bool :=
  match x, y with
  | Fin a, Fin b => Qeq_bool a b
  | PInf, PInf | NInf, NInf => true
  | _, _ => false
  end.

Definition of_nat (n : nat) : float := Fin (inject_Z (Z.of_nat n)).

Definition of_bool (b : bool) : float := if b then Fin 1 else Fin 0.

(** Sum in list order, [skipna=False]: a NaN makes the sum NaN. *)
Definition sum (xs : list float) : float := fold_right add zero xs.

Definition drop_nan (xs : list float) : list float :=
  filter (fun x => negb (is_nan x)) xs.

(** [np.mean] of an array without NaN; the mean of nothing is NaN. *)
Definition mean (xs : list float) : float :=
  div (sum xs) (of_nat (length xs)).

(** The same value up to the representation of the rational. *)
Definition feq (x y : float) : Prop :=
  match x, y with
  | Fin a, Fin b => a == b
  | PInf, PInf | NInf, NInf | NaN, NaN => True
  | _, _ => False
  end.

End Float.

Import Float.

(** ** Python values the code handles *)

(** Exceptions are named by their Python class. *)
Inductive exn : Type := PyErr (cls : string).

Definition KeyError : exn := PyErr "KeyError".
Definition ValueError : exn := PyErr "ValueError".
Definition IndexError : exn := PyErr "IndexError".
Definition AttributeError : exn := PyErr "AttributeError".

Inductive result (A : Type) : Type :=
| Ok (a : A)
| Raise (e : exn).

Arguments Ok {A} a.
Arguments Raise {A} e.


(** ['is_anomaly' in col]: substring test. *)
Fixpoint contains (needle hay : string) : bool :=
  String.prefix needle hay
  || match hay with
     | EmptyString => false
     | String _ rest => contains needle rest
     end.

(** ** Tables *)

(** A cell of a table: a boolean flag or a number.  Dates are numbers too
    (pandas stores a timestamp as a count of nanoseconds). *)
Inductive cell : Type :=
| CBool (b : bool)
| CNum (x : float).

(** The numeric view numpy and pandas take of a cell. *)
Definition cell_float (c : cell) : float :=
  match c with
  | CBool b => of_bool b
  | CNum x => x
  end.

Definition is_bool_cell (c : cell) : bool :=
  match c with CBool _ => true | CNum _ => false end.

Definition column : Type := list cell.

Definition floats (c : column) : list float := map cell_float c.

Record DataFrame : Type := mkDF {
  nrows : nat;                          (* len(df) *)
  columns : list (string * column)      (* df.columns, in order, with their data *)
}.

Definition col_names (df : DataFrame) : list string := map fst (columns df).

(** Association lists in insertion order, as pandas columns and Python
    dicts are. *)
Fixpoint assoc {V : Type} (k : string) (l : list (string * V)) : option V :=
  match l with
  | [] => None
  | (k', v) :: rest => if String.eqb k' k then Some v else assoc k rest
  end.

(** Assignment to key [k]: in place when the key exists, appended at the
    end otherwise. *)
Fixpoint assoc_set {V : Type} (k : string) (v : V) (l : list (string * V))
  : list (string * V) :=
  match l with
  | [] => [(k, v)]
  | (k', v') :: rest =>
      if String.eqb k' k then (k, v) :: rest else (k', v') :: assoc_set k v rest
  end.

Definition has_column (df : DataFrame) (name : string) : bool :=
  existsb (String.eqb name) (col_names df).

(** The table after [df[name] = c].  pandas rejects an array of the wrong
    length; the detectors only store columns computed row by row from a
    column of the same table, so that check is not written out. *)
Definition set_column (df : DataFrame) (name : string) (c : column) : DataFrame :=
  mkDF (nrows df) (assoc_set name c (columns df)).

Definition missing : cell := CNum NaN.

(** Row [i] of the given columns, as numbers. *)
Definition row_of (cols : list column) (i : nat) : list float :=
  map (fun c => cell_float (nth i c missing)) cols.

(** [df[names].values]: the matrix of the selected columns, one list per
    row. *)
Definition values_of (n : nat) (cols : list column) : list (list float) :=
  map (row_of cols) (seq 0 n).

(** *** [sort_values]: rows reordered by one column, NaN last.  Ties keep
    their order (pandas' default sort leaves the order of ties open). *)

Definition key_le (a b : float) : bool :=
  if is_nan b then true else if is_nan a then false else leb a b.

Fixpoint insert_key (k : float * nat) (l : list (float * nat)) : list (float * nat) :=
  match l with
  | [] => [k]
  | h :: t => if key_le (fst h) (fst k) then h :: insert_key k t else k :: h :: t
  end.

Definition sort_keys (keys : list (float * nat)) : list (float * nat) :=
  fold_left (fun acc k => insert_key k acc) keys [].

Definition argsort (c : column) : list nat :=
  map snd (sort_keys (combine (floats c) (seq 0 (length c)))).

Definition take (perm : list nat) (c : column) : column :=
  map (fun i => nth i c missing) perm.

Definition sorted_by (df : DataFrame) (key : column) : DataFrame :=
  let perm := argsort key in
  mkDF (nrows df) (map (fun nc => (fst nc, take perm (snd nc))) (columns df)).

(** ** The object store *)

Definition ref : Type := nat.
Definition store : Type := list DataFrame.

(** Computations that read and update the store and may raise. *)
Definition M (A : Type) : Type := store -> result A * store.

Definition ret {A : Type} (a : A) : M A := fun h => (Ok a, h).

Definition raise {A : Type} (e : exn) : M A := fun h => (Raise e, h).

Definition bind {A B : Type} (m : M A) (k : A -> M B) : M B :=
  fun h =>
    match m h with
    | (Ok a, h') => k a h'
    | (Raise e, h') => (Raise e, h')
    end.

Notation "x <- m ;; k" := (bind m (fun x => k))
  (at level 61, m at next level, right associativity).
Notation "m ;;; k" := (bind m (fun _ => k))
  (at level 61, right associativity).

Definition lift {A : Type} (r : result A) : M A := fun h => (r, h).

Fixpoint update (r : ref) (df : DataFrame) (h : store) : store :=
  match h, r with
  | [], _ => []
  | _ :: t, O => df :: t
  | d :: t, S r' => d :: update r' df t
  end.

Definition deref (r : ref) : M DataFrame :=
  fun h =>
    match nth_error h r with
    | Some df => (Ok df, h)
    | None => (Raise AttributeError, h)
    end.

Definition alloc (df : DataFrame) : M ref :=
  fun h => (Ok (length h), h ++ [df]).

Definition write (r : ref) (df : DataFrame) : M unit :=
  fun h => (Ok tt, update r df h).

(** [data.copy()] *)
Definition df_copy (r : ref) : M ref :=
  df <- deref r ;; alloc df.

(** [df[name]] *)
Definition df_getitem (r : ref) (name : string) : M column :=
  df <- deref r ;;
  match assoc name (columns df) with
  | Some c => ret c
  | None => raise KeyError
  end.

(** [df[names]], a list of names; the first missing one raises. *)
Fixpoint select (df : DataFrame) (names : list string) : result (list column) :=
  match names with
  | [] => Ok []
  | n :: rest =>
      match assoc n (columns df) with
      | None => Raise KeyError
      | Some c =>
          match select df rest with
          | Ok cs => Ok (c :: cs)
          | Raise e => Raise e
          end
      end
  end.

Definition df_getitems (r : ref) (names : list string) : M (list column) :=
  df <- deref r ;; lift (select df names).

(** [df[name] = values]: the object behind [r] is updated in place. *)
Definition df_setitem (r : ref) (name : string) (c : column) : M unit :=
  df <- deref r ;; write r (set_column df name c).

(** [df[name] = scalar]: the scalar fills the column. *)
Definition df_setitem_scalar (r : ref) (name : string) (x : float) : M unit :=
  df <- deref r ;; write r (set_column df name (repeat (CNum x) (nrows df))).

(** [df.columns] *)
Definition df_columns (r : ref) : M (list string) :=
  df <- deref r ;; ret (col_names df).

(** [len(df)] *)
Definition df_len (r : ref) : M nat :=
  df <- deref r ;; ret (nrows df).

(** [df.sort_values(by)]: a new table; the receiver is left as it is. *)
Definition df_sort_values (r : ref) (by_ : string) : M ref :=
  df <- deref r ;;
  match assoc by_ (columns df) with
  | Some key => alloc (sorted_by df key)
  | None => raise KeyError
  end.

(** ** The numeric libraries

    What numpy, scipy, pandas and scikit-learn compute, on the doubles of
    [Float].  The functions with a closed form are written out.  The square
    root, the power function and the isolation forest have none over the
    rationals: they are parameters of the development. *)

Section Library.

(** [np.sqrt] on a non-negative rational. *)
Variable np_sqrt : Q -> Q.

(** [x ** y] on doubles. *)
Variable np_power : float -> float -> float.

(** [StandardScaler().fit_transform(X)]. *)
Variable scaler_fit_transform : list (list float) -> list (list float).

(** [IsolationForest(contamination, random_state=42, n_estimators=100)]:
    entry [i] of [fit_predict(X)] (1 for an inlier, -1 for an outlier) and
    of [score_samples(X)].  The seed is fixed, so both are functions of the
    contamination rate and of [X]. *)
Variable forest_fit_predict : Q -> list (list float) -> nat -> Z.
Variable forest_score_samples : Q -> list (list float) -> nat -> float.

Definition sqrt (x : float) : float :=
  match x with
  | Fin q => if Qltb q 0 then NaN else Fin (np_sqrt q)
  | PInf => PInf
  | NInf | NaN => NaN
  end.

Definition square (x : float) : float := mul x x.

(** Largest finite double. *)
Definition dbl_max : Q := inject_Z ((2 ^ 53 - 1) * 2 ^ 971).

(** [np.nan_to_num(X, nan=0.0)] on one entry: NaN becomes 0, an infinity
    the largest finite double of its sign. *)
Definition nan_to_num (x : float) : float :=
  match x with
  | NaN => Fin 0
  | PInf => Fin dbl_max
  | NInf => Fin (- dbl_max)
  | Fin q => Fin q
  end.

(** scikit-learn's input validation ([check_array]): at least one sample
    and one feature, else [ValueError]. *)
Definition check_array (X : list (list float)) : result unit :=
  match X with
  | [] => Raise ValueError
  | [] :: _ => Raise ValueError
  | _ => Ok tt
  end.

(** [IsolationForest.fit] validates the parameters of the estimator before
    it reads the data: the contamination rate has to lie in (0, 0.5], else
    [ValueError] (the constructor checks nothing). *)
Definition valid_contamination (c : Q) : bool :=
  Qltb 0 c && Qle_bool c (1 # 2).

Definition check_contamination (c : Q) : result unit :=
  if valid_contamination c then Ok tt else Raise ValueError.

(** Sum of squared deviations from [m]. *)
Definition sum_sq_dev (m : float) (xs : list float) : float :=
  sum (map (fun x => square (sub x m)) xs).

(** [scipy.stats.zscore(a, nan_policy='omit')]: mean and standard deviation
    (population, [ddof=0]) over the entries that are not NaN.  A constant
    input has standard deviation zero: scipy returns NaN in every
    position.  The squared deviations are the exact ones (in doubles they
    overflow for values beyond about 1e154). *)
Definition isconst (ys : list float) : bool :=
  match ys with
  | [] => true
  | y :: _ => forallb (eqb y) ys
  end.

Definition nanstd (xs : list float) : float :=
  let ys := drop_nan xs in
  sqrt (div (sum_sq_dev (mean ys) ys) (of_nat (length ys))).

Definition zscore (xs : list float) : list float :=
  let ys := drop_nan xs in
  let mn := mean ys in
  let sd := nanstd xs in
  if isconst ys then map (fun _ => NaN) xs
  else map (fun x => div (sub x mn) sd) xs.

(** *** [Series.quantile(q)]: linear interpolation between the two nearest
    order statistics of the entries that are not NaN. *)

Fixpoint insert_sorted (x : float) (l : list float) : list float :=
  match l with
  | [] => [x]
  | h :: t => if leb x h then x :: h :: t else h :: insert_sorted x t
  end.

Definition sort (xs : list float) : list float :=
  fold_right insert_sorted [] xs.

Definition quantile (q : Q) (xs : list float) : float :=
  let v := sort (drop_nan xs) in
  match v with
  | [] => NaN
  | _ :: _ =>
      let last := (length v - 1)%nat in
      let h := inject_Z (Z.of_nat last) * q in
      let lo := Z.to_nat (Qfloor h) in
      let hi := Nat.min (S lo) last in
      let frac := h - inject_Z (Qfloor h) in
      let a := nth lo v NaN in
      let b := nth hi v NaN in
      add a (mul (sub b a) (Fin frac))
  end.

(** *** [Series.rolling(window=w, center=False)], [min_periods] left at its
    default [w].  pandas slides a buffer of the last [w] entries along the
    series; a position has a value once the buffer holds [w] observations.
    An entry that is NaN is no observation, and neither is an infinity:
    pandas replaces the infinities by NaN before it aggregates. *)

Definition no_observation (x : float) : bool := negb (is_finite x).

Definition keep_last (w : nat) (l : list float) : list float :=
  skipn (length l - w) l.

Fixpoint roll (agg : list float -> float) (w : nat) (buf xs : list float)
  : list float :=
  match xs with
  | [] => []
  | x :: rest =>
      let buf' := keep_last w (buf ++ [x]) in
      (if (length buf' <? w)%nat then NaN
       else if existsb no_observation buf' then NaN
       else agg buf')
      :: roll agg w buf' rest
  end.

Definition rolling (agg : list float -> float) (w : nat) (xs : list float)
  : list float :=
  roll agg w [] xs.

(** [.mean()] and [.std()] (sample standard deviation, [ddof=1]) of one
    window. *)
Definition window_mean (win : list float) : float := mean win.

Definition window_std (win : list float) : float :=
  sqrt (div (sum_sq_dev (mean win) win) (of_nat (length win - 1))).

(** [Series.sum()] and the row sums of [DataFrame.sum(axis=1)]: NaN is
    skipped, a flag counts 1 when true. *)
Definition nansum (xs : list float) : float := sum (drop_nan xs).

(** ** [anomaly_detector.py]: class [AnomalyDetector] *)

(** The detector holds its contamination rate, a number (the constructor
    accepts any; the forest checks it when it is fitted); the scaler and
    the forest it also holds are fitted anew by every call, so a call's
    result depends on the table alone. *)
Record AnomalyDetector : Type := {
  contamination : Q
}.

Definition default_contamination : Q := 5 # 100.

Definition elementwise {A B C : Type} (f : A -> B -> C) (xs : list A) (ys : list B)
  : list C :=
  map (fun p => f (fst p) (snd p)) (combine xs ys).

(** [detect_isolation_forest(self, data, features)] *)
Definition detect_isolation_forest (self : AnomalyDetector) (data : ref)
    (features : list string) : M ref :=
  df <- df_copy data ;;
  (* X = df[features].values *)
  cols <- df_getitems df features ;;
  n <- df_len df ;;
  let X := values_of n cols in
  (* X = np.nan_to_num(X, nan=0.0) *)
  let X := map (map nan_to_num) X in
  (* X_scaled = self.scaler.fit_transform(X) *)
  _ <- lift (check_array X) ;;
  let X_scaled := scaler_fit_transform X in
  (* predictions = self.iso_forest.fit_predict(X_scaled) *)
  _ <- lift (check_contamination (contamination self)) ;;
  (* one prediction and one score per sample *)
  let predictions :=
    map (forest_fit_predict (contamination self) X_scaled) (seq 0 (length X)) in
  let anomaly_scores :=
    map (forest_score_samples (contamination self) X_scaled) (seq 0 (length X)) in
  df_setitem df "is_anomaly_if" (map (fun p => CBool (p =? -1)%Z) predictions) ;;;
  df_setitem df "anomaly_score_if" (map CNum anomaly_scores) ;;;
  ret df.

Definition default_zscore_threshold : float := Fin 3.

(** [detect_zscore(self, data, column, threshold=3)] *)
Definition detect_zscore (self : AnomalyDetector) (data : ref) (column : string)
    (threshold : float) : M ref :=
  df <- df_copy data ;;
  c <- df_getitem df column ;;
  let z_scores := map abs (zscore (floats c)) in
  df_setitem df ("is_anomaly_zscore_" ++ column)
    (map (fun z => CBool (gtb z threshold)) z_scores) ;;;
  df_setitem df ("zscore_" ++ column) (map CNum z_scores) ;;;
  ret df.

Definition default_iqr_multiplier : float := Fin (3 # 2).

(** [detect_iqr(self, data, column, multiplier=1.5)] *)
Definition detect_iqr (self : AnomalyDetector) (data : ref) (column : string)
    (multiplier : float) : M ref :=
  df <- df_copy data ;;
  c1 <- df_getitem df column ;;
  let Q1 := quantile (1 # 4) (floats c1) in
  c3 <- df_getitem df column ;;
  let Q3 := quantile (3 # 4) (floats c3) in
  let IQR := sub Q3 Q1 in
  let lower_bound := sub Q1 (mul multiplier IQR) in
  let upper_bound := add Q3 (mul multiplier IQR) in
  below <- df_getitem df column ;;
  above <- df_getitem df column ;;
  df_setitem df ("is_anomaly_iqr_" ++ column)
    (elementwise (fun lo hi => CBool (lo || hi))
       (map (fun x => ltb (cell_float x) lower_bound) below)
       (map (fun x => gtb (cell_float x) upper_bound) above)) ;;;
  df_setitem_scalar df ("iqr_lower_bound_" ++ column) lower_bound ;;;
  df_setitem_scalar df ("iqr_upper_bound_" ++ column) upper_bound ;;;
  ret df.

Definition default_window : nat := 7.
Definition default_ma_threshold : float := Fin 2.

(** [detect_moving_average_deviation(self, data, column, window=7,
    threshold=2)] *)
Definition detect_moving_average_deviation (self : AnomalyDetector) (data : ref)
    (column : string) (window : nat) (threshold : float) : M ref :=
  df <- df_copy data ;;
  c <- df_getitem df column ;;
  df_setitem df ("ma_" ++ column) (map CNum (rolling window_mean window (floats c))) ;;;
  c <- df_getitem df column ;;
  df_setitem df ("std_" ++ column) (map CNum (rolling window_std window (floats c))) ;;;
  c <- df_getitem df column ;;
  ma <- df_getitem df ("ma_" ++ column) ;;
  df_setitem df ("deviation_" ++ column)
    (elementwise (fun x m => CNum (abs (sub (cell_float x) (cell_float m)))) c ma) ;;;
  dev <- df_getitem df ("deviation_" ++ column) ;;
  sd <- df_getitem df ("std_" ++ column) ;;
  df_setitem df ("is_anomaly_ma_" ++ column)
    (elementwise (fun d s => CBool (gtb (cell_float d) (mul threshold (cell_float s))))
       dev sd) ;;;
  ret df.

(** [if date_column:] - [None] and the empty string are false. *)
Definition truthy (date_column : option string) : bool :=
  match date_column with
  | None => false
  | Some s => negb (String.eqb s "")
  end.

Definition date_name (date_column : option string) : string :=
  match date_column with
  | None => ""
  | Some s => s
  end.

(** [for col in cols: df = body(df, col)] *)
Fixpoint for_each (cols : list string) (df : ref) (body : ref -> string -> M ref)
  : M ref :=
  match cols with
  | [] => ret df
  | col :: rest => df' <- body df col ;; for_each rest df' body
  end.

Definition consensus_threshold : float := Fin 2.

(** [detect_all(self, data, numeric_columns, date_column=None)] *)
Definition detect_all (self : AnomalyDetector) (data : ref)
    (numeric_columns : list string) (date_column : option string) : M ref :=
  df <- df_copy data ;;
  df <- (if truthy date_column
         then df_sort_values df (date_name date_column)
         else ret df) ;;
  df <- detect_isolation_forest self df numeric_columns ;;
  df <- for_each numeric_columns df
          (fun df col =>
             df <- detect_zscore self df col default_zscore_threshold ;;
             df <- detect_iqr self df col default_iqr_multiplier ;;
             if truthy date_column
             then detect_moving_average_deviation self df col
                    default_window default_ma_threshold
             else ret df) ;;
  names <- df_columns df ;;
  let anomaly_columns := filter (contains "is_anomaly") names in
  (* df['anomaly_count'] = df[anomaly_columns].sum(axis=1) *)
  cols <- df_getitems df anomaly_columns ;;
  n <- df_len df ;;
  df_setitem df "anomaly_count"
    (map (fun i => CNum (nansum (row_of cols i))) (seq 0 n)) ;;;
  (* df['is_anomaly_consensus'] = df['anomaly_count'] >= 2 *)
  counts <- df_getitem df "anomaly_count" ;;
  df_setitem df "is_anomaly_consensus"
    (map (fun c => CBool (geb (cell_float c) consensus_threshold)) counts) ;;;
  ret df.

(** The dict [get_anomaly_summary] returns. *)
Record summary : Type := {
  total_records : nat;
  method_counts : list (string * float);
  consensus_anomalies : float
}.

(** [for col in cols: counts[col] = data[col].sum()] *)
Fixpoint count_methods (data : ref) (cols : list string)
    (counts : list (string * float)) : M (list (string * float)) :=
  match cols with
  | [] => ret counts
  | col :: rest =>
      c <- df_getitem data col ;;
      count_methods data rest (assoc_set col (nansum (floats c)) counts)
  end.

(** [get_anomaly_summary(self, data)] *)
Definition get_anomaly_summary (self : AnomalyDetector) (data : ref) : M summary :=
  names <- df_columns data ;;
  let anomaly_columns := filter (contains "is_anomaly") names in
  n <- df_len data ;;
  names' <- df_columns data ;;
  consensus <-
    (if existsb (String.eqb "is_anomaly_consensus") names'
     then c <- df_getitem data "is_anomaly_consensus" ;; ret (nansum (floats c))
     else ret (Fin 0)) ;;
  counts <- count_methods data anomaly_columns [] ;;
  ret {| total_records := n;
         method_counts := counts;
         consensus_anomalies := consensus |}.

(** ** More of the numeric libraries, for the trend analysis *)

Fixpoint finite_values (ys : list float) : option (list Q) :=
  match ys with
  | [] => Some []
  | Fin q :: rest =>
      match finite_values rest with
      | Some qs => Some (q :: qs)
      | None => None
      end
  | _ :: _ => None
  end.

Definition Qsum (l : list Q) : Q := fold_right Qplus 0 l.

Definition Qlen (l : list Q) : Q := inject_Z (Z.of_nat (length l)).

Definition Qmean (l : list Q) : Q := Qsum l / Qlen l.

(** [np.arange(a, a + n)] *)
Definition arange (a n : nat) : list Q :=
  map (fun i => inject_Z (Z.of_nat i)) (seq a n).

(** *** [sklearn.linear_model.LinearRegression] with one feature *)

Record linear_model : Type := {
  coef : Q;
  intercept : Q
}.

Definition sxx (xbar : Q) (X : list Q) : Q :=
  Qsum (map (fun x => (x - xbar) * (x - xbar)) X).

Definition sxy (xbar ybar : Q) (X y : list Q) : Q :=
  Qsum (map (fun p => (fst p - xbar) * (snd p - ybar)) (combine X y)).

(** The least-squares line through the centred data; when the feature does
    not vary the solver returns the smallest solution, slope 0.  The line
    is the exact one: the rounding of the solver is left out. *)
Definition ols (X y : list Q) : linear_model :=
  let xbar := Qmean X in
  let ybar := Qmean y in
  let b := if Qeq_bool (sxx xbar X) 0 then 0
           else sxy xbar ybar X y / sxx xbar X in
  {| coef := b; intercept := ybar - b * xbar |}.

(** [lr.fit(X, y)]: the input validation rejects an empty sample and any
    NaN or infinity with [ValueError]. *)
Definition fit (X : list Q) (y : list float) : result linear_model :=
  match finite_values y with
  | None => Raise ValueError
  | Some [] => Raise ValueError
  | Some ys => Ok (ols X ys)
  end.

(** [lr.predict(X)]: an empty [X] is rejected too. *)
Definition predict (lr : linear_model) (X : list Q) : result (list Q) :=
  match X with
  | [] => Raise ValueError
  | _ => Ok (map (fun x => intercept lr + coef lr * x) X)
  end.

(** [sklearn.metrics.r2_score], in exact arithmetic. *)
Definition r2_score (y_true y_pred : list Q) : float :=
  if (length y_pred <? 2)%nat then NaN
  else
    let numerator :=
      Qsum (map (fun p => (fst p - snd p) * (fst p - snd p)) (combine y_true y_pred)) in
    let ybar := Qmean y_true in
    let denominator := Qsum (map (fun y => (y - ybar) * (y - ybar)) y_true) in
    if negb (Qeq_bool denominator 0) then Fin (1 - numerator / denominator)
    else if negb (Qeq_bool numerator 0) then Fin 0
    else Fin 1.

(** [Series.pct_change()]: the relative change from the previous entry; the
    first entry has none.  (Missing entries are not filled forward.) *)
Fixpoint pct_change_from (prev : float) (xs : list float) : list float :=
  match xs with
  | [] => []
  | x :: rest => sub (div x prev) (Fin 1) :: pct_change_from x rest
  end.

Definition pct_change (xs : list float) : list float :=
  match xs with
  | [] => []
  | x :: rest => NaN :: pct_change_from x rest
  end.

(** *** [scipy.signal.find_peaks(x, prominence=p)] *)

(** The inner loop of [_local_maxima_1d]: skip the samples equal to [v]. *)
Fixpoint plateau_end (fuel : nat) (x : list float) (v : float) (i_ahead i_max : nat)
  : nat :=
  match fuel with
  | O => i_ahead
  | S fuel' =>
      if (i_ahead <? i_max)%nat && eqb (nth i_ahead x NaN) v
      then plateau_end fuel' x v (S i_ahead) i_max
      else i_ahead
  end.

(** The outer loop: a sample, or the middle of a flat run of samples, that
    is above its two neighbours.  The first and the last sample are never
    peaks. *)
Fixpoint local_maxima_loop (fuel : nat) (x : list float) (i i_max : nat) : list nat :=
  match fuel with
  | O => []
  | S fuel' =>
      if (i <? i_max)%nat then
        if ltb (nth (i - 1) x NaN) (nth i x NaN) then
          let i_ahead := plateau_end (length x) x (nth i x NaN) (S i) i_max in
          if ltb (nth i_ahead x NaN) (nth i x NaN)
          then ((i + (i_ahead - 1)) / 2)%nat
               :: local_maxima_loop fuel' x (S i_ahead) i_max
          else local_maxima_loop fuel' x (S i) i_max
        else local_maxima_loop fuel' x (S i) i_max
      else []
  end.

Definition local_maxima (x : list float) : list nat :=
  local_maxima_loop (length x) x 1 (length x - 1).

(** One side of [peak_prominences]: walk away from the peak while the
    samples stay at or below it, and keep the lowest one. *)
Fixpoint scan_min (top lowest : float) (side : list float) : float :=
  match side with
  | [] => lowest
  | v :: rest =>
      if leb v top
      then scan_min top (if ltb v lowest then v else lowest) rest
      else lowest
  end.

Definition fmax (a b : float) : float := if ltb a b then b else a.

Definition prominence_of (x : list float) (peak : nat) : float :=
  let top := nth peak x NaN in
  let left_min := scan_min top top (rev (firstn (S peak) x)) in
  let right_min := scan_min top top (skipn peak x) in
  sub top (fmax left_min right_min).

Definition find_peaks (x : list float) (prominence : float) : list nat :=
  filter (fun p => leb prominence (prominence_of x p)) (local_maxima x).

(** ** [trend_analyzer.py]: class [TrendAnalyzer]

    These methods read a series and build their answer; they update no
    table, so they are functions to a [result]. *)

Inductive direction : Type := Upward | Downward | Stable.

Record trend : Type := {
  trend_direction : direction;
  slope : Q;
  strength : float;
  moving_average : option float
}.

Definition default_trend_window : nat := 30.

(** The test on the slope in [detect_trend_direction]. *)
Definition classify (slope : Q) : direction :=
  if Qltb (1 # 100) slope then Upward
  else if Qltb slope (- (1 # 100)) then Downward
  else Stable.

(** [detect_trend_direction(self, series, window=30)] *)
Definition detect_trend_direction (series : list float) (window : nat)
  : result trend :=
  let ma := rolling window_mean window series in
  let X := arange 0 (length series) in
  match fit X series with
  | Raise e => Raise e
  | Ok lr =>
      let slope := coef lr in
      let direction := classify slope in
      match predict lr X with
      | Raise e => Raise e
      | Ok predictions =>
          let y := match finite_values series with Some ys => ys | None => [] end in
          let strength := r2_score y predictions in
          Ok {| trend_direction := direction;
                slope := slope;
                strength := strength;
                moving_average :=
                  if (0 <? length ma)%nat then Some (last ma NaN) else None |}
      end
  end.

(** The rows of the table [forecast_linear_trend] returns: the forecast
    and the model's name. *)
Definition forecast_df : Type := list (Q * string).

(** [forecast_linear_trend(self, series, steps=30)] *)
Definition forecast_linear_trend (series : list float) (steps : Z)
  : result forecast_df :=
  let X := arange 0 (length series) in
  match fit X series with
  | Raise e => Raise e
  | Ok lr =>
      (* np.arange(len(series), len(series) + steps) *)
      let future_X := arange (length series) (Z.to_nat steps) in
      match predict lr future_X with
      | Raise e => Raise e
      | Ok forecast => Ok (map (fun v => (v, "Linear Trend"%string)) forecast)
      end
  end.

Record growth_metrics : Type := {
  mom_growth : float;
  yoy_growth : option float;
  cagr : option float;
  avg_growth_rate : float;
  current_value : float;
  start_value : float
}.

Definition hundred : float := Fin 100.

(** [calculate_growth_metrics(self, series)]; [iloc[-1]] on an empty
    series raises [IndexError].  The series holds doubles (on an integer
    series pandas subtracts in 64-bit integers, which can wrap around). *)
Definition calculate_growth_metrics (series : list float) : result growth_metrics :=
  match series with
  | [] => Raise IndexError
  | first :: _ =>
      let n := length series in
      let final := last series NaN in
      let mom_growth := mul (last (pct_change series) NaN) hundred in
      let yoy_growth :=
        if (365 <=? n)%nat then
          let base := nth (n - 365) series NaN in
          Some (mul (div (sub final base) base) hundred)
        else None in
      let cagr :=
        if (365 <=? n)%nat then
          let years := div (of_nat n) (Fin 365) in
          Some (mul (sub (np_power (div final first) (div (Fin 1) years)) (Fin 1))
                    hundred)
        else None in
      let avg_growth := mul (mean (drop_nan (pct_change series))) hundred in
      Ok {| mom_growth := mom_growth;
            yoy_growth := yoy_growth;
            cagr := cagr;
            avg_growth_rate := avg_growth;
            current_value := final;
            start_value := first |}
  end.

Record extrema : Type := {
  peak_indices : list nat;
  peak_values : list float;
  trough_indices : list nat;
  trough_values : list float;
  peak_count : nat;
  trough_count : nat
}.

Definition default_prominence : float := Fin (1 # 10).

(** [identify_peaks_and_troughs(self, series, prominence=0.1)] *)
Definition identify_peaks_and_troughs (series : list float) (prominence : float)
  : extrema :=
  let values := series in
  let peaks := find_peaks values prominence in
  let troughs := find_peaks (map neg values) prominence in
  {| peak_indices := peaks;
     peak_values := map (fun i => nth i values NaN) peaks;
     trough_indices := troughs;
     trough_values := map (fun i => nth i values NaN) troughs;
     peak_count := length peaks;
     trough_count := length troughs |}.

(** ** The detectors as functions on tables

    What each detector does to the copy it works on, without the store.
    The theorems below first show that the methods run as these functions
    on a fresh object, then reason on the functions. *)

Definition isolation_forest_frame (self : AnomalyDetector) (d : DataFrame)
    (features : list string) : result DataFrame :=
  match select d features with
  | Raise e => Raise e
  | Ok cols =>
      let X := map (map nan_to_num) (values_of (nrows d) cols) in
      match check_array X with
      | Raise e => Raise e
      | Ok _ =>
          match check_contamination (contamination self) with
          | Raise e => Raise e
          | Ok _ =>
              let X_scaled := scaler_fit_transform X in
              let flags :=
                map (fun p => CBool (p =? -1)%Z)
                  (map (forest_fit_predict (contamination self) X_scaled)
                     (seq 0 (length X))) in
              let scores :=
                map CNum
                  (map (forest_score_samples (contamination self) X_scaled)
                     (seq 0 (length X))) in
              Ok (set_column (set_column d "is_anomaly_if" flags)
                    "anomaly_score_if" scores)
          end
      end
  end.

Definition zscore_flags (threshold : float) (c : column) : column :=
  map (fun z => CBool (gtb z threshold)) (map abs (zscore (floats c))).

Definition zscore_frame (d : DataFrame) (column : string) (threshold : float)
  : result DataFrame :=
  match assoc column (columns d) with
  | None => Raise KeyError
  | Some c =>
      Ok (set_column
            (set_column d ("is_anomaly_zscore_" ++ column) (zscore_flags threshold c))
            ("zscore_" ++ column) (map CNum (map abs (zscore (floats c)))))
  end.

Definition iqr_lower (multiplier : float) (c : column) : float :=
  let Q1 := quantile (1 # 4) (floats c) in
  let Q3 := quantile (3 # 4) (floats c) in
  sub Q1 (mul multiplier (sub Q3 Q1)).

Definition iqr_upper (multiplier : float) (c : column) : float :=
  let Q1 := quantile (1 # 4) (floats c) in
  let Q3 := quantile (3 # 4) (floats c) in
  add Q3 (mul multiplier (sub Q3 Q1)).

Definition iqr_flags (multiplier : float) (c : column) : column :=
  elementwise (fun lo hi => CBool (lo || hi))
    (map (fun x => ltb (cell_float x) (iqr_lower multiplier c)) c)
    (map (fun x => gtb (cell_float x) (iqr_upper multiplier c)) c).

Definition iqr_frame (d : DataFrame) (column : string) (multiplier : float)
  : result DataFrame :=
  match assoc column (columns d) with
  | None => Raise KeyError
  | Some c =>
      let d1 := set_column d ("is_anomaly_iqr_" ++ column) (iqr_flags multiplier c) in
      let d2 := set_column d1 ("iqr_lower_bound_" ++ column)
                  (repeat (CNum (iqr_lower multiplier c)) (nrows d)) in
      Ok (set_column d2 ("iqr_upper_bound_" ++ column)
            (repeat (CNum (iqr_upper multiplier c)) (nrows d)))
  end.

Definition ma_column (window : nat) (c : column) : column :=
  map CNum (rolling window_mean window (floats c)).

Definition std_column (window : nat) (c : column) : column :=
  map CNum (rolling window_std window (floats c)).

Definition deviation_column (window : nat) (c : column) : column :=
  elementwise (fun x m => CNum (abs (sub (cell_float x) (cell_float m))))
    c (ma_column window c).

Definition ma_flags (window : nat) (threshold : float) (c : column) : column :=
  elementwise (fun d s => CBool (gtb (cell_float d) (mul threshold (cell_float s))))
    (deviation_column window c) (std_column window c).

Definition ma_frame (d : DataFrame) (column : string) (window : nat)
    (threshold : float) : result DataFrame :=
  match assoc column (columns d) with
  | None => Raise KeyError
  | Some c =>
      let d1 := set_column d ("ma_" ++ column) (ma_column window c) in
      let d2 := set_column d1 ("std_" ++ column) (std_column window c) in
      let d3 := set_column d2 ("deviation_" ++ column) (deviation_column window c) in
      Ok (set_column d3 ("is_anomaly_ma_" ++ column) (ma_flags window threshold c))
  end.

Definition sort_frame (d : DataFrame) (date_column : option string)
  : result DataFrame :=
  if truthy date_column then
    match assoc (date_name date_column) (columns d) with
    | Some key => Ok (sorted_by d key)
    | None => Raise KeyError
    end
  else Ok d.

Definition and_then {A B : Type} (r : result A) (k : A -> result B) : result B :=
  match r with
  | Ok a => k a
  | Raise e => Raise e
  end.

(** One turn of the loop of [detect_all]. *)
Definition column_pass (date_column : option string) (d : DataFrame) (col : string)
  : result DataFrame :=
  and_then (zscore_frame d col default_zscore_threshold) (fun d1 =>
  and_then (iqr_frame d1 col default_iqr_multiplier) (fun d2 =>
  if truthy date_column
  then ma_frame d2 col default_window default_ma_threshold
  else Ok d2)).

Fixpoint columns_pass (date_column : option string) (cols : list string)
    (d : DataFrame) : result DataFrame :=
  match cols with
  | [] => Ok d
  | col :: rest =>
      and_then (column_pass date_column d col) (columns_pass date_column rest)
  end.

(** The columns the vote is taken over: every column whose name contains
    [is_anomaly]. *)
Definition anomaly_columns (d : DataFrame) : list string :=
  filter (contains "is_anomaly") (col_names d).

Definition column_or_empty (d : DataFrame) (name : string) : column :=
  match assoc name (columns d) with
  | Some c => c
  | None => []
  end.

Definition anomaly_counts (d : DataFrame) : column :=
  let cols := map (column_or_empty d) (anomaly_columns d) in
  map (fun i => CNum (nansum (row_of cols i))) (seq 0 (nrows d)).

Definition consensus_frame (d : DataFrame) : DataFrame :=
  let counts := anomaly_counts d in
  set_column (set_column d "anomaly_count" counts) "is_anomaly_consensus"
    (map (fun c => CBool (geb (cell_float c) consensus_threshold)) counts).

Definition detect_all_frame (self : AnomalyDetector) (d : DataFrame)
    (numeric_columns : list string) (date_column : option string)
  : result DataFrame :=
  and_then (sort_frame d date_column) (fun d0 =>
  and_then (isolation_forest_frame self d0 numeric_columns) (fun d1 =>
  and_then (columns_pass date_column numeric_columns d1) (fun d2 =>
  Ok (consensus_frame d2)))).

Fixpoint method_counts_of (d : DataFrame) (cols : list string)
    (counts : list (string * float)) : list (string * float) :=
  match cols with
  | [] => counts
  | col :: rest =>
      method_counts_of d rest
        (assoc_set col (nansum (floats (column_or_empty d col))) counts)
  end.

(** ** Running a method on the store *)

(** [H] is [h] with more objects allocated after it. *)
Definition extends (h H : store) : Prop := exists ext, H = h ++ ext.

(** Every object of [h] is still in [h'], unchanged. *)
Definition preserved (h h' : store) : Prop :=
  forall r d, nth_error h r = Some d -> nth_error h' r = Some d.

(** A returned table is an object that [h] did not have. *)
Definition fresh_result (h : store) (out : result ref * store) : Prop :=
  forall r', fst out = Ok r' ->
    (length h <= r')%nat /\ exists d', nth_error (snd out) r' = Some d'.

(** [m], started in [h], behaves as the table function that gave [res]: it
    allocates, leaves the objects of [h] alone, and returns the last object
    allocated, which holds the table of [res]. *)
Definition runs_as (m : M ref) (h : store) (res : result DataFrame) : Prop :=
  match res with
  | Ok d' => exists H, extends h H /\ m h = (Ok (length H), H ++ [d'])
  | Raise e => exists H, extends h H /\ m h = (Raise e, H)
  end.

(** [m], started on a store whose last object holds [d], with that object as
    its working table. *)
Definition tail_runs (m : M ref) (H : store) (d : DataFrame) (res : result DataFrame)
  : Prop :=
  match res with
  | Ok d' => exists H', extends H H' /\ m (H ++ [d]) = (Ok (length H'), H' ++ [d'])
  | Raise e => exists H', extends H H' /\ m (H ++ [d]) = (Raise e, H')
  end.

(** A method that returns a new table and leaves every table the caller
    holds as it was. *)
Definition leaves_tables_unchanged (m : M ref) : Prop :=
  forall h : store, preserved h (snd (m h)) /\ fresh_result h (m h).

(** A method call that returns the table [d']. *)
Definition returns (m : M ref) (h : store) (d' : DataFrame) : Prop :=
  exists r' h', m h = (Ok r', h') /\ nth_error h' r' = Some d'.

(** Every cell of the column holds the number [v]. *)
Definition constant_column (v : Q) (c : column) : bool :=
  forallb (fun x => eqb (cell_float x) (Fin v)) c.

Definition all_equal_to (v : Q) (c : column) : Prop :=
  Forall (fun x => feq (cell_float x) (Fin v)) c.

Definition no_flags (n : nat) : column := repeat (CBool false) n.

(** A value that is [v] or NaN: what the bounds of a constant series are. *)
Definition at_or_nan (v : Q) (x : float) : Prop :=
  x = NaN \/ exists a, x = Fin a /\ a == v.

(** *** The rolling window as the specification words it *)

(** The [w] entries of the series that end at row [i]: rows
    [i - w + 1 .. i]. *)
Definition trailing_window (w : nat) (xs : list float) (i : nat) : list float :=
  firstn w (skipn (i + 1 - w) xs).

(** The statistic [agg] over the trailing window of row [i]; no value until
    the window holds [w] rows, nor when it holds a NaN or an infinity. *)
Definition trailing (agg : list float -> float) (w : nat) (xs : list float) (i : nat)
  : float :=
  if (i + 1 <? w)%nat then NaN
  else if existsb no_observation (trailing_window w xs i) then NaN
  else agg (trailing_window w xs i).

(** What [roll] writes for a buffer. *)
Definition window_value (agg : list float -> float) (w : nat) (buf : list float)
  : float :=
  if (length buf <? w)%nat then NaN
  else if existsb no_observation buf then NaN
  else agg buf.

(** Number of true flags in a column. *)
Definition count_true (c : column) : nat :=
  length (filter (fun x => match x with CBool true => true | _ => false end) c).

Definition bool_column (c : column) : Prop :=
  Forall (fun x => is_bool_cell x = true) c.

(** The error class the specification names for too little data.  The
    code defines and raises no class of that name. *)
Definition spec_insufficient_data : exn := PyErr "InsufficientDataError".

Definition number_column (c : column) : Prop :=
  Forall (fun x => is_bool_cell x = false) c.

(** *** The vote, as the specification words it *)

(** The flag a detector wrote in column [name] for row [i]; false when the
    column, the row or the flag is missing. *)
Definition flag_at (d : DataFrame) (name : string) (i : nat) : bool :=
  match assoc name (columns d) with
  | Some c =>
      match nth i c missing with
      | CBool b => b
      | CNum _ => false
      end
  | None => false
  end.

(** The flag columns the detectors run by [detect_all] produce. *)
Definition detector_flags (numeric_columns : list string)
    (date_column : option string) : list string :=
  "is_anomaly_if"%string
  :: flat_map
       (fun col =>
          [("is_anomaly_zscore_" ++ col)%string; ("is_anomaly_iqr_" ++ col)%string]
          ++ (if truthy date_column then [("is_anomaly_ma_" ++ col)%string] else []))
       numeric_columns.

(** Number of detector flags that are true in row [i]. *)
Definition vote_count (d : DataFrame) (flags : list string) (i : nat) : nat :=
  length (filter (fun name => flag_at d name i) (nodup string_dec flags)).

(** No column name of the table contains [is_anomaly]. *)
Definition clean_names (d : DataFrame) : bool :=
  forallb (fun name => negb (contains "is_anomaly" name)) (col_names d).

Definition names_clean (d : DataFrame) : Prop :=
  forall name, In name (col_names d) -> contains "is_anomaly" name = false.

(** Every column the vote is taken over is one of the flag columns [F] and
    holds flags; none is counted twice. *)
Definition votes_are_flags (F : list string) (d : DataFrame) : Prop :=
  NoDup (anomaly_columns d)
  /\ forall name c,
       In (name, c) (columns d) -> contains "is_anomaly" name = true ->
       In name F /\ bool_column c.

(** *** Views of the trend analysis used by the properties *)

(** The direction [detect_trend_direction] reports. *)
Definition direction_of (series : list float) (window : nat) : result direction :=
  match detect_trend_direction series window with
  | Ok t => Ok (trend_direction t)
  | Raise e => Raise e
  end.

(** The slope it reports. *)
Definition slope_of (series : list float) (window : nat) : result Q :=
  match detect_trend_direction series window with
  | Ok t => Ok (slope t)
  | Raise e => Raise e
  end.

(** Every value multiplied by [c].  The product is exact: a product
    beyond the largest double, which the doubles turn into an infinity, is
    not formed here; [in_double_range] says that none occurs. *)
Definition scaled (c : Q) (series : list float) : list float :=
  map (mul (Fin c)) series.

(** No finite value of the series is beyond the largest double. *)
Definition in_double_range (series : list float) : bool :=
  forallb (fun x => match x with
                    | Fin q => Qle_bool (Qabs q) dbl_max
                    | _ => true
                    end) series.

(** Every value negated. *)
Definition negated (series : list float) : list float := map neg series.

Definition opposite (dir : direction) : direction :=
  match dir with
  | Upward => Downward
  | Downward => Upward
  | Stable => Stable
  end.

(** Sum over the pairs of two lists. *)
Definition psum (f : Q -> Q -> Q) (X y : list Q) : Q :=
  Qsum (map (fun p => f (fst p) (snd p)) (combine X y)).

(** Sum of squared errors of the line [a + b x]. *)
Definition sse (a b : Q) (X y : list Q) : Q :=
  psum (fun x v => (v - (a + b * x)) * (v - (a + b * x))) X y.

(** The line fitted through the finite series [ys], over the index. *)
Definition trend_line (ys : list Q) : linear_model :=
  ols (arange 0 (length ys)) ys.

(** The forecast of the line for the [k]-th step after a series of [n]
    points. *)
Definition extrapolate (lr : linear_model) (n k : nat) : Q :=
  intercept lr + coef lr * inject_Z (Z.of_nat (n + k)).

(** The series of the forecast scenario: 100, 110, ..., 190. *)
Definition arithmetic_series : list float :=
  [Fin 100; Fin 110; Fin 120; Fin 130; Fin 140;
   Fin 150; Fin 160; Fin 170; Fin 180; Fin 190].

(** *** The default prominence as the specification words it *)




(** A series of range 100 with a small bump at index 1. *)
Definition bump_series : list float := [Fin 0; Fin 1; Fin 0; Fin 100; Fin 0].

(** A year of data that starts below zero: -1, then -2 for 364 days. *)
Definition negative_year : list float := Fin (- (1)) :: repeat (Fin (- (2))) 364.

(** ** Stand-ins and examples

    Computable stand-ins for the library parameters, to run the methods on
    examples: any function can play the forest, the scaler, the square root
    and the power function in a theorem above. *)

(** Square root rounded down to a multiple of [1 / den]. *)
Definition sqrt_floor (q : Q) : Q :=
  Z.sqrt (Qnum q * Zpos (Qden q)) # Qden q.

(** Power function, exact at integer exponents and NaN elsewhere. *)
Definition power_integer (x y : float) : float :=
  match x, y with
  | Fin a, Fin b =>
      let b' := Qred b in
      if Pos.eqb (Qden b') 1 then Fin (Qpower a (Qnum b')) else NaN
  | _, _ => NaN
  end.

Definition no_scaling (X : list (list float)) : list (list float) := X.

(** A forest that calls a sample an outlier when one of its features is
    beyond 100 in absolute value, and scores a sample by minus its size. *)
Definition forest_far_from_origin (contamination : Q) (X : list (list float))
    (i : nat) : Z :=
  if existsb (fun v => ltb (Fin 100) (abs v)) (nth i X []) then (-1)%Z else 1%Z.

Definition forest_minus_size (contamination : Q) (X : list (list float)) (i : nat)
  : float :=
  neg (sum (map abs (nth i X []))).

(** A forest that calls every sample an outlier. *)
Definition forest_all_outliers (contamination : Q) (X : list (list float)) (i : nat)
  : Z :=
  (-1)%Z.

Definition detector : AnomalyDetector := {| contamination := default_contamination |}.

(** A detector built with a contamination rate scikit-learn refuses. *)
Definition careless_detector : AnomalyDetector := {| contamination := 6 # 10 |}.

Definition num (q : Q) : cell := CNum (Fin q).

(** Five days of traffic with one spike. *)
Definition spike_table : DataFrame :=
  {| nrows := 5;
     columns := [("Date"%string, [num 1; num 2; num 3; num 4; num 5]);
                 ("x"%string, [num 1; num 1; num 1; num 1; num 1000])] |}.



(** A constant metric. *)
Definition flat_table : DataFrame :=
  {| nrows := 3;
     columns := [("x"%string, [num 7; num 7; num 7])] |}.

(** A table with no row. *)
Definition empty_table : DataFrame :=
  {| nrows := 0; columns := [("x"%string, [])] |}.

(** A constant metric next to a column the caller named [is_anomaly_level]. *)
Definition labelled_table : DataFrame :=
  {| nrows := 2;
     columns := [("x"%string, [num 1; num 1]);
                 ("is_anomaly_level"%string, [num 2; num 2])] |}.

(** A table that already holds two detector flags and no consensus. *)
Definition flagged_table : DataFrame :=
  {| nrows := 2;
     columns := [("x"%string, [num 1; num 9]);
                 ("is_anomaly_if"%string, [CBool false; CBool true]);
                 ("is_anomaly_iqr_x"%string, [CBool true; CBool true])] |}.


(** *** The columns each detector writes *)

Definition zscore_outputs (column : string) : list string :=
  [("is_anomaly_zscore_" ++ column)%string; ("zscore_" ++ column)%string].

Definition iqr_outputs (column : string) : list string :=
  [("is_anomaly_iqr_" ++ column)%string; ("iqr_lower_bound_" ++ column)%string;
   ("iqr_upper_bound_" ++ column)%string].

Definition ma_outputs (column : string) : list string :=
  [("ma_" ++ column)%string; ("std_" ++ column)%string;
   ("deviation_" ++ column)%string; ("is_anomaly_ma_" ++ column)%string].

Definition forest_outputs : list string :=
  ["is_anomaly_if"%string; "anomaly_score_if"%string].

(** [d'] is [d] with the columns [outputs] written: the same rows, every
    column of [d] still at its place, the columns not in [outputs] with the
    cells they had, and nothing new but columns of [outputs]. *)
Definition writes_only (outputs : list string) (d d' : DataFrame) : Prop :=
  nrows d' = nrows d
  /\ (exists added, col_names d' = col_names d ++ added /\ incl added outputs)
  /\ (forall name, ~ In name outputs ->
        assoc name (columns d') = assoc name (columns d)).

(** *** Finite columns and ordered lists *)

(** Every cell holds a finite number (no NaN, no infinity). *)
Definition finite_column (c : column) : bool :=
  forallb (fun x => is_finite (cell_float x)) c.

(** The rational a finite double holds. *)
Definition to_Q (x : float) : Q :=
  match x with
  | Fin q => q
  | _ => 0
  end.

(** Every entry is at most the entries after it. *)
Fixpoint ascending (l : list float) : Prop :=
  match l with
  | [] => True
  | x :: rest => Forall (fun y => leb x y = true) rest /\ ascending rest
  end.

Definition all_finite (l : list float) : Prop :=
  Forall (fun x => is_finite x = true) l.


(** Frames with the same rows as [d] and at least its columns. *)
Definition grows (d d' : DataFrame) : Prop :=
  nrows d' = nrows d /\ forall n, has_column d n = true -> has_column d' n = true.

(** The summary of a table, as a function of the table. *)
Definition summary_of (d : DataFrame) : summary :=
  {| total_records := nrows d;
     method_counts := method_counts_of d (anomaly_columns d) [];
     consensus_anomalies :=
       if has_column d "is_anomaly_consensus"
       then nansum (floats (column_or_empty d "is_anomaly_consensus"))
       else Fin 0 |}.

(** A metric with a missing day. *)
Definition gap_table : DataFrame :=
  {| nrows := 4;
     columns := [("x"%string, [num 1; num 2; missing; num 400])] |}.

(** A voted table: one of its two rows has a true consensus flag. *)
Definition voted_table : DataFrame :=
  {| nrows := 2;
     columns := [("x"%string, [num 1; num 9]);
                 ("is_anomaly_consensus"%string, [CBool false; CBool true])] |}.

(** *** Series on a line *)

(** The values of [ys] lie on the line [a + b i] over their index. *)
Definition on_line (a b : Q) (ys : list Q) : Prop :=
  forall i, (i < length ys)%nat -> nth i ys 0 == a + b * inject_Z (Z.of_nat i).

(** *** Results that may be null *)

(** Two optional numbers are both null, or hold the same value. *)
Definition same_option (x y : option float) : Prop :=
  match x, y with
  | Some a, Some b => feq a b
  | None, None => True
  | _, _ => False
  end.

(** *** The shape of a series around a peak *)

(** Sample [p] of [x] sits on a flat run that ends, on each side, at a
    strictly lower sample: [l] on the left and [r] on the right. *)
Definition local_maximum (x : list float) (p l r : nat) : Prop :=
  (l < p)%nat /\ (p < r)%nat /\ (r < length x)%nat
  /\ ltb (nth l x NaN) (nth p x NaN) = true
  /\ ltb (nth r x NaN) (nth p x NaN) = true
  /\ forall k, (l < k)%nat -> (k < r)%nat -> eqb (nth k x NaN) (nth p x NaN) = true.

(** The same with the comparisons turned round. *)
Definition local_minimum (x : list float) (p l r : nat) : Prop :=
  (l < p)%nat /\ (p < r)%nat /\ (r < length x)%nat
  /\ ltb (nth p x NaN) (nth l x NaN) = true
  /\ ltb (nth p x NaN) (nth r x NaN) = true
  /\ forall k, (l < k)%nat -> (k < r)%nat -> eqb (nth k x NaN) (nth p x NaN) = true.

Fixpoint increasing (l : list nat) : Prop :=
  match l with
  | [] => True
  | p :: rest => Forall (fun q => (p < q)%nat) rest /\ increasing rest
  end.

(** No value of the series is below the one before it. *)
Definition never_falls (x : list float) : Prop :=
  forall k, (S k < length x)%nat -> leb (nth k x NaN) (nth (S k) x NaN) = true.

Definition never_rises (x : list float) : Prop :=
  forall k, (S k < length x)%nat -> leb (nth (S k) x NaN) (nth k x NaN) = true.

(** ** Seasonality

    [detect_seasonality] reads the autocorrelations of the series at the
    lags 1, 2, ... and looks for peaks among them.  The autocorrelation
    itself (a Pearson correlation, with a square root) is a parameter. *)

(** [series.autocorr(lag=i)] *)
Variable series_autocorr : list float -> nat -> float.

(** [scipy.signal.find_peaks(x, height=h)]: the local maxima whose value is
    at least [h]. *)
Definition find_peaks_height (x : list float) (height : float) : list nat :=
  filter (fun p => leb height (nth p x NaN)) (local_maxima x).

Record seasonality : Type := {
  has_seasonality : bool;
  primary_period : option nat;
  peak_lags : list nat
}.

Definition default_max_lag : Z := 365.

(** The bound of [range(1, min(max_lag, len(series)))]. *)
Definition lag_bound (series : list float) (max_lag : Z) : nat :=
  Z.to_nat (Z.min max_lag (Z.of_nat (length series))).

(** [detect_seasonality(self, series, max_lag=365)] *)
Definition detect_seasonality (series : list float) (max_lag : Z) : seasonality :=
  let autocorr :=
    map (series_autocorr series) (seq 1 (lag_bound series max_lag - 1)) in
  let peaks := find_peaks_height autocorr (Fin (1 # 2)) in
  if (0 <? length peaks)%nat
  then {| has_seasonality := true;
          primary_period := Some (hd 0%nat peaks + 1)%nat;
          peak_lags := map (fun p => (p + 1)%nat) peaks |}
  else {| has_seasonality := false;
          primary_period := None;
          peak_lags := [] |}.

(** ** [trend_analyzer.py]: [analyze_sales_trends] *)

(** [pd.to_datetime] of a column: the timestamps, as numbers (NaT is NaN),
    or the exception the conversion raised. *)
Variable pd_to_datetime : column -> result column.

(** The methods that only call statsmodels: [test_stationarity],
    [forecast_arima], [forecast_exponential_smoothing] and
    [seasonal_decomposition].  The whole body of each is inside
    [try ... except Exception: return None], so each gives a result or
    None and raises nothing.  What statsmodels computes is a parameter. *)
Variable statsmodels_result : Type.
Variable test_stationarity : list float -> option statsmodels_result.
Variable forecast_arima : list float -> Z -> option statsmodels_result.
Variable forecast_exponential_smoothing : list float -> Z -> option statsmodels_result.
Variable seasonal_decomposition : list float -> nat -> option statsmodels_result.

(** The table without the column [name]. *)
Definition drop_column (df : DataFrame) (name : string) : DataFrame :=
  mkDF (nrows df)
    (filter (fun nc => negb (String.eqb (fst nc) name)) (columns df)).

(** [df.set_index(name)]: a new table; the column becomes the index and
    is no longer among the columns. *)
Definition df_set_index (r : ref) (name : string) : M ref :=
  df <- deref r ;;
  match assoc name (columns df) with
  | Some _ => alloc (drop_column df name)
  | None => raise KeyError
  end.

(** The dict [analyze_sales_trends] returns. *)
Record trend_report : Type := {
  report_trend : trend;
  report_seasonality : seasonality;
  report_growth_metrics : growth_metrics;
  report_peaks_troughs : extrema;
  report_stationarity : option statsmodels_result;
  report_forecast_linear : forecast_df;
  report_forecast_arima : option statsmodels_result;
  report_forecast_exponential : option statsmodels_result;
  report_decomposition : option statsmodels_result
}.

Definition default_forecast_days : Z := 30.

(** [analyze_sales_trends(df, date_column='Date', value_column='TotalSales',
    forecast_days=30)].  The first statement assigns to the caller's
    table. *)
Definition analyze_sales_trends (df : ref) (date_column value_column : string)
    (forecast_days : Z) : M trend_report :=
  dates <- df_getitem df date_column ;;
  converted <- lift (pd_to_datetime dates) ;;
  df_setitem df date_column converted ;;;
  df' <- df_sort_values df date_column ;;
  indexed <- df_set_index df' date_column ;;
  values <- df_getitem indexed value_column ;;
  let series := floats values in
  trend <- lift (detect_trend_direction series default_trend_window) ;;
  let seasonality := detect_seasonality series default_max_lag in
  growth <- lift (calculate_growth_metrics series) ;;
  let peaks_troughs := identify_peaks_and_troughs series default_prominence in
  let stationarity := test_stationarity series in
  forecast <- lift (forecast_linear_trend series forecast_days) ;;
  ret {| report_trend := trend;
         report_seasonality := seasonality;
         report_growth_metrics := growth;
         report_peaks_troughs := peaks_troughs;
         report_stationarity := stationarity;
         report_forecast_linear := forecast;
         report_forecast_arima := forecast_arima series forecast_days;
         report_forecast_exponential :=
           forecast_exponential_smoothing series forecast_days;
         report_decomposition := seasonal_decomposition series 7 |}.

(** The analyses of [analyze_sales_trends] on a series, without the
    store. *)
Definition report_of (series : list float) (forecast_days : Z)
  : result trend_report :=
  and_then (detect_trend_direction series default_trend_window) (fun trend =>
  and_then (calculate_growth_metrics series) (fun growth =>
  and_then (forecast_linear_trend series forecast_days) (fun forecast =>
  Ok {| report_trend := trend;
        report_seasonality := detect_seasonality series default_max_lag;
        report_growth_metrics := growth;
        report_peaks_troughs := identify_peaks_and_troughs series default_prominence;
        report_stationarity := test_stationarity series;
        report_forecast_linear := forecast;
        report_forecast_arima := forecast_arima series forecast_days;
        report_forecast_exponential :=
          forecast_exponential_smoothing series forecast_days;
        report_decomposition := seasonal_decomposition series 7 |}))).

(** The series the analysis reads: the value column, in the order of the
    converted dates. *)
Definition sales_series (converted values : column) : list float :=
  floats (take (argsort converted) values).

(** *** Stand-ins for the trend analysis *)

(** An autocorrelation with a weekly pattern: 1 at the multiples of 7, 0
    elsewhere. *)
Definition autocorr_weekly (series : list float) (lag : nat) : float :=
  if (lag mod 7 =? 0)%nat then Fin 1 else Fin 0.

(** Dates that are already timestamps. *)
Definition dates_as_given (c : column) : result column := Ok c.

(** statsmodels is not installed: each of its methods gives None. *)
Definition no_stationarity (series : list float) : option unit := None.
Definition no_forecast (series : list float) (steps : Z) : option unit := None.
Definition no_decomposition (series : list float) (period : nat) : option unit := None.

(** Thirty days of daily values. *)
Definition thirty_days : list float := repeat (Fin 5) 30.

(** *** The columns [detect_all] writes, and the order of its rows *)

Definition column_outputs (date_column : option string) (col : string)
  : list string :=
  zscore_outputs col ++ iqr_outputs col
  ++ (if truthy date_column then ma_outputs col else []).

Definition detect_all_outputs (numeric_columns : list string)
    (date_column : option string) : list string :=
  forest_outputs
  ++ flat_map (column_outputs date_column) numeric_columns
  ++ ["anomaly_count"%string; "is_anomaly_consensus"%string].

(** The keys are in the order of [sort_values]: no key is followed by a
    smaller one, and the missing keys come last. *)
Fixpoint ordered_keys (l : list float) : Prop :=
  match l with
  | [] => True
  | x :: rest => Forall (fun y => key_le x y = true) rest /\ ordered_keys rest
  end.

(** Three days, entered out of order. *)
Definition shuffled_table : DataFrame :=
  {| nrows := 3;
     columns := [("Date"%string, [num 3; num 1; num 2]);
                 ("x"%string, [num 30; num 10; num 20])] |}.

(** ** [anomaly_detector.py]: [prepare_sales_data_for_anomaly_detection] *)

(** *** [groupby]

    [df.groupby('Date')] with its defaults: one group per distinct date,
    the rows without a date left out ([dropna=True]), the groups in the
    order of their dates ([sort=True]). *)

(** The first occurrence of each value. *)
Fixpoint distinct (xs : list float) : list float :=
  match xs with
  | [] => []
  | x :: rest => x :: filter (fun y => negb (eqb y x)) (distinct rest)
  end.

Definition group_keys (dates : list float) : list float :=
  sort (distinct (drop_nan dates)).

(** The row numbers of the group of [key]. *)
Definition group_rows (dates : list float) (key : float) : list nat :=
  filter (fun i => eqb (nth i dates NaN) key) (seq 0 (length dates)).

Definition group_values (c : column) (rows : list nat) : list float :=
  map (fun i => cell_float (nth i c missing)) rows.

(** ['sum']: the sum of the group, missing values skipped. *)
Definition group_sum (c : column) (rows : list nat) : cell :=
  CNum (nansum (group_values c rows)).

(** ['nunique']: the number of distinct values of the group, missing
    values not counted. *)
Definition group_nunique (c : column) (rows : list nat) : cell :=
  CNum (of_nat (length (distinct (drop_nan (group_values c rows))))).

(** [a / b] on two columns. *)
Definition ratio (a b : column) : column :=
  elementwise (fun x y => CNum (div (cell_float x) (cell_float y))) a b.

(** [prepare_sales_data_for_anomaly_detection(df)].  The tables between
    [groupby] and [reset_index] are not kept; [daily_sales] is the one
    object the function builds, and it is created with the column names
    the function gives it. *)
Definition prepare_sales_data_for_anomaly_detection (df : ref) : M ref :=
  dates <- df_getitem df "Date" ;;
  sales <- df_getitem df "SalesAmount" ;;
  quantity <- df_getitem df "Quantity" ;;
  profit <- df_getitem df "GrossProfit" ;;
  orders <- df_getitem df "OrderNumber" ;;
  customers <- df_getitem df "CustomerKey" ;;
  let keys := group_keys (floats dates) in
  let groups := map (group_rows (floats dates)) keys in
  daily_sales <-
    alloc (mkDF (length keys)
             [("Date"%string, map CNum keys);
              ("TotalSales"%string, map (group_sum sales) groups);
              ("TotalQuantity"%string, map (group_sum quantity) groups);
              ("TotalProfit"%string, map (group_sum profit) groups);
              ("OrderCount"%string, map (group_nunique orders) groups);
              ("CustomerCount"%string, map (group_nunique customers) groups)]) ;;
  total_sales <- df_getitem daily_sales "TotalSales" ;;
  order_count <- df_getitem daily_sales "OrderCount" ;;
  df_setitem daily_sales "AvgOrderValue" (ratio total_sales order_count) ;;;
  total_quantity <- df_getitem daily_sales "TotalQuantity" ;;
  order_count <- df_getitem daily_sales "OrderCount" ;;
  df_setitem daily_sales "AvgItemsPerOrder" (ratio total_quantity order_count) ;;;
  total_profit <- df_getitem daily_sales "TotalProfit" ;;
  total_sales <- df_getitem daily_sales "TotalSales" ;;
  df_setitem daily_sales "ProfitMargin" (ratio total_profit total_sales) ;;;
  ret daily_sales.

(** The columns the function reads. *)
Definition sales_columns : list string :=
  ["Date"; "SalesAmount"; "Quantity"; "GrossProfit"; "OrderNumber";
   "CustomerKey"]%string.

(** The columns of the table it returns. *)
Definition daily_sales_columns : list string :=
  ["Date"; "TotalSales"; "TotalQuantity"; "TotalProfit"; "OrderCount";
   "CustomerCount"; "AvgOrderValue"; "AvgItemsPerOrder"; "ProfitMargin"]%string.

(** The table it returns, as a function of the columns read. *)
Definition daily_sales_frame (dates sales quantity profit orders customers : column)
  : DataFrame :=
  let keys := group_keys (floats dates) in
  let groups := map (group_rows (floats dates)) keys in
  let total_sales := map (group_sum sales) groups in
  let total_quantity := map (group_sum quantity) groups in
  let total_profit := map (group_sum profit) groups in
  let order_count := map (group_nunique orders) groups in
  let customer_count := map (group_nunique customers) groups in
  mkDF (length keys)
    [("Date"%string, map CNum keys);
     ("TotalSales"%string, total_sales);
     ("TotalQuantity"%string, total_quantity);
     ("TotalProfit"%string, total_profit);
     ("OrderCount"%string, order_count);
     ("CustomerCount"%string, customer_count);
     ("AvgOrderValue"%string, ratio total_sales order_count);
     ("AvgItemsPerOrder"%string, ratio total_quantity order_count);
     ("ProfitMargin"%string, ratio total_profit total_sales)].

(** The sums [prepare_sales_data_for_anomaly_detection] takes: input
    column and output column. *)
Definition summed_columns : list (string * string) :=
  [("SalesAmount", "TotalSales"); ("Quantity", "TotalQuantity");
   ("GrossProfit", "TotalProfit")]%string.

(** The counts it takes. *)
Definition counted_columns : list (string * string) :=
  [("OrderNumber", "OrderCount"); ("CustomerKey", "CustomerCount")]%string.

(** The rows that have a date. *)
Definition dated_rows (dates : list float) : list nat :=
  filter (fun i => negb (is_nan (nth i dates NaN))) (seq 0 (length dates)).

(** Number of entries of [l] equal to [x]. *)
Definition occurrences (x : float) (l : list float) : nat :=
  length (filter (eqb x) l).

(** Three order lines over two days. *)
Definition orders_table : DataFrame :=
  {| nrows := 3;
     columns := [("Date"%string, [num 2; num 1; num 2]);
                 ("SalesAmount"%string, [num 10; num 5; num 20]);
                 ("Quantity"%string, [num 1; num 1; num 2]);
                 ("GrossProfit"%string, [num 3; num 1; num 4]);
                 ("OrderNumber"%string, [num 100; num 101; num 100]);
                 ("CustomerKey"%string, [num 7; num 7; num 8])] |}.

(** *** What the isolation forest is given *)

(** Two tables hold the same features for the forest: in every row, each
    feature has the same value once a missing value is read as 0 and an
    infinity as the largest double. *)
Definition same_features (features : list string) (d d2 : DataFrame) : Prop :=
  nrows d = nrows d2
  /\ forall name, In name features ->
       exists c c2,
         assoc name (columns d) = Some c /\ assoc name (columns d2) = Some c2
         /\ forall i, (i < nrows d)%nat ->
              nan_to_num (cell_float (nth i c missing))
              = nan_to_num (cell_float (nth i c2 missing)).

(** The gap table with its missing day entered as 0. *)
Definition filled_table : DataFrame :=
  {| nrows := 4;
     columns := [("x"%string, [num 1; num 2; num 0; num 400])] |}.

(** * Properties *)

#[local] Set Default Proof Using "Type".

(** ** The store *)

Lemma extends_refl (h : store) : extends h h.
Proof. exists []. now rewrite app_nil_r. Qed.

Lemma extends_snoc (h H : store) (d : DataFrame) :
  extends h H -> extends h (H ++ [d]).
Proof. intros [ext ->]. exists (ext ++ [d]). now rewrite app_assoc. Qed.

Lemma extends_trans (h1 h2 h3 : store) :
  extends h1 h2 -> extends h2 h3 -> extends h1 h3.
Proof. intros [e1 ->] [e2 ->]. exists (e1 ++ e2). now rewrite app_assoc. Qed.

Lemma extends_preserved (h H : store) : extends h H -> preserved h H.
Proof.
  intros [ext ->] r d Hr. rewrite nth_error_app1; [assumption|].
  apply nth_error_Some. congruence.
Qed.

Lemma extends_length (h H : store) : extends h H -> (length h <= length H)%nat.
Proof. intros [ext ->]. rewrite length_app. lia. Qed.

Lemma nth_error_last (H : store) (d : DataFrame) :
  nth_error (H ++ [d]) (length H) = Some d.
Proof. rewrite nth_error_app2 by lia. now rewrite Nat.sub_diag. Qed.

Lemma update_last (H : store) (d d' : DataFrame) :
  update (length H) d' (H ++ [d]) = H ++ [d'].
Proof. induction H as [|x H IH]; simpl; [reflexivity|]. now rewrite IH. Qed.

Lemma deref_last (H : store) (d : DataFrame) :
  deref (length H) (H ++ [d]) = (Ok d, H ++ [d]).
Proof. unfold deref. now rewrite nth_error_last. Qed.

Lemma df_copy_run (h : store) (r : ref) (d : DataFrame) :
  nth_error h r = Some d -> df_copy r h = (Ok (length h), h ++ [d]).
Proof. intros Hr. unfold df_copy, bind, deref, alloc. now rewrite Hr. Qed.

Lemma df_copy_dangling (h : store) (r : ref) :
  nth_error h r = None -> df_copy r h = (Raise AttributeError, h).
Proof. intros Hr. unfold df_copy, bind, deref. now rewrite Hr. Qed.

Lemma df_getitem_last (H : store) (d : DataFrame) (name : string) :
  df_getitem (length H) name (H ++ [d]) =
  (match assoc name (columns d) with Some c => Ok c | None => Raise KeyError end,
   H ++ [d]).
Proof.
  unfold df_getitem, bind. rewrite deref_last.
  now destruct (assoc name (columns d)).
Qed.

Lemma df_getitems_last (H : store) (d : DataFrame) (names : list string) :
  df_getitems (length H) names (H ++ [d]) = (select d names, H ++ [d]).
Proof. unfold df_getitems, bind. now rewrite deref_last. Qed.

Lemma df_setitem_last (H : store) (d : DataFrame) (name : string) (c : column) :
  df_setitem (length H) name c (H ++ [d]) = (Ok tt, H ++ [set_column d name c]).
Proof.
  unfold df_setitem, bind, write. rewrite deref_last. now rewrite update_last.
Qed.

Lemma df_setitem_scalar_last (H : store) (d : DataFrame) (name : string) (x : float) :
  df_setitem_scalar (length H) name x (H ++ [d]) =
  (Ok tt, H ++ [set_column d name (repeat (CNum x) (nrows d))]).
Proof.
  unfold df_setitem_scalar, bind, write. rewrite deref_last. now rewrite update_last.
Qed.

Lemma df_columns_last (H : store) (d : DataFrame) :
  df_columns (length H) (H ++ [d]) = (Ok (col_names d), H ++ [d]).
Proof. unfold df_columns, bind. now rewrite deref_last. Qed.

Lemma df_len_last (H : store) (d : DataFrame) :
  df_len (length H) (H ++ [d]) = (Ok (nrows d), H ++ [d]).
Proof. unfold df_len, bind. now rewrite deref_last. Qed.

Lemma df_sort_values_last (H : store) (d : DataFrame) (by_ : string) :
  df_sort_values (length H) by_ (H ++ [d]) =
  match assoc by_ (columns d) with
  | Some key => (Ok (length (H ++ [d])), (H ++ [d]) ++ [sorted_by d key])
  | None => (Raise KeyError, H ++ [d])
  end.
Proof.
  unfold df_sort_values, bind. rewrite deref_last.
  now destruct (assoc by_ (columns d)).
Qed.

(** The same steps under a [bind], as the methods chain them. *)

Lemma bind_copy {B : Type} (h : store) (r : ref) (d : DataFrame) (k : ref -> M B) :
  nth_error h r = Some d -> bind (df_copy r) k h = k (length h) (h ++ [d]).
Proof. intros Hr. unfold bind. now rewrite (df_copy_run h r d Hr). Qed.

Lemma bind_getitem {B : Type} (H : store) (d : DataFrame) (name : string)
    (k : column -> M B) :
  bind (df_getitem (length H) name) k (H ++ [d]) =
  match assoc name (columns d) with
  | Some c => k c (H ++ [d])
  | None => (Raise KeyError, H ++ [d])
  end.
Proof.
  unfold bind. rewrite df_getitem_last. now destruct (assoc name (columns d)).
Qed.

Lemma bind_getitems {B : Type} (H : store) (d : DataFrame) (names : list string)
    (k : list column -> M B) :
  bind (df_getitems (length H) names) k (H ++ [d]) =
  match select d names with
  | Ok cs => k cs (H ++ [d])
  | Raise e => (Raise e, H ++ [d])
  end.
Proof.
  unfold bind. rewrite df_getitems_last. now destruct (select d names).
Qed.

Lemma bind_setitem {B : Type} (H : store) (d : DataFrame) (name : string)
    (c : column) (k : unit -> M B) :
  bind (df_setitem (length H) name c) k (H ++ [d]) =
  k tt (H ++ [set_column d name c]).
Proof. unfold bind. now rewrite df_setitem_last. Qed.

Lemma bind_setitem_scalar {B : Type} (H : store) (d : DataFrame) (name : string)
    (x : float) (k : unit -> M B) :
  bind (df_setitem_scalar (length H) name x) k (H ++ [d]) =
  k tt (H ++ [set_column d name (repeat (CNum x) (nrows d))]).
Proof. unfold bind. now rewrite df_setitem_scalar_last. Qed.

Lemma bind_columns {B : Type} (H : store) (d : DataFrame) (k : list string -> M B) :
  bind (df_columns (length H)) k (H ++ [d]) = k (col_names d) (H ++ [d]).
Proof. unfold bind. now rewrite df_columns_last. Qed.

Lemma bind_len {B : Type} (H : store) (d : DataFrame) (k : nat -> M B) :
  bind (df_len (length H)) k (H ++ [d]) = k (nrows d) (H ++ [d]).
Proof. unfold bind. now rewrite df_len_last. Qed.

Lemma bind_lift {A B : Type} (r : result A) (k : A -> M B) (h : store) :
  bind (lift r) k h = match r with Ok a => k a h | Raise e => (Raise e, h) end.
Proof. unfold bind, lift. now destruct r. Qed.

(** Run the next operation of a method on the last object of the store. *)
Ltac step :=
  first [ rewrite bind_getitem
        | rewrite bind_getitems
        | rewrite bind_setitem
        | rewrite bind_setitem_scalar
        | rewrite bind_columns
        | rewrite bind_len
        | rewrite bind_lift ];
  cbv beta.

(** ** Names of the columns the detectors write *)

Lemma append_length (a b : string) :
  String.length (a ++ b) = (String.length a + String.length b)%nat.
Proof. induction a as [|ch a IH]; simpl; [reflexivity|]. now rewrite IH. Qed.

Lemma prefixed_neq (p c : string) :
  p <> ""%string -> String.eqb (p ++ c) c = false.
Proof.
  intros Hp. apply String.eqb_neq. intros E.
  apply (f_equal String.length) in E. rewrite append_length in E.
  destruct p; [congruence|]. simpl in E. lia.
Qed.

Lemma assoc_set_same {V : Type} (k : string) (v : V) (l : list (string * V)) :
  assoc k (assoc_set k v l) = Some v.
Proof.
  induction l as [|[k' v'] l IH]; simpl.
  - now rewrite String.eqb_refl.
  - destruct (String.eqb k' k) eqn:E; simpl.
    + now rewrite String.eqb_refl.
    + now rewrite E.
Qed.

Lemma assoc_set_other {V : Type} (k k0 : string) (v : V) (l : list (string * V)) :
  String.eqb k0 k = false -> assoc k (assoc_set k0 v l) = assoc k l.
Proof.
  intros Hk. induction l as [|[k' v'] l IH]; simpl.
  - now rewrite Hk.
  - destruct (String.eqb k' k0) eqn:E; simpl.
    + apply String.eqb_eq in E. subst k'. now rewrite Hk.
    + now rewrite IH.
Qed.

Lemma column_set_same (d : DataFrame) (name : string) (c : column) :
  assoc name (columns (set_column d name c)) = Some c.
Proof. apply assoc_set_same. Qed.

Lemma column_set_other (d : DataFrame) (name name0 : string) (c : column) :
  String.eqb name0 name = false ->
  assoc name (columns (set_column d name0 c)) = assoc name (columns d).
Proof. apply assoc_set_other. Qed.

(** ** The methods run as the table functions *)

Lemma detect_zscore_runs self (h : store) (data : ref) (d : DataFrame)
    (column : string) (threshold : float) :
  nth_error h data = Some d ->
  runs_as (detect_zscore self data column threshold) h (zscore_frame d column threshold).
Proof.
  intros Hd. unfold runs_as, zscore_frame, detect_zscore.
  rewrite (bind_copy h data d _ Hd). step.
  destruct (assoc column (columns d)) as [c|] eqn:Hc.
  - exists h. split; [apply extends_refl|].
    do 2 step. reflexivity.
  - exists (h ++ [d]). split; [apply extends_snoc, extends_refl|reflexivity].
Qed.

Ltac names_differ :=
  solve [ reflexivity
        | apply prefixed_neq; discriminate ].

(** Read a column back from a table built by [set_column]. *)
Ltac read_back :=
  repeat first
    [ rewrite column_set_same
    | rewrite column_set_other by names_differ ].

Lemma detect_iqr_runs self (h : store) (data : ref) (d : DataFrame)
    (column : string) (multiplier : float) :
  nth_error h data = Some d ->
  runs_as (detect_iqr self data column multiplier) h (iqr_frame d column multiplier).
Proof.
  intros Hd. unfold runs_as, iqr_frame, detect_iqr.
  rewrite (bind_copy h data d _ Hd). step.
  destruct (assoc column (columns d)) as [c|] eqn:Hc.
  - exists h. split; [apply extends_refl|].
    do 3 (step; rewrite Hc). do 3 step. reflexivity.
  - exists (h ++ [d]). split; [apply extends_snoc, extends_refl|reflexivity].
Qed.

Lemma detect_moving_average_deviation_runs self (h : store) (data : ref)
    (d : DataFrame) (column : string) (window : nat) (threshold : float) :
  nth_error h data = Some d ->
  runs_as (detect_moving_average_deviation self data column window threshold) h
    (ma_frame d column window threshold).
Proof.
  intros Hd. unfold runs_as, ma_frame, detect_moving_average_deviation.
  rewrite (bind_copy h data d _ Hd). step.
  destruct (assoc column (columns d)) as [c|] eqn:Hc.
  - exists h. split; [apply extends_refl|].
    step. step. read_back. rewrite Hc.
    step. step. read_back. rewrite Hc.
    step. read_back.
    step. step. read_back.
    step. read_back.
    step. reflexivity.
  - exists (h ++ [d]). split; [apply extends_snoc, extends_refl|reflexivity].
Qed.

Lemma detect_isolation_forest_runs self (h : store) (data : ref) (d : DataFrame)
    (features : list string) :
  nth_error h data = Some d ->
  runs_as (detect_isolation_forest self data features) h
    (isolation_forest_frame self d features).
Proof.
  intros Hd. unfold runs_as, isolation_forest_frame, detect_isolation_forest.
  rewrite (bind_copy h data d _ Hd). step.
  destruct (select d features) as [cols|e] eqn:Hs.
  - step. step.
    destruct (check_array (map (map nan_to_num) (values_of (nrows d) cols)))
      as [[]|e] eqn:Hx.
    + step. destruct (check_contamination (contamination self)) as [[]|e].
      * exists h. split; [apply extends_refl|].
        do 2 step. reflexivity.
      * exists (h ++ [d]). split; [apply extends_snoc, extends_refl|reflexivity].
    + exists (h ++ [d]). split; [apply extends_snoc, extends_refl|reflexivity].
  - exists (h ++ [d]). split; [apply extends_snoc, extends_refl|reflexivity].
Qed.

Lemma runs_as_tail (m : M ref) (H : store) (d : DataFrame) (res : result DataFrame) :
  runs_as m (H ++ [d]) res -> tail_runs m H d res.
Proof.
  unfold runs_as, tail_runs. destruct res as [d'|e]; intros (H' & Hext & Hm);
    exists H'; (split; [|assumption]);
    apply (extends_trans _ (H ++ [d])); auto using extends_snoc, extends_refl.
Qed.

Lemma tail_bind (m : M ref) (k : ref -> M ref) (H : store) (d : DataFrame)
    (res : result DataFrame) (kres : DataFrame -> result DataFrame) :
  tail_runs m H d res ->
  (forall H' d', extends H H' -> tail_runs (k (length H')) H' d' (kres d')) ->
  tail_runs (bind m k) H d (and_then res kres).
Proof.
  unfold tail_runs at 1. destruct res as [d'|e]; simpl.
  - intros (H' & Hext & Hm) Hk. specialize (Hk H' d' Hext).
    unfold tail_runs in *. unfold bind. rewrite Hm.
    destruct (kres d') as [d''|e]; destruct Hk as (H'' & Hext' & Hk);
      exists H''; split; eauto using extends_trans.
  - intros (H' & Hext & Hm) _. exists H'. split; [assumption|].
    unfold bind. now rewrite Hm.
Qed.

Lemma tail_ret (H : store) (d : DataFrame) :
  tail_runs (ret (length H)) H d (Ok d).
Proof. exists H. split; [apply extends_refl|reflexivity]. Qed.

Lemma column_pass_tail self (date_column : option string) (H : store) (d : DataFrame)
    (col : string) :
  tail_runs
    (df <- detect_zscore self (length H) col default_zscore_threshold ;;
     df <- detect_iqr self df col default_iqr_multiplier ;;
     if truthy date_column
     then detect_moving_average_deviation self df col default_window default_ma_threshold
     else ret df)
    H d (column_pass date_column d col).
Proof.
  unfold column_pass. apply tail_bind.
  - apply runs_as_tail, detect_zscore_runs, nth_error_last.
  - intros H1 d1 _. apply tail_bind.
    + apply runs_as_tail, detect_iqr_runs, nth_error_last.
    + intros H2 d2 _. destruct (truthy date_column).
      * apply runs_as_tail, detect_moving_average_deviation_runs, nth_error_last.
      * apply tail_ret.
Qed.

Lemma for_each_tail self (date_column : option string) (cols : list string) :
  forall (H : store) (d : DataFrame),
  tail_runs
    (for_each cols (length H)
       (fun df col =>
          df <- detect_zscore self df col default_zscore_threshold ;;
          df <- detect_iqr self df col default_iqr_multiplier ;;
          if truthy date_column
          then detect_moving_average_deviation self df col
                 default_window default_ma_threshold
          else ret df))
    H d (columns_pass date_column cols d).
Proof.
  induction cols as [|col rest IH]; intros H d; simpl.
  - apply tail_ret.
  - apply tail_bind.
    + apply column_pass_tail.
    + intros H' d' _. apply IH.
Qed.

Lemma assoc_in_names {V : Type} (n : string) (l : list (string * V)) :
  In n (map fst l) -> exists v, assoc n l = Some v.
Proof.
  induction l as [|[k v] l IH]; simpl; [contradiction|].
  intros [->|Hin].
  - rewrite String.eqb_refl. eauto.
  - destruct (String.eqb k n); eauto.
Qed.

Lemma assoc_some_in {V : Type} (n : string) (v : V) (l : list (string * V)) :
  assoc n l = Some v -> In (n, v) l.
Proof.
  induction l as [|[k w] l IH]; simpl; [discriminate|].
  destruct (String.eqb k n) eqn:E.
  - apply String.eqb_eq in E. intros [= ->]. left. now subst.
  - intros Hn. right. auto.
Qed.

Lemma select_present (d : DataFrame) (names : list string) :
  incl names (col_names d) -> select d names = Ok (map (column_or_empty d) names).
Proof.
  induction names as [|n rest IH]; intros Hin; simpl; [reflexivity|].
  destruct (assoc_in_names n (columns d)) as [c Hc].
  { apply Hin. now left. }
  unfold column_or_empty at 1. rewrite Hc, IH; [reflexivity|].
  intros x Hx. apply Hin. now right.
Qed.

Lemma select_anomaly_columns (d : DataFrame) :
  select d (anomaly_columns d) = Ok (map (column_or_empty d) (anomaly_columns d)).
Proof.
  apply select_present. intros n Hn. unfold anomaly_columns in Hn.
  now apply filter_In in Hn.
Qed.

Lemma consensus_tail (H : store) (d : DataFrame) :
  tail_runs
    (fun h =>
       (names <- df_columns (length H) ;;
        cols <- df_getitems (length H) (filter (contains "is_anomaly") names) ;;
        n <- df_len (length H) ;;
        df_setitem (length H) "anomaly_count"
          (map (fun i => CNum (nansum (row_of cols i))) (seq 0 n)) ;;;
        counts <- df_getitem (length H) "anomaly_count" ;;
        df_setitem (length H) "is_anomaly_consensus"
          (map (fun c => CBool (geb (cell_float c) consensus_threshold)) counts) ;;;
        ret (length H)) h)
    H d (Ok (consensus_frame d)).
Proof.
  exists H. split; [apply extends_refl|].
  step. step. fold (anomaly_columns d). rewrite select_anomaly_columns.
  step. step. step. read_back. step. reflexivity.
Qed.

Lemma sort_tail (date_column : option string) (h : store) (d : DataFrame) :
  tail_runs
    (fun s => (if truthy date_column
               then df_sort_values (length h) (date_name date_column)
               else ret (length h)) s)
    h d (sort_frame d date_column).
Proof.
  unfold sort_frame, tail_runs. destruct (truthy date_column).
  - rewrite df_sort_values_last.
    destruct (assoc (date_name date_column) (columns d)) as [key|].
    + exists (h ++ [d]). split; [apply extends_snoc, extends_refl|reflexivity].
    + exists (h ++ [d]). split; [apply extends_snoc, extends_refl|reflexivity].
  - exists h. split; [apply extends_refl|reflexivity].
Qed.

Lemma detect_all_runs self (h : store) (data : ref) (d : DataFrame)
    (numeric_columns : list string) (date_column : option string) :
  nth_error h data = Some d ->
  runs_as (detect_all self data numeric_columns date_column) h
    (detect_all_frame self d numeric_columns date_column).
Proof.
  intros Hd.
  assert (T : tail_runs
    (fun s =>
      (df <- (if truthy date_column
              then df_sort_values (length h) (date_name date_column)
              else ret (length h)) ;;
       df <- detect_isolation_forest self df numeric_columns ;;
       df <- for_each numeric_columns df
          (fun df col =>
             df <- detect_zscore self df col default_zscore_threshold ;;
             df <- detect_iqr self df col default_iqr_multiplier ;;
             if truthy date_column
             then detect_moving_average_deviation self df col
                    default_window default_ma_threshold
             else ret df) ;;
       names <- df_columns df ;;
       cols <- df_getitems df (filter (contains "is_anomaly") names) ;;
       n <- df_len df ;;
       df_setitem df "anomaly_count"
         (map (fun i => CNum (nansum (row_of cols i))) (seq 0 n)) ;;;
       counts <- df_getitem df "anomaly_count" ;;
       df_setitem df "is_anomaly_consensus"
         (map (fun c => CBool (geb (cell_float c) consensus_threshold)) counts) ;;;
       ret df) s)
    h d (detect_all_frame self d numeric_columns date_column)).
  { unfold detect_all_frame.
    apply (tail_bind _ _ h d (sort_frame d date_column)); [apply sort_tail|].
    intros H0 d0 _. apply tail_bind.
    { apply runs_as_tail, detect_isolation_forest_runs, nth_error_last. }
    intros H1 d1 _. apply tail_bind.
    { apply for_each_tail. }
    intros H2 d2 _. apply consensus_tail. }
  unfold runs_as, detect_all. rewrite (bind_copy h data d _ Hd).
  unfold tail_runs in T.
  destruct (detect_all_frame self d numeric_columns date_column) as [d'|e];
    destruct T as (H' & Hext & HT); exists H'; split; assumption.
Qed.

(** ** The input table is left unchanged (C9) *)

Lemma preserved_refl (h : store) : preserved h h.
Proof. intros r d Hr. exact Hr. Qed.

Lemma runs_as_frame (m : M ref) (h : store) (res : result DataFrame) :
  runs_as m h res -> preserved h (snd (m h)) /\ fresh_result h (m h).
Proof.
  unfold runs_as. destruct res as [d'|e]; intros (H & Hext & Hm); rewrite Hm; simpl.
  - split.
    + apply extends_preserved, extends_snoc, Hext.
    + intros r' [= <-]. simpl. split; [now apply extends_length|].
      exists d'. apply nth_error_last.
  - split; [now apply extends_preserved|]. intros r' Hr. discriminate Hr.
Qed.

Lemma raises_frame (m : M ref) (h : store) (e : exn) :
  m h = (Raise e, h) -> preserved h (snd (m h)) /\ fresh_result h (m h).
Proof.
  intros Hm. rewrite Hm. split; [apply preserved_refl|].
  intros r' Hr. discriminate Hr.
Qed.

Lemma bind_copy_dangling {B : Type} (h : store) (r : ref) (k : ref -> M B) :
  nth_error h r = None -> bind (df_copy r) k h = (Raise AttributeError, h).
Proof. intros Hr. unfold bind. now rewrite (df_copy_dangling h r Hr). Qed.

(** C9. Each detection method returns a table that did not exist before the
    call and leaves every table of the caller, the input among them, as it
    was: the same columns with the same cells, whether the method returns
    or raises. *)
Theorem detection_leaves_input_unchanged self (data : ref) (features : list string)
    (column : string) (threshold multiplier ma_threshold : float) (window : nat)
    (numeric_columns : list string) (date_column : option string) :
  leaves_tables_unchanged (detect_zscore self data column threshold)
  /\ leaves_tables_unchanged (detect_iqr self data column multiplier)
  /\ leaves_tables_unchanged
       (detect_moving_average_deviation self data column window ma_threshold)
  /\ leaves_tables_unchanged (detect_isolation_forest self data features)
  /\ leaves_tables_unchanged (detect_all self data numeric_columns date_column).
Proof.
  unfold leaves_tables_unchanged; repeat apply conj; intros h;
    destruct (nth_error h data) as [d|] eqn:Hd;
    try (apply (raises_frame _ h AttributeError);
         apply bind_copy_dangling; exact Hd).
  - eapply runs_as_frame, detect_zscore_runs, Hd.
  - eapply runs_as_frame, detect_iqr_runs, Hd.
  - eapply runs_as_frame, detect_moving_average_deviation_runs, Hd.
  - eapply runs_as_frame, detect_isolation_forest_runs, Hd.
  - eapply runs_as_frame, detect_all_runs, Hd.
Qed.

(** ** Constant series (C5) *)

Lemma runs_as_returns (m : M ref) (h : store) (d' : DataFrame) :
  runs_as m h (Ok d') -> returns m h d'.
Proof.
  intros (H & _ & Hm). exists (length H), (H ++ [d']).
  split; [assumption|apply nth_error_last].
Qed.

Lemma feq_fin_inv (x : float) (v : Q) :
  feq x (Fin v) -> exists a, x = Fin a /\ a == v.
Proof. destruct x; simpl; try contradiction. eauto. Qed.

Lemma constant_floats (v : Q) (c : column) :
  all_equal_to v c -> Forall (fun x => feq x (Fin v)) (floats c).
Proof. unfold all_equal_to, floats. intros Hc. now rewrite Forall_map. Qed.

Lemma drop_nan_constant (v : Q) (xs : list float) :
  Forall (fun x => feq x (Fin v)) xs -> drop_nan xs = xs.
Proof.
  induction 1 as [|x xs Hx _ IH]; simpl; [reflexivity|].
  apply feq_fin_inv in Hx as (a & -> & _). simpl. now rewrite IH.
Qed.

Lemma isconst_constant (v : Q) (xs : list float) :
  Forall (fun x => feq x (Fin v)) xs -> isconst xs = true.
Proof.
  intros Hxs. destruct xs as [|y ys]; [reflexivity|]. unfold isconst.
  pose proof (Forall_inv Hxs) as Hy. apply feq_fin_inv in Hy as (a & -> & Ha).
  apply forallb_forall. intros x Hx.
  rewrite Forall_forall in Hxs. apply Hxs in Hx.
  apply feq_fin_inv in Hx as (b & -> & Hb). simpl.
  apply Qeq_bool_iff. now rewrite Ha, Hb.
Qed.

Lemma zscore_constant (v : Q) (xs : list float) :
  Forall (fun x => feq x (Fin v)) xs -> zscore xs = map (fun _ => NaN) xs.
Proof.
  intros Hxs. unfold zscore. rewrite (drop_nan_constant v xs Hxs).
  now rewrite (isconst_constant v xs Hxs).
Qed.

Lemma map_const_repeat {A B : Type} (b : B) (l : list A) :
  map (fun _ => b) l = repeat b (length l).
Proof. induction l as [|a l IH]; simpl; [reflexivity|]. now rewrite IH. Qed.

Lemma zscore_flags_constant (v : Q) (threshold : float) (c : column) :
  all_equal_to v c -> zscore_flags threshold c = no_flags (length c).
Proof.
  intros Hc. unfold zscore_flags, no_flags.
  rewrite (zscore_constant v _ (constant_floats v c Hc)).
  rewrite !map_map. unfold floats. rewrite map_map.
  replace (fun x : cell => CBool (gtb (abs NaN) threshold))
    with (fun _ : cell => CBool false).
  - apply map_const_repeat.
  - destruct threshold; reflexivity.
Qed.

(** Sorting keeps a property that every entry has. *)
Lemma insert_sorted_Forall (P : float -> Prop) (x : float) (l : list float) :
  P x -> Forall P l -> Forall P (insert_sorted x l).
Proof.
  intros Hx. induction 1 as [|h t Hh Ht IH]; simpl.
  - auto.
  - destruct (leb x h); auto.
Qed.

Lemma sort_Forall (P : float -> Prop) (l : list float) :
  Forall P l -> Forall P (sort l).
Proof.
  induction 1 as [|h t Hh Ht IH]; simpl; [constructor|].
  now apply insert_sorted_Forall.
Qed.

Lemma insert_sorted_length (x : float) (l : list float) :
  length (insert_sorted x l) = S (length l).
Proof.
  induction l as [|h t IH]; simpl; [reflexivity|].
  destruct (leb x h); simpl; [reflexivity|]. now rewrite IH.
Qed.

Lemma sort_length (l : list float) : length (sort l) = length l.
Proof.
  induction l as [|h t IH]; simpl; [reflexivity|].
  now rewrite insert_sorted_length, IH.
Qed.

(** The lower order statistic of [quantile] is inside the series. *)
Lemma quantile_index_bound (n : nat) (q : Q) :
  0 <= q -> q <= 1 ->
  (Z.to_nat (Qfloor (inject_Z (Z.of_nat n) * q)) <= n)%nat.
Proof.
  intros H0 H1.
  assert (Hn : 0 <= inject_Z (Z.of_nat n)).
  { change 0 with (inject_Z 0). rewrite <- Zle_Qle. lia. }
  assert (Hle : inject_Z (Z.of_nat n) * q <= inject_Z (Z.of_nat n)) by nra.
  apply Qfloor_resp_le in Hle. rewrite Qfloor_Z in Hle. lia.
Qed.

Lemma quantile_constant (v q : Q) (xs : list float) :
  0 <= q -> q <= 1 -> xs <> [] ->
  Forall (fun x => feq x (Fin v)) xs -> feq (quantile q xs) (Fin v).
Proof.
  intros H0 H1 Hne Hxs. unfold quantile.
  rewrite (drop_nan_constant v xs Hxs).
  pose proof (sort_Forall _ _ Hxs) as Hs.
  pose proof (sort_length xs) as Hl.
  destruct (sort xs) as [|s0 s] eqn:Es.
  { destruct xs; [congruence|discriminate]. }
  rewrite <- Es in *. clear Es s0 s.
  set (last := (length (sort xs) - 1)%nat).
  set (h := inject_Z (Z.of_nat last) * q).
  assert (Hpos : (0 < length (sort xs))%nat).
  { rewrite Hl. destruct xs; [congruence|simpl; lia]. }
  assert (Hlo : (Z.to_nat (Qfloor h) < length (sort xs))%nat).
  { pose proof (quantile_index_bound last q H0 H1). fold h in H. lia. }
  assert (Hhi : (Nat.min (S (Z.to_nat (Qfloor h))) last < length (sort xs))%nat) by lia.
  rewrite Forall_forall in Hs.
  pose proof (Hs _ (nth_In _ NaN Hlo)) as Ha.
  pose proof (Hs _ (nth_In _ NaN Hhi)) as Hb.
  apply feq_fin_inv in Ha as (a & -> & Ha).
  apply feq_fin_inv in Hb as (b & -> & Hb).
  simpl. rewrite Ha, Hb. ring.
Qed.

Lemma combine_map_same {A B C : Type} (f : A -> B) (g : A -> C) (l : list A) :
  combine (map f l) (map g l) = map (fun x => (f x, g x)) l.
Proof. induction l as [|a l IH]; simpl; [reflexivity|]. now rewrite IH. Qed.

Lemma elementwise_map_same {A B C D : Type} (op : B -> C -> D) (f : A -> B)
    (g : A -> C) (l : list A) :
  elementwise op (map f l) (map g l) = map (fun x => op (f x) (g x)) l.
Proof. unfold elementwise. rewrite combine_map_same. now rewrite map_map. Qed.

Lemma Qsign_zero (z : Q) : z == 0 -> Qsign z = Eq.
Proof.
  unfold Qeq, Qsign. simpl. intros Hz. rewrite Z.mul_1_r in Hz. now rewrite Hz.
Qed.

Lemma mul_zero_spread (m : float) (z : Q) :
  z == 0 -> at_or_nan 0 (mul m (Fin z)).
Proof.
  intros Hz. destruct m as [k| | |]; simpl.
  - right. exists (k * z). split; [reflexivity|]. rewrite Hz. ring.
  - left. now rewrite (Qsign_zero z Hz).
  - left. now rewrite (Qsign_zero z Hz).
  - now left.
Qed.

Lemma iqr_bounds_constant (v : Q) (multiplier : float) (c : column) :
  c <> [] -> all_equal_to v c ->
  at_or_nan v (iqr_lower multiplier c) /\ at_or_nan v (iqr_upper multiplier c).
Proof.
  intros Hne Hc. pose proof (constant_floats v c Hc) as Hxs.
  assert (Hne' : floats c <> []) by (destruct c; [congruence|discriminate]).
  assert (H1 := quantile_constant v (1 # 4) _ ltac:(lra) ltac:(lra) Hne' Hxs).
  assert (H3 := quantile_constant v (3 # 4) _ ltac:(lra) ltac:(lra) Hne' Hxs).
  apply feq_fin_inv in H1 as (a & E1 & Ha).
  apply feq_fin_inv in H3 as (b & E3 & Hb).
  unfold iqr_lower, iqr_upper. rewrite E1, E3.
  assert (Hz : b + - a == 0) by (rewrite Ha, Hb; ring).
  change (sub (Fin b) (Fin a)) with (Fin (b + - a)).
  destruct (mul_zero_spread multiplier (b + - a) Hz) as [->|(z & -> & Hz')].
  - split; now left.
  - split; right; eexists; (split; [reflexivity|]); rewrite Hz'; lra.
Qed.

Lemma not_below (v : Q) (x bound : float) :
  feq x (Fin v) -> at_or_nan v bound -> ltb x bound = false.
Proof.
  intros Hx Hb. apply feq_fin_inv in Hx as (a & -> & Ha).
  destruct Hb as [->|(b & -> & Hb)]; [reflexivity|]. simpl. unfold Qltb.
  apply negb_false_iff, Qle_bool_iff. rewrite Ha, Hb. apply Qle_refl.
Qed.

Lemma not_above (v : Q) (x bound : float) :
  feq x (Fin v) -> at_or_nan v bound -> gtb x bound = false.
Proof.
  intros Hx Hb. apply feq_fin_inv in Hx as (a & -> & Ha).
  destruct Hb as [->|(b & -> & Hb)]; [reflexivity|]. simpl. unfold Qltb.
  apply negb_false_iff, Qle_bool_iff. rewrite Ha, Hb. apply Qle_refl.
Qed.

Lemma iqr_flags_constant (v : Q) (multiplier : float) (c : column) :
  all_equal_to v c -> iqr_flags multiplier c = no_flags (length c).
Proof.
  intros Hc. destruct c as [|x0 c0] eqn:Ec; [reflexivity|]. rewrite <- Ec in *.
  assert (Hne : c <> []) by (rewrite Ec; discriminate).
  destruct (iqr_bounds_constant v multiplier c Hne Hc) as [Hlo Hhi].
  unfold iqr_flags, no_flags. rewrite elementwise_map_same.
  rewrite <- map_const_repeat. apply map_ext_in. intros x Hx.
  unfold all_equal_to in Hc. rewrite Forall_forall in Hc.
  rewrite (not_below v _ _ (Hc x Hx) Hlo), (not_above v _ _ (Hc x Hx) Hhi).
  reflexivity.
Qed.

Lemma feq_of_eqb (x : float) (v : Q) : eqb x (Fin v) = true -> feq x (Fin v).
Proof. destruct x; simpl; try discriminate. apply Qeq_bool_iff. Qed.

Lemma constant_column_spec (v : Q) (c : column) :
  constant_column v c = true -> all_equal_to v c.
Proof.
  unfold constant_column, all_equal_to. intros Hc. apply Forall_forall.
  intros x Hx. apply feq_of_eqb. rewrite forallb_forall in Hc. now apply Hc.
Qed.

(** C5. On a constant series (every cell of the column holds the same
    number) the z-score detector and the IQR detector both return, and the
    flag column each writes is false in every row: the zero standard
    deviation gives NaN scores, which compare false, and the IQR bounds
    collapse to the constant itself. *)
Theorem constant_series_is_not_flagged self (h : store) (data : ref) (d : DataFrame)
    (column : string) (c : list cell) (v : Q) (threshold multiplier : float) :
  nth_error h data = Some d ->
  assoc column (columns d) = Some c ->
  constant_column v c = true ->
  (exists dz,
      returns (detect_zscore self data column threshold) h dz
      /\ assoc ("is_anomaly_zscore_" ++ column) (columns dz)
         = Some (no_flags (length c)))
  /\ (exists di,
      returns (detect_iqr self data column multiplier) h di
      /\ assoc ("is_anomaly_iqr_" ++ column) (columns di)
         = Some (no_flags (length c))).
Proof.
  intros Hd Hcol Hc. apply constant_column_spec in Hc. split.
  - pose proof (detect_zscore_runs self h data d column threshold Hd) as Hr.
    unfold zscore_frame in Hr. rewrite Hcol in Hr.
    eexists. split; [apply runs_as_returns, Hr|].
    read_back. now rewrite (zscore_flags_constant v).
  - pose proof (detect_iqr_runs self h data d column multiplier Hd) as Hr.
    unfold iqr_frame in Hr. rewrite Hcol in Hr.
    eexists. split; [apply runs_as_returns, Hr|].
    cbv zeta. read_back. now rewrite (iqr_flags_constant v).
Qed.

(** ** The moving-average detector (C6) *)

Lemma keep_last_short (w : nat) (a : list float) :
  (length a <= w)%nat -> keep_last w a = a.
Proof.
  intros Hl. unfold keep_last. replace (length a - w)%nat with 0%nat by lia.
  reflexivity.
Qed.

Lemma keep_last_app (w : nat) (a l : list float) :
  keep_last w (keep_last w a ++ l) = keep_last w (a ++ l).
Proof.
  destruct (Nat.le_gt_cases (length a) w) as [Hs|Hg].
  - now rewrite (keep_last_short w a Hs).
  - unfold keep_last at 1 3. rewrite !length_app.
    unfold keep_last. rewrite length_skipn.
    replace (length a - (length a - w) + length l - w)%nat with (length l) by lia.
    replace (length a + length l - w)%nat with (length l + (length a - w))%nat by lia.
    rewrite <- skipn_skipn. f_equal.
    rewrite skipn_app.
    replace (length a - w - length a)%nat with 0%nat by lia. reflexivity.
Qed.

Lemma roll_length (agg : list float -> float) (w : nat) (xs : list float) :
  forall buf, length (roll agg w buf xs) = length xs.
Proof.
  induction xs as [|x xs IH]; intros buf; simpl; [reflexivity|]. now rewrite IH.
Qed.

Lemma rolling_length (agg : list float -> float) (w : nat) (xs : list float) :
  length (rolling agg w xs) = length xs.
Proof. apply roll_length. Qed.

Lemma roll_nth (agg : list float -> float) (w : nat) (xs : list float) :
  forall (buf : list float) (i : nat),
  (i < length xs)%nat ->
  nth i (roll agg w buf xs) NaN
  = window_value agg w (keep_last w (buf ++ firstn (S i) xs)).
Proof.
  induction xs as [|x xs IH]; intros buf i Hi; simpl in Hi; [lia|].
  destruct i as [|j].
  - reflexivity.
  - cbn [roll nth]. rewrite IH by lia.
    rewrite keep_last_app. rewrite <- app_assoc. reflexivity.
Qed.

(** The sliding buffer holds the trailing window. *)
Lemma rolling_is_trailing (agg : list float -> float) (w : nat) (xs : list float)
    (i : nat) :
  (i < length xs)%nat ->
  nth i (rolling agg w xs) NaN = trailing agg w xs i.
Proof.
  intros Hi. unfold rolling. rewrite roll_nth by assumption. rewrite app_nil_l.
  unfold window_value, trailing, trailing_window, keep_last.
  rewrite length_skipn, length_firstn.
  replace (Nat.min (S i) (length xs)) with (S i) by lia.
  destruct (Nat.ltb_spec (i + 1) w) as [Hlt|Hge].
  - destruct (Nat.ltb_spec (S i - (S i - w)) w); [reflexivity|lia].
  - destruct (Nat.ltb_spec (S i - (S i - w)) w); [lia|].
    rewrite firstn_skipn_comm.
    replace (i + 1 - w + w)%nat with (S i) by lia.
    replace (i + 1 - w)%nat with (S i - w)%nat by lia.
    reflexivity.
Qed.

Lemma elementwise_length {A B C : Type} (f : A -> B -> C) (xs : list A) (ys : list B) :
  length xs = length ys -> length (elementwise f xs ys) = length xs.
Proof.
  intros Hl. unfold elementwise. rewrite length_map, length_combine. lia.
Qed.

Lemma elementwise_nth {A B C : Type} (f : A -> B -> C) (xs : list A) (ys : list B)
    (i : nat) (dx : A) (dy : B) (d : C) :
  length xs = length ys -> (i < length xs)%nat ->
  nth i (elementwise f xs ys) d = f (nth i xs dx) (nth i ys dy).
Proof.
  intros Hl Hi. unfold elementwise.
  rewrite (nth_indep _ d (f dx dy)).
  - pose proof (map_nth (fun p => f (fst p) (snd p)) (combine xs ys) (dx, dy) i) as E.
    cbn [fst snd] in E. rewrite E. now rewrite combine_nth.
  - rewrite length_map, length_combine. lia.
Qed.

Lemma ma_column_length (w : nat) (c : column) : length (ma_column w c) = length c.
Proof. unfold ma_column, floats. now rewrite length_map, rolling_length, length_map. Qed.

Lemma std_column_length (w : nat) (c : column) : length (std_column w c) = length c.
Proof. unfold std_column, floats. now rewrite length_map, rolling_length, length_map. Qed.

Lemma deviation_column_length (w : nat) (c : column) :
  length (deviation_column w c) = length c.
Proof.
  unfold deviation_column. apply elementwise_length. now rewrite ma_column_length.
Qed.

Lemma ma_flags_length (w : nat) (t : float) (c : column) :
  length (ma_flags w t c) = length c.
Proof.
  unfold ma_flags. rewrite elementwise_length; [apply deviation_column_length|].
  now rewrite deviation_column_length, std_column_length.
Qed.

Lemma ma_column_nth (w : nat) (c : column) (i : nat) :
  (i < length c)%nat ->
  nth i (ma_column w c) missing = CNum (trailing window_mean w (floats c) i).
Proof.
  intros Hi. unfold ma_column, missing. rewrite map_nth.
  rewrite rolling_is_trailing; [reflexivity|]. unfold floats. now rewrite length_map.
Qed.

Lemma std_column_nth (w : nat) (c : column) (i : nat) :
  (i < length c)%nat ->
  nth i (std_column w c) missing = CNum (trailing window_std w (floats c) i).
Proof.
  intros Hi. unfold std_column, missing. rewrite map_nth.
  rewrite rolling_is_trailing; [reflexivity|]. unfold floats. now rewrite length_map.
Qed.

Lemma ma_flags_nth (w : nat) (t : float) (c : column) (i : nat) :
  (i < length c)%nat ->
  nth i (ma_flags w t c) missing
  = CBool (gtb (abs (sub (cell_float (nth i c missing))
                         (trailing window_mean w (floats c) i)))
               (mul t (trailing window_std w (floats c) i))).
Proof.
  intros Hi. unfold ma_flags.
  rewrite (elementwise_nth _ _ _ i missing missing);
    [|now rewrite deviation_column_length, std_column_length
     |now rewrite deviation_column_length].
  unfold deviation_column.
  rewrite (elementwise_nth _ _ _ i missing missing);
    [|now rewrite ma_column_length|assumption].
  rewrite ma_column_nth, std_column_nth by assumption. reflexivity.
Qed.





(** ** The summary (C10) *)

Lemma bind_columns_at {B : Type} (h : store) (r : ref) (d : DataFrame)
    (k : list string -> M B) :
  nth_error h r = Some d -> bind (df_columns r) k h = k (col_names d) h.
Proof. intros Hr. unfold bind, df_columns, bind, deref, ret. now rewrite Hr. Qed.

Lemma bind_len_at {B : Type} (h : store) (r : ref) (d : DataFrame) (k : nat -> M B) :
  nth_error h r = Some d -> bind (df_len r) k h = k (nrows d) h.
Proof. intros Hr. unfold bind, df_len, bind, deref, ret. now rewrite Hr. Qed.

Lemma bind_getitem_at {B : Type} (h : store) (r : ref) (d : DataFrame)
    (name : string) (c : column) (k : column -> M B) :
  nth_error h r = Some d -> assoc name (columns d) = Some c ->
  bind (df_getitem r name) k h = k c h.
Proof.
  intros Hr Hc. unfold bind, df_getitem, bind, deref. rewrite Hr, Hc. reflexivity.
Qed.

Lemma count_methods_run (h : store) (data : ref) (d : DataFrame) (cols : list string) :
  nth_error h data = Some d ->
  incl cols (col_names d) ->
  forall counts,
  count_methods data cols counts h = (Ok (method_counts_of d cols counts), h).
Proof.
  intros Hd. induction cols as [|col rest IH]; intros Hin counts; simpl; [reflexivity|].
  destruct (assoc_in_names col (columns d)) as [c Hc].
  { apply Hin. now left. }
  rewrite (bind_getitem_at h data d col c _ Hd Hc). rewrite IH.
  - unfold column_or_empty. now rewrite Hc.
  - intros x Hx. apply Hin. now right.
Qed.

Lemma method_counts_of_other (d : DataFrame) (name : string) (cols : list string) :
  ~ In name cols ->
  forall counts, assoc name (method_counts_of d cols counts) = assoc name counts.
Proof.
  induction cols as [|col rest IH]; intros Hn counts; simpl; [reflexivity|].
  rewrite IH by (intros Hin; apply Hn; now right).
  apply assoc_set_other. apply String.eqb_neq. intros ->. apply Hn. now left.
Qed.

Lemma method_counts_of_in (d : DataFrame) (name : string) (cols : list string) :
  In name cols ->
  forall counts,
  assoc name (method_counts_of d cols counts)
  = Some (nansum (floats (column_or_empty d name))).
Proof.
  induction cols as [|col rest IH]; intros Hin counts; simpl; [contradiction|].
  destruct (in_dec string_dec name rest) as [Hr|Hr].
  - now apply IH.
  - destruct Hin as [->|Hin]; [|contradiction].
    rewrite method_counts_of_other by assumption. apply assoc_set_same.
Qed.

Lemma method_counts_of_names (d : DataFrame) (name : string) (cols : list string) :
  forall counts,
  In name (map fst (method_counts_of d cols counts)) ->
  In name cols \/ In name (map fst counts).
Proof.
  induction cols as [|col rest IH]; intros counts Hin; simpl in *; [now right|].
  apply IH in Hin as [Hin|Hin]; [left; now right|].
  assert (G : forall (l : list (string * float)) v,
             In name (map fst (assoc_set col v l)) -> name = col \/ In name (map fst l)).
  { induction l as [|[k w] l IHl]; simpl; intros v.
    - intros [<-|[]]. now left.
    - destruct (String.eqb k col) eqn:E; simpl.
      + apply String.eqb_eq in E. subst k. intros [<-|Hl]; auto.
      + intros [<-|Hl]; auto. apply IHl in Hl as [->|Hl]; auto. }
  apply G in Hin as [->|Hin]; auto.
Qed.

(** The sum of a flag column is the number of its true flags. *)
Lemma nansum_bool_column (c : column) :
  bool_column c -> feq (nansum (floats c)) (of_nat (count_true c)).
Proof.
  unfold nansum, count_true, of_nat.
  induction 1 as [|x c Hx Hc IH]; [reflexivity|].
  destruct x as [b|y]; [|discriminate]. cbn [floats map cell_float].
  fold (floats c). destruct b; cbn [of_bool drop_nan filter is_nan negb sum fold_right].
  - fold (drop_nan (floats c)). fold (sum (drop_nan (floats c))).
    destruct (sum (drop_nan (floats c))) as [q| | |]; simpl in IH |- *; try contradiction.
    rewrite IH. rewrite Zpos_P_of_succ_nat, <- Z.add_1_l, inject_Z_plus.
    reflexivity.
  - fold (drop_nan (floats c)). fold (sum (drop_nan (floats c))).
    destruct (sum (drop_nan (floats c))) as [q| | |]; simpl in IH |- *; try contradiction.
    rewrite IH. ring.
Qed.

(** C10. On a table without the column [is_anomaly_consensus],
    [get_anomaly_summary] returns (and leaves the store as it was); the
    summary holds the number of rows, 0 consensus anomalies, and one count
    for each column whose name contains [is_anomaly] and for no other: the
    sum of that column, which for a column of flags is the number of true
    flags. *)
Theorem summary_without_consensus self (h : store) (data : ref) (d : DataFrame) :
  nth_error h data = Some d ->
  has_column d "is_anomaly_consensus" = false ->
  exists s,
    get_anomaly_summary self data h = (Ok s, h)
    /\ total_records s = nrows d
    /\ consensus_anomalies s = Fin 0
    /\ (forall name, In name (map fst (method_counts s)) <->
                     In name (anomaly_columns d))
    /\ (forall name c,
          In name (anomaly_columns d) -> assoc name (columns d) = Some c ->
          assoc name (method_counts s) = Some (nansum (floats c))
          /\ (bool_column c -> feq (nansum (floats c)) (of_nat (count_true c)))).
Proof.
  intros Hd Hno.
  exists {| total_records := nrows d;
            method_counts := method_counts_of d (anomaly_columns d) [];
            consensus_anomalies := Fin 0 |}.
  split; [|split; [reflexivity|split; [reflexivity|split]]].
  - unfold get_anomaly_summary.
    rewrite (bind_columns_at h data d _ Hd), (bind_len_at h data d _ Hd),
      (bind_columns_at h data d _ Hd).
    unfold has_column in Hno. rewrite Hno.
    unfold bind at 1. unfold ret at 1. fold (anomaly_columns d).
    unfold bind. rewrite (count_methods_run h data d _ Hd); [reflexivity|].
    intros n Hn. unfold anomaly_columns in Hn. now apply filter_In in Hn.
  - intros name. simpl. split.
    + intros Hin. apply method_counts_of_names in Hin as [Hin|[]]. exact Hin.
    + intros Hin.
      pose proof (method_counts_of_in d name _ Hin []) as Hs.
      apply assoc_some_in in Hs. now apply (in_map fst) in Hs.
  - intros name c Hin Hc. simpl. split.
    + rewrite (method_counts_of_in d name _ Hin). unfold column_or_empty.
      now rewrite Hc.
    + apply nansum_bool_column.
Qed.

(** ** The isolation-forest detector (C4) *)

Lemma select_raises (d : DataFrame) (names : list string) (e : exn) :
  select d names = Raise e -> e = KeyError.
Proof.
  induction names as [|n rest IH]; simpl; [discriminate|].
  destruct (assoc n (columns d)); [|now intros [= <-]].
  destruct (select d rest); [discriminate|]. intros [= <-]. now apply IH.
Qed.

Lemma select_length (d : DataFrame) (names : list string) (cols : list column) :
  select d names = Ok cols -> length cols = length names.
Proof.
  revert cols. induction names as [|n rest IH]; simpl; intros cols.
  - now intros [= <-].
  - destruct (assoc n (columns d)); [|discriminate].
    destruct (select d rest) as [cs|]; [|discriminate].
    intros [= <-]. simpl. now rewrite (IH cs).
Qed.

Lemma check_array_raises (X : list (list float)) (e : exn) :
  check_array X = Raise e -> e = ValueError.
Proof. destruct X as [|[|x r] X]; simpl; congruence. Qed.

Lemma check_array_empty (cols : list column) :
  check_array (map (map nan_to_num) (values_of 0 cols)) = Raise ValueError.
Proof. reflexivity. Qed.

Lemma check_array_ok (n : nat) (cols : list column) :
  (1 <= n)%nat -> cols <> [] ->
  check_array (map (map nan_to_num) (values_of n cols)) = Ok tt.
Proof.
  intros Hn Hc. destruct n as [|n]; [lia|]. destruct cols as [|c cols]; [congruence|].
  reflexivity.
Qed.

Lemma isolation_forest_frame_raises self (d : DataFrame) (features : list string)
    (e : exn) :
  isolation_forest_frame self d features = Raise e -> e = KeyError \/ e = ValueError.
Proof.
  unfold isolation_forest_frame.
  destruct (select d features) as [cols|e'] eqn:Hs.
  - destruct (check_array _) as [[]|e''] eqn:Hx.
    + unfold check_contamination.
      destruct (valid_contamination _); [discriminate|]. intros [= <-]. now right.
    + intros [= <-]. right. now apply check_array_raises in Hx.
  - intros [= <-]. left. now apply select_raises in Hs.
Qed.

(** C4, as the code has it. The detector never raises the specification's
    [InsufficientDataError].  On a table in which every feature is a column:
    with no row it raises scikit-learn's [ValueError], and so it does when
    the contamination rate of the detector is outside (0, 0.5]; with at
    least one row (exactly one included), at least one feature and a
    contamination rate in (0, 0.5] it returns a table with a boolean flag
    and a numeric score for every row. *)
Theorem isolation_forest_rows self (h : store) (data : ref) (d : DataFrame)
    (features : list string) :
  nth_error h data = Some d ->
  incl features (col_names d) ->
  fst (detect_isolation_forest self data features h) <> Raise spec_insufficient_data
  /\ (nrows d = 0%nat ->
      fst (detect_isolation_forest self data features h) = Raise ValueError)
  /\ (valid_contamination (contamination self) = false ->
      fst (detect_isolation_forest self data features h) = Raise ValueError)
  /\ ((1 <= nrows d)%nat -> features <> [] ->
      valid_contamination (contamination self) = true ->
      exists d' flags scores,
        returns (detect_isolation_forest self data features) h d'
        /\ assoc "is_anomaly_if" (columns d') = Some flags
        /\ assoc "anomaly_score_if" (columns d') = Some scores
        /\ length flags = nrows d /\ bool_column flags
        /\ length scores = nrows d /\ number_column scores).
Proof.
  intros Hd Hin.
  pose proof (detect_isolation_forest_runs self h data d features Hd) as Hr.
  pose proof (select_present d features Hin) as Hs.
  split; [|split; [|split]].
  - unfold runs_as in Hr.
    destruct (isolation_forest_frame self d features) as [d'|e] eqn:Hf;
      destruct Hr as (H & _ & ->); simpl; [discriminate|].
    apply isolation_forest_frame_raises in Hf as [->| ->]; discriminate.
  - intros Hz. unfold isolation_forest_frame in Hr. rewrite Hs, Hz in Hr.
    rewrite check_array_empty in Hr. destruct Hr as (H & _ & ->). reflexivity.
  - intros Hv. unfold isolation_forest_frame in Hr. rewrite Hs in Hr.
    cbv zeta in Hr. unfold check_contamination in Hr. rewrite Hv in Hr.
    destruct (check_array _) as [[]|e] eqn:Hx.
    + destruct Hr as (H & _ & ->). reflexivity.
    + apply check_array_raises in Hx. subst e. destruct Hr as (H & _ & ->).
      reflexivity.
  - intros Hn Hf Hv. unfold isolation_forest_frame in Hr. rewrite Hs in Hr.
    rewrite check_array_ok in Hr;
      [|assumption|destruct features; [congruence|discriminate]].
    unfold check_contamination in Hr. rewrite Hv in Hr.
    cbv zeta in Hr. do 3 eexists.
    split; [apply runs_as_returns, Hr|].
    split; [now read_back|]. split; [now read_back|].
    rewrite !length_map, !length_seq. unfold values_of.
    rewrite !length_map, !length_seq.
    repeat split; try reflexivity.
    + unfold bool_column. rewrite Forall_map. apply Forall_forall. reflexivity.
    + unfold number_column. rewrite Forall_map. apply Forall_forall. reflexivity.
Qed.

(** ** The consensus vote (C1) *)

Lemma assoc_set_names {V : Type} (k : string) (v : V) (l : list (string * V)) :
  map fst (assoc_set k v l)
  = if existsb (String.eqb k) (map fst l) then map fst l else map fst l ++ [k].
Proof.
  induction l as [|[k' v'] l IH]; simpl; [reflexivity|].
  rewrite (String.eqb_sym k k'). destruct (String.eqb k' k) eqn:E; simpl.
  - apply String.eqb_eq in E. now subst.
  - rewrite IH. now destruct (existsb (String.eqb k) (map fst l)).
Qed.

Lemma assoc_set_in {V : Type} (k : string) (v : V) (l : list (string * V))
    (n : string) (c : V) :
  In (n, c) (assoc_set k v l) -> (n = k /\ c = v) \/ In (n, c) l.
Proof.
  induction l as [|[k' v'] l IH]; simpl.
  - intros [[= <- <-]|[]]. now left.
  - destruct (String.eqb k' k) eqn:E; simpl.
    + intros [[= <- <-]|Hin]; auto.
    + intros [Heq|Hin]; auto. apply IH in Hin as [?|?]; auto.
Qed.

Lemma existsb_eqb_false (k : string) (l : list string) :
  existsb (String.eqb k) l = false -> ~ In k l.
Proof.
  intros He Hin.
  assert (Ht : existsb (String.eqb k) l = true).
  { apply existsb_exists. exists k. split; [assumption|apply String.eqb_refl]. }
  congruence.
Qed.

Lemma anomaly_columns_set (d : DataFrame) (n : string) (c : column) :
  anomaly_columns (set_column d n c)
  = if has_column d n then anomaly_columns d
    else anomaly_columns d ++ (if contains "is_anomaly" n then [n] else []).
Proof.
  unfold anomaly_columns, col_names, set_column, has_column, col_names. simpl.
  rewrite assoc_set_names.
  destruct (existsb (String.eqb n) (map fst (columns d))); [reflexivity|].
  rewrite filter_app. simpl.
  now destruct (String.prefix "is_anomaly" n || contains "is_anomaly" n).
Qed.

Lemma NoDup_snoc {A : Type} (l : list A) (a : A) :
  NoDup l -> ~ In a l -> NoDup (l ++ [a]).
Proof.
  intros Hl Ha. induction Hl as [|x l Hx Hl IH]; simpl.
  - constructor; [intros []|constructor].
  - constructor.
    + rewrite in_app_iff. intros [Hin|[->|[]]]; [contradiction|].
      apply Ha. now left.
    + apply IH. intros Hin. apply Ha. now right.
Qed.

Lemma votes_are_flags_set (F : list string) (d : DataFrame) (n : string) (c : column) :
  votes_are_flags F d ->
  contains "is_anomaly" n = false \/ (In n F /\ bool_column c) ->
  votes_are_flags F (set_column d n c).
Proof.
  intros [Hnd Hcols] Hn. split.
  - rewrite anomaly_columns_set. destruct (has_column d n) eqn:Hh; [assumption|].
    destruct (contains "is_anomaly" n) eqn:Hc; [|now rewrite app_nil_r].
    apply NoDup_snoc; [assumption|].
    intros Hin. unfold anomaly_columns in Hin. apply filter_In in Hin as [Hin _].
    now apply existsb_eqb_false in Hh.
  - intros name col Hin Hname. apply assoc_set_in in Hin as [[-> ->]|Hin].
    + destruct Hn as [Hn|Hn]; [congruence|assumption].
    + now apply Hcols.
Qed.

Lemma clean_is_flags (F : list string) (d : DataFrame) :
  names_clean d -> votes_are_flags F d.
Proof.
  intros Hc. split.
  - unfold anomaly_columns.
    replace (filter (contains "is_anomaly") (col_names d)) with (@nil string);
      [constructor|].
    symmetry. unfold names_clean in Hc.
    induction (col_names d) as [|n l IH]; [reflexivity|].
    simpl. rewrite (Hc n (or_introl eq_refl)). apply IH.
    intros m Hm. apply Hc. now right.
  - intros name c Hin Hname. apply (in_map fst) in Hin. simpl in Hin.
    apply Hc in Hin. congruence.
Qed.

Lemma sorted_by_names (d : DataFrame) (key : column) :
  col_names (sorted_by d key) = col_names d.
Proof.
  unfold sorted_by, col_names. simpl. rewrite map_map. reflexivity.
Qed.

Lemma sort_frame_clean (d d0 : DataFrame) (date_column : option string) :
  names_clean d -> sort_frame d date_column = Ok d0 ->
  names_clean d0 /\ col_names d0 = col_names d.
Proof.
  unfold sort_frame. intros Hc.
  destruct (truthy date_column).
  - destruct (assoc (date_name date_column) (columns d)) as [key|]; [|discriminate].
    intros [= <-]. split; [|apply sorted_by_names].
    intros n Hn. rewrite sorted_by_names in Hn. now apply Hc.
  - intros [= <-]. now split.
Qed.

Lemma bool_column_map {A : Type} (f : A -> bool) (l : list A) :
  bool_column (map (fun a => CBool (f a)) l).
Proof. unfold bool_column. rewrite Forall_map. apply Forall_forall. reflexivity. Qed.

Lemma bool_column_elementwise {A B : Type} (f : A -> B -> bool) (xs : list A)
    (ys : list B) :
  bool_column (elementwise (fun a b => CBool (f a b)) xs ys).
Proof.
  unfold bool_column, elementwise. rewrite Forall_map. apply Forall_forall. reflexivity.
Qed.

Lemma select_ok_incl (d : DataFrame) (names : list string) (cols : list column) :
  select d names = Ok cols -> incl names (col_names d).
Proof.
  revert cols. induction names as [|n rest IH]; intros cols; simpl.
  - intros _ x [].
  - destruct (assoc n (columns d)) as [c|] eqn:Hc; [|discriminate].
    destruct (select d rest) as [cs|]; [|discriminate].
    intros _ x [<-|Hx].
    + apply assoc_some_in in Hc. now apply (in_map fst) in Hc.
    + now apply (IH cs).
Qed.

(** A clean column name stays clean under the prefixes the detectors use. *)
Ltac clean_prefix H := cbn; rewrite H; reflexivity.

Lemma isolation_forest_frame_flags self (F : list string) (d d' : DataFrame)
    (features : list string) :
  votes_are_flags F d -> In "is_anomaly_if"%string F ->
  isolation_forest_frame self d features = Ok d' -> votes_are_flags F d'.
Proof.
  intros Hv HF. unfold isolation_forest_frame.
  destruct (select d features) as [cols|]; [|discriminate].
  destruct (check_array _) as [[]|]; [|discriminate].
  destruct (check_contamination _) as [[]|]; [|discriminate].
  intros [= <-]. apply votes_are_flags_set; [|left; reflexivity].
  apply votes_are_flags_set; [assumption|]. right. split; [assumption|].
  rewrite map_map. apply bool_column_map.
Qed.

Lemma zscore_frame_flags (F : list string) (d d' : DataFrame) (col : string)
    (t : float) :
  votes_are_flags F d -> contains "is_anomaly" col = false ->
  In ("is_anomaly_zscore_" ++ col)%string F ->
  zscore_frame d col t = Ok d' -> votes_are_flags F d'.
Proof.
  intros Hv Hc HF. unfold zscore_frame.
  destruct (assoc col (columns d)) as [c|]; [|discriminate].
  intros [= <-]. apply votes_are_flags_set; [|left; clean_prefix Hc].
  apply votes_are_flags_set; [assumption|]. right. split; [assumption|].
  apply bool_column_map.
Qed.

Lemma iqr_frame_flags (F : list string) (d d' : DataFrame) (col : string)
    (m : float) :
  votes_are_flags F d -> contains "is_anomaly" col = false ->
  In ("is_anomaly_iqr_" ++ col)%string F ->
  iqr_frame d col m = Ok d' -> votes_are_flags F d'.
Proof.
  intros Hv Hc HF. unfold iqr_frame.
  destruct (assoc col (columns d)) as [c|]; [|discriminate].
  intros [= <-]. cbv zeta.
  apply votes_are_flags_set; [|left; clean_prefix Hc].
  apply votes_are_flags_set; [|left; clean_prefix Hc].
  apply votes_are_flags_set; [assumption|]. right. split; [assumption|].
  apply bool_column_elementwise.
Qed.

Lemma ma_frame_flags (F : list string) (d d' : DataFrame) (col : string)
    (w : nat) (t : float) :
  votes_are_flags F d -> contains "is_anomaly" col = false ->
  In ("is_anomaly_ma_" ++ col)%string F ->
  ma_frame d col w t = Ok d' -> votes_are_flags F d'.
Proof.
  intros Hv Hc HF. unfold ma_frame.
  destruct (assoc col (columns d)) as [c|]; [|discriminate].
  intros [= <-]. cbv zeta.
  apply votes_are_flags_set;
    [|right; split; [assumption|apply bool_column_elementwise]].
  apply votes_are_flags_set; [|left; clean_prefix Hc].
  apply votes_are_flags_set; [|left; clean_prefix Hc].
  apply votes_are_flags_set; [assumption|left; clean_prefix Hc].
Qed.

Lemma detector_flags_in (numeric_columns : list string) (date_column : option string)
    (col : string) :
  In col numeric_columns ->
  In ("is_anomaly_zscore_" ++ col)%string (detector_flags numeric_columns date_column)
  /\ In ("is_anomaly_iqr_" ++ col)%string (detector_flags numeric_columns date_column)
  /\ (truthy date_column = true ->
      In ("is_anomaly_ma_" ++ col)%string (detector_flags numeric_columns date_column)).
Proof.
  intros Hin. unfold detector_flags.
  repeat split; [| |intros Ht]; right; apply in_flat_map; exists col;
    (split; [assumption|]).
  - now left.
  - right. now left.
  - rewrite Ht. right. right. now left.
Qed.

Lemma column_pass_flags (F : list string) (date_column : option string)
    (d d' : DataFrame) (col : string) :
  votes_are_flags F d -> contains "is_anomaly" col = false ->
  In ("is_anomaly_zscore_" ++ col)%string F ->
  In ("is_anomaly_iqr_" ++ col)%string F ->
  (truthy date_column = true -> In ("is_anomaly_ma_" ++ col)%string F) ->
  column_pass date_column d col = Ok d' -> votes_are_flags F d'.
Proof.
  intros Hv Hc Hz Hi Hm. unfold column_pass, and_then.
  destruct (zscore_frame d col default_zscore_threshold) as [d1|] eqn:E1; [|discriminate].
  destruct (iqr_frame d1 col default_iqr_multiplier) as [d2|] eqn:E2; [|discriminate].
  pose proof (zscore_frame_flags F d d1 col _ Hv Hc Hz E1) as Hv1.
  pose proof (iqr_frame_flags F d1 d2 col _ Hv1 Hc Hi E2) as Hv2.
  destruct (truthy date_column).
  - intros E3. exact (ma_frame_flags F d2 d' col _ _ Hv2 Hc (Hm eq_refl) E3).
  - now intros [= <-].
Qed.

Lemma columns_pass_flags (F : list string) (date_column : option string)
    (cols : list string) :
  (forall col, In col cols ->
     contains "is_anomaly" col = false
     /\ In ("is_anomaly_zscore_" ++ col)%string F
     /\ In ("is_anomaly_iqr_" ++ col)%string F
     /\ (truthy date_column = true -> In ("is_anomaly_ma_" ++ col)%string F)) ->
  forall d d', votes_are_flags F d ->
  columns_pass date_column cols d = Ok d' -> votes_are_flags F d'.
Proof.
  induction cols as [|col rest IH]; intros Hcols d d' Hv; simpl.
  - now intros [= <-].
  - unfold and_then.
    destruct (column_pass date_column d col) as [d1|] eqn:E1; [|discriminate].
    destruct (Hcols col (or_introl eq_refl)) as (Hc & Hz & Hi & Hm).
    intros E. apply (IH (fun c Hc' => Hcols c (or_intror Hc')) d1 d'); [|assumption].
    exact (column_pass_flags F date_column d d1 col Hv Hc Hz Hi Hm E1).
Qed.

(** Before the vote, the columns [detect_all] counts are the detectors'
    flag columns, when the input had no column named like one. *)
Lemma detect_all_votes_are_flags self (d d' : DataFrame)
    (numeric_columns : list string) (date_column : option string) :
  names_clean d ->
  detect_all_frame self d numeric_columns date_column = Ok d' ->
  exists d2, d' = consensus_frame d2
             /\ votes_are_flags (detector_flags numeric_columns date_column) d2.
Proof.
  intros Hc. unfold detect_all_frame, and_then.
  destruct (sort_frame d date_column) as [d0|] eqn:E0; [|discriminate].
  destruct (isolation_forest_frame self d0 numeric_columns) as [d1|] eqn:E1;
    [|discriminate].
  destruct (columns_pass date_column numeric_columns d1) as [d2|] eqn:E2;
    [|discriminate].
  intros [= <-]. exists d2. split; [reflexivity|].
  destruct (sort_frame_clean d d0 date_column Hc E0) as [Hc0 Hn0].
  set (F := detector_flags numeric_columns date_column).
  assert (Hv1 : votes_are_flags F d1).
  { apply (isolation_forest_frame_flags self F d0 d1 numeric_columns);
      [now apply clean_is_flags|now left|assumption]. }
  assert (Hnum : incl numeric_columns (col_names d0)).
  { unfold isolation_forest_frame in E1.
    destruct (select d0 numeric_columns) as [cols|] eqn:Hs; [|discriminate].
    now apply select_ok_incl in Hs. }
  apply (columns_pass_flags F date_column numeric_columns) with (d := d1);
    [|assumption|assumption].
  intros col Hcol. split; [apply Hc0, Hnum, Hcol|].
  now apply detector_flags_in.
Qed.

Lemma nansum_cons (x : float) (xs : list float) :
  nansum (x :: xs) = if is_nan x then nansum xs else add x (nansum xs).
Proof. unfold nansum, drop_nan. simpl. now destruct (is_nan x). Qed.

(** The row sum over flag columns is the number of true flags in the row. *)
Lemma row_votes (d : DataFrame) (i : nat) (names : list string) :
  (forall n, In n names -> exists c, assoc n (columns d) = Some c /\ bool_column c) ->
  exists q,
    nansum (row_of (map (column_or_empty d) names) i) = Fin q
    /\ q == inject_Z (Z.of_nat (length (filter (fun n => flag_at d n i) names))).
Proof.
  induction names as [|n rest IH]; intros Hb.
  - exists 0. split; reflexivity.
  - destruct IH as (q & Hq & Hcount); [intros m Hm; apply Hb; now right|].
    destruct (Hb n (or_introl eq_refl)) as (c & Hc & Hbool).
    cbn [map row_of filter]. fold (row_of (map (column_or_empty d) rest) i).
    assert (Ecol : column_or_empty d n = c)
      by (unfold column_or_empty; now rewrite Hc).
    assert (Eflag : flag_at d n i
                    = match nth i c missing with CBool b => b | CNum _ => false end)
      by (unfold flag_at; now rewrite Hc).
    rewrite nansum_cons, Hq, Ecol, Eflag.
    destruct (Nat.lt_ge_cases i (length c)) as [Hi|Hi].
    + unfold bool_column in Hbool. rewrite Forall_forall in Hbool.
      pose proof (Hbool _ (nth_In c missing Hi)) as Hcell.
      destruct (nth i c missing) as [[|]|x]; [| |discriminate]; cbn.
      * eexists. split; [reflexivity|]. rewrite Hcount.
        rewrite Zpos_P_of_succ_nat, <- Z.add_1_l, inject_Z_plus. reflexivity.
      * eexists. split; [reflexivity|]. rewrite Hcount. ring.
    + rewrite (nth_overflow c missing Hi). cbn. exists q. split; [reflexivity|assumption].
Qed.

Lemma nth_map_in {A B : Type} (f : A -> B) (l : list A) (i : nat) (d : B) (d' : A) :
  (i < length l)%nat -> nth i (map f l) d = f (nth i l d').
Proof.
  intros Hi. rewrite (nth_indep _ d (f d')) by now rewrite length_map.
  apply map_nth.
Qed.

Lemma anomaly_counts_nth (d : DataFrame) (i : nat) :
  (i < nrows d)%nat ->
  nth i (anomaly_counts d) missing
  = CNum (nansum (row_of (map (column_or_empty d) (anomaly_columns d)) i)).
Proof.
  intros Hi. unfold anomaly_counts.
  rewrite (nth_map_in _ _ i missing 0%nat) by now rewrite length_seq.
  now rewrite seq_nth.
Qed.

Lemma anomaly_counts_length (d : DataFrame) : length (anomaly_counts d) = nrows d.
Proof. unfold anomaly_counts. now rewrite length_map, length_seq. Qed.

Lemma consensus_flag_true (d : DataFrame) (i : nat) :
  flag_at (consensus_frame d) "is_anomaly_consensus" i = true ->
  geb (nansum (row_of (map (column_or_empty d) (anomaly_columns d)) i))
      consensus_threshold = true.
Proof.
  unfold flag_at, consensus_frame. rewrite column_set_same.
  destruct (Nat.lt_ge_cases i (nrows d)) as [Hi|Hi].
  - rewrite (nth_map_in _ _ i missing missing) by now rewrite anomaly_counts_length.
    rewrite anomaly_counts_nth by assumption. now cbn [cell_float].
  - rewrite nth_overflow; [discriminate|].
    now rewrite length_map, anomaly_counts_length.
Qed.

Lemma consensus_not_detector_flag (numeric_columns : list string)
    (date_column : option string) :
  ~ In "is_anomaly_consensus"%string (detector_flags numeric_columns date_column).
Proof.
  unfold detector_flags. intros [H|H]; [discriminate|].
  apply in_flat_map in H as (col & _ & H).
  apply in_app_or in H as [[H|[H|[]]]|H]; try discriminate.
  destruct (truthy date_column); [|contradiction].
  destruct H as [H|[]]. discriminate.
Qed.

Lemma flag_at_consensus_frame (d : DataFrame) (name : string) (i : nat) :
  contains "is_anomaly" name = true ->
  name <> "is_anomaly_consensus"%string ->
  flag_at (consensus_frame d) name i = flag_at d name i.
Proof.
  intros Hc Hn. unfold flag_at, consensus_frame.
  rewrite column_set_other.
  - rewrite column_set_other; [reflexivity|].
    apply String.eqb_neq. intros <-. discriminate.
  - apply String.eqb_neq. congruence.
Qed.

Lemma two_of {A : Type} (l : list A) :
  NoDup l -> (2 <= length l)%nat -> exists a b, a <> b /\ In a l /\ In b l.
Proof.
  intros Hnd Hl. destruct l as [|a [|b l]]; simpl in Hl; try lia.
  exists a, b. repeat split; [|now left|right; now left].
  intros ->. inversion Hnd as [|? ? Hn _]. apply Hn. now left.
Qed.

Lemma clean_names_spec (d : DataFrame) : clean_names d = true -> names_clean d.
Proof.
  unfold clean_names, names_clean. intros Hc name Hin.
  rewrite forallb_forall in Hc. apply Hc in Hin. now apply negb_true_iff in Hin.
Qed.

(** C1, as the code has it. When no column of the input table has a name
    containing [is_anomaly], a row of the table [detect_all] returns has a
    true consensus flag only if at least 2 of the flag columns the
    detectors produced are true in that row: two distinct detectors flagged
    the row (a detector that does not apply to a row leaves its flag
    false). *)
Theorem consensus_needs_two_votes self (h : store) (data : ref) (d d' : DataFrame)
    (numeric_columns : list string) (date_column : option string) :
  nth_error h data = Some d ->
  clean_names d = true ->
  returns (detect_all self data numeric_columns date_column) h d' ->
  forall i, flag_at d' "is_anomaly_consensus" i = true ->
    (2 <= vote_count d' (detector_flags numeric_columns date_column) i)%nat
    /\ exists n1 n2,
         n1 <> n2
         /\ In n1 (detector_flags numeric_columns date_column)
         /\ In n2 (detector_flags numeric_columns date_column)
         /\ flag_at d' n1 i = true /\ flag_at d' n2 i = true.
Proof.
  intros Hd Hclean (r' & h' & Hrun & Hr') i Hcons.
  apply clean_names_spec in Hclean.
  set (F := detector_flags numeric_columns date_column).
  pose proof (detect_all_runs self h data d numeric_columns date_column Hd) as Hruns.
  unfold runs_as in Hruns.
  destruct (detect_all_frame self d numeric_columns date_column) as [df|e] eqn:Ef;
    destruct Hruns as (H & _ & Hm); rewrite Hm in Hrun; [|discriminate].
  injection Hrun as <- <-. rewrite nth_error_last in Hr'. injection Hr' as <-.
  destruct (detect_all_votes_are_flags self d df _ _ Hclean Ef) as (d2 & -> & Hv).
  fold F in Hv. destruct Hv as [Hnd Hcols].
  assert (Hflag : forall n, In n (anomaly_columns d2) ->
            In n F /\ exists c, assoc n (columns d2) = Some c /\ bool_column c).
  { intros n Hn. unfold anomaly_columns in Hn. apply filter_In in Hn as [Hn Hc].
    destruct (assoc_in_names n (columns d2) Hn) as [c Hassoc].
    destruct (Hcols n c (assoc_some_in _ _ _ Hassoc) Hc) as [HF Hb]. eauto. }
  apply consensus_flag_true in Hcons.
  destruct (row_votes d2 i (anomaly_columns d2)) as (q & Hq & Hcount).
  { intros n Hn. now apply Hflag. }
  rewrite Hq in Hcons. cbn in Hcons. apply Qle_bool_iff in Hcons.
  rewrite Hcount in Hcons. change 2 with (inject_Z 2) in Hcons.
  rewrite <- Zle_Qle in Hcons.
  assert (Hle : (length (filter (fun n => flag_at d2 n i) (anomaly_columns d2))
                 <= vote_count (consensus_frame d2) F i)%nat).
  { unfold vote_count. apply NoDup_incl_length.
    - now apply NoDup_filter.
    - intros n Hn. apply filter_In in Hn as [Hn Hf].
      destruct (Hflag n Hn) as [HF _].
      apply filter_In. split; [now apply nodup_In|].
      rewrite flag_at_consensus_frame; [assumption| |].
      + unfold anomaly_columns in Hn. now apply filter_In in Hn.
      + intros ->. now apply consensus_not_detector_flag in HF. }
  assert (Hvotes : (2 <= vote_count (consensus_frame d2) F i)%nat) by lia.
  split; [assumption|].
  unfold vote_count in Hvotes.
  destruct (two_of _ (NoDup_filter _ (NoDup_nodup string_dec F)) Hvotes)
    as (n1 & n2 & Hne & H1 & H2).
  apply filter_In in H1 as [H1 Hf1]. apply filter_In in H2 as [H2 Hf2].
  apply nodup_In in H1, H2. exists n1, n2. auto.
Qed.

(** ** Sums of rationals *)

Lemma Qltb_iff (a b : Q) : Qltb a b = true <-> a < b.
Proof.
  unfold Qltb. rewrite negb_true_iff. split.
  - intros H. apply Qnot_le_lt. intros Hle. apply Qle_bool_iff in Hle. congruence.
  - intros H. destruct (Qle_bool b a) eqn:E; [|reflexivity].
    apply Qle_bool_iff in E. apply Qle_not_lt in E. contradiction.
Qed.

Lemma Qltb_false_iff (a b : Q) : Qltb a b = false <-> b <= a.
Proof.
  unfold Qltb. rewrite negb_false_iff. apply Qle_bool_iff.
Qed.

Lemma Qsum_app (l1 l2 : list Q) : Qsum (l1 ++ l2) == Qsum l1 + Qsum l2.
Proof.
  induction l1 as [|a l1 IH]; simpl; [ring|]. rewrite IH. ring.
Qed.

Lemma psum_nil_r (f : Q -> Q -> Q) (X : list Q) : psum f X [] = 0.
Proof. unfold psum. now rewrite combine_nil. Qed.

Lemma psum_cons (f : Q -> Q -> Q) (x v : Q) (X y : list Q) :
  psum f (x :: X) (v :: y) = f x v + psum f X y.
Proof. reflexivity. Qed.

(** Induction on two lists at once, for sums over their pairs. *)
Lemma psum_ind (P : list Q -> list Q -> Prop) :
  (forall X, P X []) -> (forall y, P [] y) ->
  (forall x v X y, P X y -> P (x :: X) (v :: y)) ->
  forall X y, P X y.
Proof.
  intros Hr Hl Hc. induction X as [|x X IH]; intros y; [apply Hl|].
  destruct y as [|v y]; [apply Hr|]. apply Hc, IH.
Qed.

Lemma psum_ext (f g : Q -> Q -> Q) (X y : list Q) :
  (forall x v, f x v == g x v) -> psum f X y == psum g X y.
Proof.
  intros Hfg. revert X y. apply psum_ind; intros.
  - now rewrite !psum_nil_r.
  - reflexivity.
  - rewrite !psum_cons, Hfg, H. reflexivity.
Qed.

Lemma psum_plus (f g : Q -> Q -> Q) (X y : list Q) :
  psum (fun x v => f x v + g x v) X y == psum f X y + psum g X y.
Proof.
  revert X y. apply psum_ind; intros.
  - rewrite !psum_nil_r. ring.
  - unfold psum. simpl. ring.
  - rewrite !psum_cons, H. ring.
Qed.

Lemma psum_scal (c : Q) (f : Q -> Q -> Q) (X y : list Q) :
  psum (fun x v => c * f x v) X y == c * psum f X y.
Proof.
  revert X y. apply psum_ind; intros.
  - rewrite !psum_nil_r. ring.
  - unfold psum. simpl. ring.
  - rewrite !psum_cons, H. ring.
Qed.

Lemma psum_nonneg (f : Q -> Q -> Q) (X y : list Q) :
  (forall x v, 0 <= f x v) -> 0 <= psum f X y.
Proof.
  intros Hf. revert X y. apply psum_ind; intros.
  - rewrite psum_nil_r. apply Qle_refl.
  - apply Qle_refl.
  - rewrite psum_cons. specialize (Hf x v). lra.
Qed.

Lemma psum_fst (g : Q -> Q) (X y : list Q) :
  length X = length y -> psum (fun x _ => g x) X y == Qsum (map g X).
Proof.
  revert X y. apply (psum_ind (fun X y => length X = length y ->
    psum (fun x _ => g x) X y == Qsum (map g X))); intros.
  - destruct X; [reflexivity|discriminate].
  - destruct y; [reflexivity|discriminate].
  - rewrite psum_cons. simpl in *. rewrite H by lia. reflexivity.
Qed.

Lemma psum_snd (g : Q -> Q) (X y : list Q) :
  length X = length y -> psum (fun _ v => g v) X y == Qsum (map g y).
Proof.
  revert X y. apply (psum_ind (fun X y => length X = length y ->
    psum (fun _ v => g v) X y == Qsum (map g y))); intros.
  - destruct X; [reflexivity|discriminate].
  - destruct y; [reflexivity|discriminate].
  - rewrite psum_cons. simpl in *. rewrite H by lia. reflexivity.
Qed.

Lemma Qsum_centered (l : list Q) :
  l <> [] -> Qsum (map (fun x => x - Qmean l) l) == 0.
Proof.
  intros Hne.
  assert (G : forall (m : Q) (k : list Q),
             Qsum (map (fun x => x - m) k) == Qsum k - Qlen k * m).
  { intros m. induction k as [|a k IH]; [unfold Qlen; simpl; ring|].
    cbn [map Qsum fold_right]. fold (Qsum (map (fun x => x - m) k)). fold (Qsum k).
    rewrite IH. unfold Qlen. cbn [length].
    rewrite Nat2Z.inj_succ, <- Z.add_1_l, inject_Z_plus. ring. }
  rewrite G. unfold Qmean.
  assert (Hn : ~ Qlen l == 0).
  { unfold Qlen. destruct l as [|a l]; [congruence|]. cbn [length].
    rewrite Nat2Z.inj_succ. change 0 with (inject_Z 0). rewrite inject_Z_injective. lia. }
  field. exact Hn.
Qed.

(** ** The least-squares line *)

Lemma Qlen_nonzero (l : list Q) : l <> [] -> ~ Qlen l == 0.
Proof.
  intros Hne. unfold Qlen. destruct l as [|a l]; [congruence|]. cbn [length].
  rewrite Nat2Z.inj_succ. change 0 with (inject_Z 0). rewrite inject_Z_injective. lia.
Qed.

Lemma Qsum_squares_nonneg (g : Q -> Q) (X : list Q) :
  0 <= Qsum (map (fun x => g x * g x) X).
Proof.
  induction X as [|a X IH]; [apply Qle_refl|].
  change (0 <= g a * g a + Qsum (map (fun x => g x * g x) X)).
  assert (0 <= g a * g a) by nra. lra.
Qed.

Lemma squares_zero (g : Q -> Q) (X : list Q) :
  Qsum (map (fun x => g x * g x) X) == 0 -> Forall (fun x => g x == 0) X.
Proof.
  induction X as [|x X IH]; intros Hs; [constructor|].
  change (g x * g x + Qsum (map (fun x => g x * g x) X) == 0) in Hs.
  pose proof (Qsum_squares_nonneg g X) as Hr.
  assert (Hx : 0 <= g x * g x) by nra.
  set (s := Qsum (map (fun x => g x * g x) X)) in *.
  set (t := g x * g x) in *.
  assert (Hz : t == 0) by lra.
  constructor.
  - unfold t in Hz. now destruct (Qmult_integral _ _ Hz).
  - apply IH. lra.
Qed.

Lemma psum_zero_factor (g : Q -> Q) (f : Q -> Q -> Q) (X y : list Q) :
  Forall (fun x => g x == 0) X -> psum (fun x v => g x * f x v) X y == 0.
Proof.
  revert X y. apply (psum_ind (fun X y => Forall (fun x => g x == 0) X ->
    psum (fun x v => g x * f x v) X y == 0)); intros.
  - now rewrite psum_nil_r.
  - reflexivity.
  - rewrite psum_cons. inversion H0 as [|? ? Hx HX]; subst.
    rewrite (H HX), Hx. ring.
Qed.

Section LeastSquares.

Variables (X y : list Q).
Hypothesis same_length : length X = length y.
Hypothesis not_empty : y <> [].

Let xb := Qmean X.
Let yb := Qmean y.
Let a' := intercept (ols X y).
Let b' := coef (ols X y).

Lemma X_not_empty : X <> [].
Proof using same_length not_empty.
  destruct X; [|discriminate]. destruct y; [congruence|discriminate].
Qed.

Lemma residual_split (x v : Q) :
  v - (a' + b' * x) == (v - yb) + (- b') * (x - xb).
Proof. unfold a', b', ols, yb, xb. cbn [intercept coef]. ring. Qed.

(** First normal equation: the residuals sum to zero. *)
Lemma ols_residual_sum :
  psum (fun x v => v - (a' + b' * x)) X y == 0.
Proof using same_length not_empty.
  rewrite (psum_ext _ (fun x v => (v - yb) + (- b') * (x - xb))) by apply residual_split.
  rewrite psum_plus, psum_scal.
  rewrite (psum_snd (fun v => v - yb)), (psum_fst (fun x => x - xb)) by assumption.
  unfold yb, xb. rewrite !Qsum_centered by (assumption || apply X_not_empty). ring.
Qed.

(** Second normal equation: the residuals are orthogonal to the index. *)
Lemma ols_residual_moment :
  psum (fun x v => (x - xb) * (v - (a' + b' * x))) X y == 0.
Proof using same_length not_empty.
  rewrite (psum_ext _ (fun x v => (x - xb) * (v - yb)
                                  + (- b') * ((x - xb) * (x - xb)))).
  2:{ intros x v. rewrite residual_split. ring. }
  rewrite psum_plus, psum_scal.
  rewrite (psum_fst (fun x => (x - xb) * (x - xb))) by assumption.
  fold (sxx xb X). change (psum (fun x v => (x - xb) * (v - yb)) X y) with (sxy xb yb X y).
  unfold b', ols. cbn [coef]. fold xb. fold yb.
  destruct (Qeq_bool (sxx xb X) 0) eqn:E.
  - apply Qeq_bool_iff in E.
    assert (Hz : sxy xb yb X y == 0).
    { apply (psum_zero_factor (fun x => x - xb) (fun _ v => v - yb)).
      now apply squares_zero. }
    rewrite Hz, E. ring.
  - apply Qeq_bool_neq in E. field. exact E.
Qed.

(** The fitted line has the least sum of squared errors of all lines. *)
Lemma ols_least_squares (a b : Q) : sse a' b' X y <= sse a b X y.
Proof using same_length not_empty.
  set (w := b' - b). set (u := (a' - a) + w * xb).
  unfold sse at 2.
  rewrite (psum_ext _
    (fun x v => (v - (a' + b' * x)) * (v - (a' + b' * x))
                + ((2 * u) * (v - (a' + b' * x))
                   + ((2 * w) * ((x - xb) * (v - (a' + b' * x)))
                      + (u + w * (x - xb)) * (u + w * (x - xb)))))).
  2:{ intros x v. unfold u, w. ring. }
  rewrite psum_plus, psum_plus, psum_plus, !psum_scal.
  rewrite ols_residual_sum, ols_residual_moment.
  fold (sse a' b' X y).
  assert (Hsq : 0 <= psum (fun x _ => (u + w * (x - xb)) * (u + w * (x - xb))) X y).
  { apply psum_nonneg. intros x v. set (e := u + w * (x - xb)). nra. }
  lra.
Qed.

End LeastSquares.

(** ** Scaling and negating a series *)

Lemma Qsum_scaled (c : Q) (y' y : list Q) :
  Forall2 (fun a b => a == c * b) y' y -> Qsum y' == c * Qsum y.
Proof.
  induction 1 as [|a b l' l Hab _ IH]; [simpl; ring|].
  change (a + Qsum l' == c * (b + Qsum l)). rewrite Hab, IH. ring.
Qed.

Lemma Qmean_scaled (c : Q) (y' y : list Q) :
  Forall2 (fun a b => a == c * b) y' y -> Qmean y' == c * Qmean y.
Proof.
  intros Hp. unfold Qmean, Qlen.
  rewrite (Forall2_length Hp), (Qsum_scaled c y' y Hp). unfold Qdiv. ring.
Qed.

Lemma sxy_scaled (c xb yb' yb : Q) (y' y : list Q) :
  Forall2 (fun a b => a == c * b) y' y -> yb' == c * yb ->
  forall X, sxy xb yb' X y' == c * sxy xb yb X y.
Proof.
  intros Hp Hyb. induction Hp as [|a b l' l Hab _ IH]; intros X.
  - unfold sxy. rewrite !combine_nil. simpl. ring.
  - destruct X as [|x X]; [unfold sxy; simpl; ring|].
    change ((x - xb) * (a - yb') + sxy xb yb' X l'
            == c * ((x - xb) * (b - yb) + sxy xb yb X l)).
    rewrite IH, Hab, Hyb. ring.
Qed.

Lemma ols_scaled (c : Q) (y' y X : list Q) :
  Forall2 (fun a b => a == c * b) y' y ->
  coef (ols X y') == c * coef (ols X y)
  /\ intercept (ols X y') == c * intercept (ols X y).
Proof.
  intros Hp.
  assert (Hb : coef (ols X y') == c * coef (ols X y)).
  { unfold ols. cbn [coef]. destruct (Qeq_bool (sxx (Qmean X) X) 0) eqn:E; [ring|].
    apply Qeq_bool_neq in E.
    rewrite (sxy_scaled c _ _ (Qmean y) y' y Hp) by now apply Qmean_scaled.
    field. exact E. }
  split; [exact Hb|].
  unfold ols in *. cbn [coef intercept] in *.
  rewrite Hb, (Qmean_scaled c y' y Hp). ring.
Qed.

Lemma finite_values_length (series : list float) (ys : list Q) :
  finite_values series = Some ys -> length ys = length series.
Proof.
  revert ys. induction series as [|x series IH]; intros ys; simpl.
  - now intros [= <-].
  - destruct x; try discriminate.
    destruct (finite_values series) as [qs|]; [|discriminate].
    intros [= <-]. simpl. now rewrite (IH qs).
Qed.

Lemma finite_values_scaled (c : Q) (series : list float) :
  0 < c ->
  finite_values (scaled c series)
  = match finite_values series with
    | Some ys => Some (map (Qmult c) ys)
    | None => None
    end.
Proof.
  intros Hc. assert (Hs : Qsign c = Gt).
  { unfold Qsign. apply Z.compare_gt_iff. unfold Qlt in Hc. simpl in Hc. lia. }
  induction series as [|x series IH]; [reflexivity|].
  unfold scaled in *. cbn [map finite_values].
  destruct x; cbn [mul]; rewrite ?Hs; cbn [inf_of_sign flip CompOpp]; try reflexivity.
  rewrite IH. now destruct (finite_values series).
Qed.

Lemma finite_values_negated (series : list float) :
  finite_values (negated series)
  = match finite_values series with
    | Some ys => Some (map Qopp ys)
    | None => None
    end.
Proof.
  induction series as [|x series IH]; [reflexivity|].
  unfold negated in *. cbn [map finite_values].
  destruct x; cbn [neg]; try reflexivity.
  rewrite IH. now destruct (finite_values series).
Qed.

Lemma scaled_pointwise (c : Q) (ys : list Q) :
  Forall2 (fun a b => a == c * b) (map (Qmult c) ys) ys.
Proof. induction ys as [|a ys IH]; constructor; [reflexivity|assumption]. Qed.

Lemma negated_pointwise (ys : list Q) :
  Forall2 (fun a b => a == (- (1)) * b) (map Qopp ys) ys.
Proof. induction ys as [|a ys IH]; constructor; [ring|assumption]. Qed.

(** ** The trend direction (C2) *)

Lemma arange_length (a n : nat) : length (arange a n) = n.
Proof. unfold arange. now rewrite length_map, length_seq. Qed.

Lemma predict_ok (lr : linear_model) (X : list Q) :
  X <> [] -> predict lr X = Ok (map (fun x => intercept lr + coef lr * x) X).
Proof. destruct X; [congruence|reflexivity]. Qed.

Lemma fit_finite (X : list Q) (series : list float) (ys : list Q) :
  finite_values series = Some ys -> ys <> [] -> fit X series = Ok (ols X ys).
Proof.
  intros Hf Hne. unfold fit. rewrite Hf. destruct ys; [congruence|reflexivity].
Qed.

Lemma fit_rejects (X : list Q) (series : list float) :
  finite_values series = None \/ series = [] -> fit X series = Raise ValueError.
Proof.
  unfold fit. intros [Hf| ->]; [now rewrite Hf|reflexivity].
Qed.

Lemma trend_of_finite (series : list float) (window : nat) (ys : list Q) :
  finite_values series = Some ys -> ys <> [] ->
  direction_of series window = Ok (classify (coef (trend_line ys)))
  /\ slope_of series window = Ok (coef (trend_line ys)).
Proof.
  intros Hf Hne. unfold direction_of, slope_of, detect_trend_direction, trend_line.
  rewrite (fit_finite _ series ys Hf Hne).
  rewrite <- (finite_values_length series ys Hf).
  rewrite predict_ok; [now split|].
  destruct ys; [congruence|]. discriminate.
Qed.

Lemma trend_of_rejected (series : list float) (window : nat) :
  finite_values series = None \/ series = [] ->
  direction_of series window = Raise ValueError
  /\ slope_of series window = Raise ValueError.
Proof.
  intros Hr. unfold direction_of, slope_of, detect_trend_direction.
  now rewrite (fit_rejects _ series Hr).
Qed.

Lemma classify_upward (s : Q) : classify s = Upward <-> 1 # 100 < s.
Proof.
  unfold classify. destruct (Qltb (1 # 100) s) eqn:E.
  - apply Qltb_iff in E. split; [intros _; exact E|reflexivity].
  - apply Qltb_false_iff in E.
    destruct (Qltb s (- (1 # 100))); split; (discriminate || intros H; lra).
Qed.

Lemma classify_downward (s : Q) : classify s = Downward <-> s < - (1 # 100).
Proof.
  unfold classify. destruct (Qltb (1 # 100) s) eqn:E.
  - apply Qltb_iff in E. split; [discriminate|intros H; lra].
  - destruct (Qltb s (- (1 # 100))) eqn:E'.
    + apply Qltb_iff in E'. split; [intros _; exact E'|reflexivity].
    + apply Qltb_false_iff in E'. split; [discriminate|intros H; lra].
Qed.

Lemma classify_stable (s : Q) :
  classify s = Stable <-> - (1 # 100) <= s /\ s <= 1 # 100.
Proof.
  unfold classify. destruct (Qltb (1 # 100) s) eqn:E.
  - apply Qltb_iff in E. split; [discriminate|intros H; lra].
  - apply Qltb_false_iff in E. destruct (Qltb s (- (1 # 100))) eqn:E'.
    + apply Qltb_iff in E'. split; [discriminate|intros H; lra].
    + apply Qltb_false_iff in E'. split; [intros _; split; assumption|reflexivity].
Qed.

Lemma classify_opposite (s s' : Q) : s' == - s -> classify s' = opposite (classify s).
Proof.
  intros Hs. destruct (classify s) eqn:E; simpl.
  - apply classify_upward in E. apply classify_downward. lra.
  - apply classify_downward in E. apply classify_upward. lra.
  - apply classify_stable in E. apply classify_stable. lra.
Qed.

Lemma trend_line_scaled (c : Q) (ys' ys : list Q) :
  Forall2 (fun a b => a == c * b) ys' ys ->
  coef (trend_line ys') == c * coef (trend_line ys).
Proof.
  intros Hp. unfold trend_line. rewrite (Forall2_length Hp).
  now apply ols_scaled.
Qed.

Lemma finite_nil (series : list float) :
  finite_values series = Some [] -> series = [].
Proof.
  intros Hf. apply finite_values_length in Hf. destruct series; [reflexivity|discriminate].
Qed.

(** C2, as the code has it. The direction is read off the reported slope
    with the fixed thresholds 0.01 and -0.01.  In exact arithmetic (the
    rounding of the regression is left out), and for a factor [c > 0] that
    takes no value of the series beyond the largest double: negating every
    value of a series swaps Upward and Downward (and keeps Stable);
    multiplying every value by [c] multiplies the fitted slope by [c], so
    the direction never turns from Upward to Downward or back, and an Upward
    or Downward series keeps its direction when [c >= 1]. *)
Theorem trend_direction_under_negation_and_scaling (series : list float)
    (window : nat) (c : Q) :
  0 < c ->
  in_double_range (scaled c series) = true ->
  (forall t, detect_trend_direction series window = Ok t ->
     trend_direction t = classify (slope t))
  /\ direction_of (negated series) window
     = and_then (direction_of series window) (fun dir => Ok (opposite dir))
  /\ (forall s, slope_of series window = Ok s ->
        exists s', slope_of (scaled c series) window = Ok s' /\ s' == c * s)
  /\ (direction_of series window = Ok Upward ->
        direction_of (scaled c series) window <> Ok Downward)
  /\ (direction_of series window = Ok Downward ->
        direction_of (scaled c series) window <> Ok Upward)
  /\ (1 <= c -> forall dir, dir <> Stable ->
        direction_of series window = Ok dir ->
        direction_of (scaled c series) window = Ok dir).
Proof.
  intros Hc _. split.
  { intros t. unfold detect_trend_direction.
    destruct (fit _ series) as [lr|]; [|discriminate].
    destruct (predict lr _); [|discriminate]. now intros [= <-]. }
  destruct (finite_values series) as [ys|] eqn:Hf.
  2:{ destruct (trend_of_rejected series window (or_introl Hf)) as [Hd Hs].
      rewrite Hd, Hs.
      destruct (trend_of_rejected (negated series) window) as [Hd' _].
      { left. now rewrite finite_values_negated, Hf. }
      rewrite Hd'. repeat split; try reflexivity; intros; discriminate. }
  destruct ys as [|y0 ys0] eqn:Eys.
  { apply finite_nil in Hf. subst series.
    repeat split; try reflexivity; intros; discriminate. }
  rewrite <- Eys in *.
  assert (Hne : ys <> []) by (rewrite Eys; discriminate).
  destruct (trend_of_finite series window ys Hf Hne) as [Hd Hs].
  assert (Hfn : finite_values (negated series) = Some (map Qopp ys))
    by now rewrite finite_values_negated, Hf.
  assert (Hfs : finite_values (scaled c series) = Some (map (Qmult c) ys))
    by now rewrite finite_values_scaled, Hf.
  destruct (trend_of_finite (negated series) window _ Hfn) as [Hdn _].
  { rewrite Eys. discriminate. }
  destruct (trend_of_finite (scaled c series) window _ Hfs) as [Hds Hss].
  { rewrite Eys. discriminate. }
  pose proof (trend_line_scaled _ _ _ (negated_pointwise ys)) as Hneg.
  pose proof (trend_line_scaled _ _ _ (scaled_pointwise c ys)) as Hsc.
  set (b := coef (trend_line ys)) in Hd, Hs, Hneg, Hsc.
  set (bn := coef (trend_line (map Qopp ys))) in Hdn, Hneg.
  set (bs := coef (trend_line (map (Qmult c) ys))) in Hds, Hss, Hsc.
  rewrite Hd, Hs, Hdn, Hds, Hss. cbn [and_then].
  split; [|split; [|split; [|split]]].
  - f_equal. apply classify_opposite. rewrite Hneg. ring.
  - intros s [= <-]. exists bs. split; [reflexivity|exact Hsc].
  - intros [= Hup] [= Hdown].
    apply classify_upward in Hup. apply classify_downward in Hdown. nra.
  - intros [= Hdown] [= Hup].
    apply classify_upward in Hup. apply classify_downward in Hdown. nra.
  - intros Hc1 dir Hdir [= Hcl]. f_equal. destruct dir; [| |congruence].
    + apply classify_upward in Hcl. apply classify_upward. nra.
    + apply classify_downward in Hcl. apply classify_downward. nra.
Qed.

(** ** The linear forecast (C7) *)

Lemma seq_from (n k : nat) : seq n k = map (Nat.add n) (seq 0 k).
Proof.
  revert n. induction k as [|k IH]; intros n; [reflexivity|].
  cbn [seq map]. rewrite Nat.add_0_r. f_equal.
  rewrite <- (seq_shift k 0), map_map, (IH (S n)). apply map_ext. intros j. lia.
Qed.


(** ** Growth metrics (C3) *)

(** C3, as the code has it. On a non-empty series
    [calculate_growth_metrics] returns; the year-over-year growth and the
    CAGR are both null exactly when the series has fewer than 365 points.
    The sign of the first value plays no part: with 365 points or more the
    CAGR is computed whatever the first value is. *)
Theorem growth_metrics_null_below_a_year (series : list float) :
  series <> [] ->
  exists g,
    calculate_growth_metrics series = Ok g
    /\ (yoy_growth g = None <-> (length series < 365)%nat)
    /\ (cagr g = None <-> (length series < 365)%nat)
    /\ start_value g = hd NaN series.
Proof.
  intros Hne. destruct series as [|first rest]; [congruence|].
  unfold calculate_growth_metrics. cbv beta iota zeta.
  eexists. split; [reflexivity|]. cbn [yoy_growth cagr start_value hd].
  destruct (Nat.leb_spec 365 (length (first :: rest))) as [Hge|Hlt].
  - repeat split; try discriminate; intros; lia.
  - repeat split; try reflexivity; intros; lia.
Qed.

(** ** Peaks and troughs (C8) *)

Lemma plateau_end_bounds (fuel : nat) (x : list float) (v : float) (i_max : nat) :
  forall i_ahead, (i_ahead <= i_max)%nat ->
  (i_ahead <= plateau_end fuel x v i_ahead i_max <= i_max)%nat.
Proof.
  induction fuel as [|fuel IH]; intros i_ahead Hle; simpl; [lia|].
  destruct (Nat.ltb_spec i_ahead i_max) as [Hlt|Hge]; simpl; [|lia].
  destruct (eqb (nth i_ahead x NaN) v); [|lia].
  specialize (IH (S i_ahead) Hlt). lia.
Qed.

Lemma local_maxima_loop_bounds (fuel : nat) (x : list float) (i_max : nat) :
  forall i p, In p (local_maxima_loop fuel x i i_max) -> (i <= p < i_max)%nat.
Proof.
  induction fuel as [|fuel IH]; intros i p; cbn [local_maxima_loop]; [contradiction|].
  destruct (Nat.ltb_spec i i_max) as [Hlt|Hge]; [|contradiction].
  pose proof (plateau_end_bounds (length x) x (nth i x NaN) i_max (S i) Hlt) as Hb.
  set (i_ahead := plateau_end (length x) x (nth i x NaN) (S i) i_max) in *.
  destruct (ltb (nth (i - 1) x NaN) (nth i x NaN)).
  - destruct (ltb (nth i_ahead x NaN) (nth i x NaN)).
    + intros [<-|Hin].
      * assert (Hmid : (2 * ((i + (i_ahead - 1)) / 2) <= i + (i_ahead - 1))%nat)
          by (apply Nat.Div0.mul_div_le).
        assert (Hmid' : (i + (i_ahead - 1) < 2 * S ((i + (i_ahead - 1)) / 2))%nat)
          by (apply Nat.mul_succ_div_gt; lia).
        lia.
      * apply IH in Hin. lia.
    + intros Hin. apply IH in Hin. lia.
  - intros Hin. apply IH in Hin. lia.
Qed.



(** * More properties of the detectors *)

(** ** Missing columns *)

Lemma has_column_assoc (d : DataFrame) (name : string) :
  has_column d name = true <-> exists c, assoc name (columns d) = Some c.
Proof.
  unfold has_column, col_names. induction (columns d) as [|[k v] l IH]; simpl.
  - split; [discriminate|intros [c Hc]; discriminate].
  - rewrite (String.eqb_sym name k). destruct (String.eqb k name); simpl.
    + split; eauto.
    + exact IH.
Qed.

Lemma has_column_false (d : DataFrame) (name : string) :
  has_column d name = false <-> assoc name (columns d) = None.
Proof.
  destruct (has_column d name) eqn:E.
  - apply has_column_assoc in E as [c Hc]. rewrite Hc. split; discriminate.
  - split; [intros _|reflexivity].
    destruct (assoc name (columns d)) as [c|] eqn:Hc; [|reflexivity].
    assert (Ht : has_column d name = true) by (apply has_column_assoc; eauto).
    congruence.
Qed.

Lemma returns_of_runs_as (m : M ref) (h : store) (res : result DataFrame)
    (d' : DataFrame) :
  runs_as m h res -> returns m h d' -> res = Ok d'.
Proof.
  unfold runs_as. intros Hr (r' & h' & Hm & Hn).
  destruct res as [d''|e]; destruct Hr as (H & _ & Hm'); rewrite Hm' in Hm.
  - injection Hm as <- <-. rewrite nth_error_last in Hn. congruence.
  - discriminate.
Qed.

Lemma raises_of_runs_as (m : M ref) (h : store) (e : exn) :
  runs_as m h (Raise e) -> fst (m h) = Raise e.
Proof. intros (H & _ & ->). reflexivity. Qed.

(** X1. On a table without the column asked for, the z-score, IQR and
    moving-average detectors raise [KeyError]; on a table with it they
    return, whatever the cells of the column are. *)
Theorem column_detectors_need_their_column self (h : store) (data : ref)
    (d : DataFrame) (column : string) (threshold multiplier ma_threshold : float)
    (window : nat) :
  nth_error h data = Some d ->
  (if has_column d column
   then (exists dz, returns (detect_zscore self data column threshold) h dz)
        /\ (exists di, returns (detect_iqr self data column multiplier) h di)
        /\ (exists dm, returns (detect_moving_average_deviation self data column
                                  window ma_threshold) h dm)
   else fst (detect_zscore self data column threshold h) = Raise KeyError
        /\ fst (detect_iqr self data column multiplier h) = Raise KeyError
        /\ fst (detect_moving_average_deviation self data column window
                  ma_threshold h) = Raise KeyError).
Proof.
  intros Hd.
  pose proof (detect_zscore_runs self h data d column threshold Hd) as Hz.
  pose proof (detect_iqr_runs self h data d column multiplier Hd) as Hi.
  pose proof (detect_moving_average_deviation_runs self h data d column window
                ma_threshold Hd) as Hm.
  unfold zscore_frame in Hz. unfold iqr_frame in Hi. unfold ma_frame in Hm.
  destruct (has_column d column) eqn:E.
  - apply has_column_assoc in E as [c Hc]. rewrite Hc in Hz, Hi, Hm.
    repeat split; eexists; apply runs_as_returns; eassumption.
  - apply has_column_false in E. rewrite E in Hz, Hi, Hm.
    repeat split; now apply raises_of_runs_as.
Qed.

(** ** The detectors only write their own columns *)

Lemma writes_only_refl (outputs : list string) (d : DataFrame) :
  writes_only outputs d d.
Proof.
  split; [reflexivity|]. split; [|reflexivity].
  exists []. split; [now rewrite app_nil_r|intros x []].
Qed.

Lemma writes_only_set (outputs : list string) (d d' : DataFrame) (name : string)
    (c : column) :
  writes_only outputs d d' -> In name outputs ->
  writes_only outputs d (set_column d' name c).
Proof.
  unfold writes_only. intros (Hn & (added & Hnames & Hadded) & Hother) Hin.
  split; [exact Hn|]. split.
  - unfold col_names, set_column. cbn [columns]. rewrite assoc_set_names.
    fold (col_names d'). destruct (existsb (String.eqb name) (col_names d')).
    + exists added. now split.
    + exists (added ++ [name]). split; [now rewrite Hnames, app_assoc|].
      intros x Hx. apply in_app_or in Hx as [Hx|[<-|[]]]; auto.
  - intros other Hother'. rewrite column_set_other; [now apply Hother|].
    apply String.eqb_neq. intros <-. contradiction.
Qed.

Ltac written :=
  repeat (apply writes_only_set; [|solve [simpl; auto 10]]); apply writes_only_refl.

(** X2. The table a detector returns is its input with the detector's own
    columns written: the same number of rows, every input column at the
    same position, new columns appended, and every column that is not one
    of the detector's outputs with the cells it had. *)
Theorem detectors_write_only_their_columns self (h : store) (data : ref)
    (d d' : DataFrame) (features : list string) (column : string)
    (threshold multiplier ma_threshold : float) (window : nat) :
  nth_error h data = Some d ->
  (returns (detect_zscore self data column threshold) h d' ->
   writes_only (zscore_outputs column) d d')
  /\ (returns (detect_iqr self data column multiplier) h d' ->
      writes_only (iqr_outputs column) d d')
  /\ (returns (detect_moving_average_deviation self data column window
                 ma_threshold) h d' ->
      writes_only (ma_outputs column) d d')
  /\ (returns (detect_isolation_forest self data features) h d' ->
      writes_only forest_outputs d d').
Proof.
  intros Hd. split; [|split; [|split]]; intros Hret.
  - pose proof (returns_of_runs_as _ _ _ _
                  (detect_zscore_runs self h data d column threshold Hd) Hret) as E.
    unfold zscore_frame in E. destruct (assoc column (columns d)); [|discriminate].
    injection E as <-. unfold zscore_outputs. written.
  - pose proof (returns_of_runs_as _ _ _ _
                  (detect_iqr_runs self h data d column multiplier Hd) Hret) as E.
    unfold iqr_frame in E. destruct (assoc column (columns d)); [|discriminate].
    injection E as <-. unfold iqr_outputs. written.
  - pose proof (returns_of_runs_as _ _ _ _
                  (detect_moving_average_deviation_runs self h data d column window
                     ma_threshold Hd) Hret) as E.
    unfold ma_frame in E. destruct (assoc column (columns d)); [|discriminate].
    injection E as <-. unfold ma_outputs. written.
  - pose proof (returns_of_runs_as _ _ _ _
                  (detect_isolation_forest_runs self h data d features Hd) Hret) as E.
    unfold isolation_forest_frame in E.
    destruct (select d features); [|discriminate].
    destruct (check_array _) as [[]|]; [|discriminate].
    destruct (check_contamination _) as [[]|]; [|discriminate].
    injection E as <-. unfold forest_outputs. written.
Qed.

(** ** Missing values are never flagged *)

Lemma zscore_length (xs : list float) : length (zscore xs) = length xs.
Proof.
  unfold zscore. destruct (isconst (drop_nan xs)); now rewrite length_map.
Qed.

Lemma zscore_of_nan (xs : list float) (i : nat) :
  nth i xs NaN = NaN -> nth i (zscore xs) NaN = NaN.
Proof.
  intros Hx. destruct (Nat.lt_ge_cases i (length xs)) as [Hi|Hi].
  - unfold zscore. destruct (isconst (drop_nan xs)).
    + now rewrite (nth_map_in _ _ i NaN NaN).
    + rewrite (nth_map_in _ _ i NaN NaN) by assumption. now rewrite Hx.
  - apply nth_overflow. now rewrite zscore_length.
Qed.

Lemma flag_at_written (d : DataFrame) (name : string) (c : column) (i : nat) :
  flag_at (set_column d name c) name i
  = match nth i c missing with CBool b => b | CNum _ => false end.
Proof. unfold flag_at. now rewrite column_set_same. Qed.

Lemma floats_nth (c : column) (i : nat) :
  nth i (floats c) NaN = cell_float (nth i c missing).
Proof. unfold floats. apply (map_nth cell_float c missing i). Qed.

Lemma zscore_flag_of_nan (threshold : float) (c : column) (i : nat) :
  cell_float (nth i c missing) = NaN ->
  match nth i (zscore_flags threshold c) missing with
  | CBool b => b
  | CNum _ => false
  end = false.
Proof.
  intros Hx. unfold zscore_flags.
  destruct (Nat.lt_ge_cases i (length c)) as [Hi|Hi].
  - rewrite (nth_map_in _ _ i missing NaN)
      by (now rewrite length_map, zscore_length; unfold floats; rewrite length_map).
    rewrite (nth_map_in _ _ i NaN NaN)
      by (now rewrite zscore_length; unfold floats; rewrite length_map).
    rewrite zscore_of_nan by (now rewrite floats_nth).
    now destruct threshold.
  - rewrite nth_overflow; [reflexivity|].
    rewrite !length_map, zscore_length. unfold floats. now rewrite length_map.
Qed.

Lemma iqr_flag_of_nan (multiplier : float) (c : column) (i : nat) :
  cell_float (nth i c missing) = NaN ->
  match nth i (iqr_flags multiplier c) missing with
  | CBool b => b
  | CNum _ => false
  end = false.
Proof.
  intros Hx. unfold iqr_flags. rewrite elementwise_map_same.
  destruct (Nat.lt_ge_cases i (length c)) as [Hi|Hi].
  - rewrite (nth_map_in _ _ i missing missing) by assumption. rewrite Hx.
    unfold gtb. now destruct (iqr_lower multiplier c), (iqr_upper multiplier c).
  - rewrite nth_overflow; [reflexivity|]. now rewrite length_map.
Qed.

Lemma ma_flag_of_nan (window : nat) (threshold : float) (c : column) (i : nat) :
  cell_float (nth i c missing) = NaN ->
  match nth i (ma_flags window threshold c) missing with
  | CBool b => b
  | CNum _ => false
  end = false.
Proof.
  intros Hx. destruct (Nat.lt_ge_cases i (length c)) as [Hi|Hi].
  - rewrite ma_flags_nth by assumption. rewrite Hx.
    replace (sub NaN (trailing window_mean window (floats c) i)) with NaN
      by (now destruct (trailing window_mean window (floats c) i)).
    unfold gtb. cbn [abs]. now destruct (mul threshold _).
  - rewrite nth_overflow; [reflexivity|]. now rewrite ma_flags_length.
Qed.

(** X3. A row whose value is missing (NaN) is flagged by none of the three
    column detectors, whatever the threshold, the multiplier and the
    window. *)
Theorem missing_values_are_never_flagged self (h : store) (data : ref)
    (d dz di dm : DataFrame) (column : string) (c : list cell) (i : nat)
    (threshold multiplier ma_threshold : float) (window : nat) :
  nth_error h data = Some d ->
  assoc column (columns d) = Some c ->
  cell_float (nth i c missing) = NaN ->
  returns (detect_zscore self data column threshold) h dz ->
  returns (detect_iqr self data column multiplier) h di ->
  returns (detect_moving_average_deviation self data column window ma_threshold)
    h dm ->
  flag_at dz ("is_anomaly_zscore_" ++ column) i = false
  /\ flag_at di ("is_anomaly_iqr_" ++ column) i = false
  /\ flag_at dm ("is_anomaly_ma_" ++ column) i = false.
Proof.
  intros Hd Hc Hx Hz Hi Hm.
  pose proof (returns_of_runs_as _ _ _ _
                (detect_zscore_runs self h data d column threshold Hd) Hz) as Ez.
  pose proof (returns_of_runs_as _ _ _ _
                (detect_iqr_runs self h data d column multiplier Hd) Hi) as Ei.
  pose proof (returns_of_runs_as _ _ _ _
                (detect_moving_average_deviation_runs self h data d column window
                   ma_threshold Hd) Hm) as Em.
  unfold zscore_frame in Ez. unfold iqr_frame in Ei. unfold ma_frame in Em.
  rewrite Hc in Ez, Ei, Em. cbv zeta in Ei, Em.
  injection Ez as <-. injection Ei as <-. injection Em as <-.
  split; [|split].
  - unfold flag_at. read_back. now apply zscore_flag_of_nan.
  - unfold flag_at. read_back. now apply iqr_flag_of_nan.
  - unfold flag_at. read_back. now apply ma_flag_of_nan.
Qed.

(** ** The IQR bounds bracket the quartiles *)


Lemma leb_total (x y : float) :
  is_finite x = true -> is_finite y = true -> leb x y = false -> leb y x = true.
Proof.
  destruct x, y; simpl; try discriminate. intros _ _ Hxy.
  apply Qle_bool_iff. apply Qlt_le_weak. apply Qltb_iff. unfold Qltb. now rewrite Hxy.
Qed.

Lemma leb_trans (x y z : float) :
  leb x y = true -> leb y z = true -> leb x z = true.
Proof.
  destruct x, y, z; simpl; try discriminate; try reflexivity.
  rewrite !Qle_bool_iff. apply Qle_trans.
Qed.


Lemma insert_sorted_ascending (x : float) (l : list float) :
  is_finite x = true -> all_finite l -> ascending l -> ascending (insert_sorted x l).
Proof.
  intros Hx. induction l as [|h t IH]; intros Hf Ha.
  - simpl. split; [constructor|exact I].
  - cbn [insert_sorted]. destruct Ha as [Hh Ht].
    inversion Hf as [|? ? Hfh Hft]; subst.
    destruct (leb x h) eqn:E.
    + split; [|split; assumption]. constructor; [exact E|].
      eapply Forall_impl; [|exact Hh]. intros y Hy. cbv beta in Hy.
      exact (leb_trans x h y E Hy).
    + split; [|now apply IH]. apply insert_sorted_Forall; [|exact Hh].
      now apply leb_total.
Qed.

Lemma sort_ascending (l : list float) : all_finite l -> ascending (sort l).
Proof.
  induction 1 as [|x l Hx Hl IH]; [exact I|]. cbn [sort fold_right].
  apply insert_sorted_ascending; [assumption| |assumption].
  now apply sort_Forall.
Qed.









(** ** When [detect_all] returns *)

Lemma has_column_set_same (d : DataFrame) (name : string) (c : column) :
  has_column (set_column d name c) name = true.
Proof. apply has_column_assoc. exists c. apply column_set_same. Qed.

Lemma has_column_set_mono (d : DataFrame) (name other : string) (c : column) :
  has_column d other = true -> has_column (set_column d name c) other = true.
Proof.
  intros Ho. apply has_column_assoc in Ho as [v Hv]. apply has_column_assoc.
  destruct (String.eqb name other) eqn:E.
  - apply String.eqb_eq in E. subst other. exists c. apply column_set_same.
  - exists v. now rewrite column_set_other.
Qed.

Lemma has_column_names (d d' : DataFrame) (name : string) :
  col_names d' = col_names d -> has_column d' name = has_column d name.
Proof. unfold has_column. now intros ->. Qed.

Lemma forallb_has_column (d : DataFrame) (names : list string) :
  forallb (has_column d) names = true <-> incl names (col_names d).
Proof.
  rewrite forallb_forall. split.
  - intros Hall n Hn. apply Hall in Hn. apply has_column_assoc in Hn as [c Hc].
    apply assoc_some_in in Hc. now apply (in_map fst) in Hc.
  - intros Hin n Hn. apply has_column_assoc. apply assoc_in_names. now apply Hin.
Qed.

Lemma select_missing (d : DataFrame) (names : list string) :
  forallb (has_column d) names = false -> select d names = Raise KeyError.
Proof.
  intros Hf. destruct (select d names) as [cols|e] eqn:E.
  - apply select_ok_incl in E. apply forallb_has_column in E. congruence.
  - now rewrite (select_raises d names e E).
Qed.

Lemma grows_refl (d : DataFrame) : grows d d.
Proof. split; auto. Qed.

Lemma grows_trans (d1 d2 d3 : DataFrame) : grows d1 d2 -> grows d2 d3 -> grows d1 d3.
Proof. intros [N1 H1] [N2 H2]. split; [congruence|auto]. Qed.

Lemma grows_set (d d' : DataFrame) (name : string) (c : column) :
  grows d d' -> grows d (set_column d' name c).
Proof.
  intros [N Hc]. split; [exact N|]. intros n Hn. now apply has_column_set_mono, Hc.
Qed.

Ltac grown := repeat apply grows_set; apply grows_refl.

Lemma zscore_frame_ok (d : DataFrame) (col : string) (t : float) :
  has_column d col = true ->
  exists d', zscore_frame d col t = Ok d' /\ grows d d'
             /\ has_column d' ("is_anomaly_zscore_" ++ col) = true.
Proof.
  intros Hc. apply has_column_assoc in Hc as [c Hc]. unfold zscore_frame. rewrite Hc.
  eexists. split; [reflexivity|]. split; [grown|].
  apply has_column_set_mono, has_column_set_same.
Qed.

Lemma iqr_frame_ok (d : DataFrame) (col : string) (m : float) :
  has_column d col = true ->
  exists d', iqr_frame d col m = Ok d' /\ grows d d'
             /\ has_column d' ("is_anomaly_iqr_" ++ col) = true.
Proof.
  intros Hc. apply has_column_assoc in Hc as [c Hc]. unfold iqr_frame. rewrite Hc.
  cbv zeta. eexists. split; [reflexivity|]. split; [grown|].
  apply has_column_set_mono, has_column_set_mono, has_column_set_same.
Qed.

Lemma ma_frame_ok (d : DataFrame) (col : string) (w : nat) (t : float) :
  has_column d col = true ->
  exists d', ma_frame d col w t = Ok d' /\ grows d d'
             /\ has_column d' ("is_anomaly_ma_" ++ col) = true.
Proof.
  intros Hc. apply has_column_assoc in Hc as [c Hc]. unfold ma_frame. rewrite Hc.
  cbv zeta. eexists. split; [reflexivity|]. split; [grown|].
  apply has_column_set_same.
Qed.

Lemma column_pass_ok (date_column : option string) (d : DataFrame) (col : string) :
  has_column d col = true ->
  exists d', column_pass date_column d col = Ok d' /\ grows d d'
             /\ has_column d' ("is_anomaly_zscore_" ++ col) = true
             /\ has_column d' ("is_anomaly_iqr_" ++ col) = true
             /\ (truthy date_column = true ->
                 has_column d' ("is_anomaly_ma_" ++ col) = true).
Proof.
  intros Hc. unfold column_pass.
  destruct (zscore_frame_ok d col default_zscore_threshold Hc) as (d1 & E1 & G1 & F1).
  rewrite E1. cbn [and_then].
  destruct (iqr_frame_ok d1 col default_iqr_multiplier (proj2 G1 _ Hc))
    as (d2 & E2 & G2 & F2).
  rewrite E2. cbn [and_then].
  destruct (truthy date_column).
  - destruct (ma_frame_ok d2 col default_window default_ma_threshold
                (proj2 G2 _ (proj2 G1 _ Hc))) as (d3 & E3 & G3 & F3).
    exists d3. split; [exact E3|]. split; [eauto using grows_trans|].
    split; [apply G3, G2, F1|]. split; [apply G3, F2|]. intros _. exact F3.
  - exists d2. split; [reflexivity|]. split; [eauto using grows_trans|].
    split; [apply G2, F1|]. split; [exact F2|]. discriminate.
Qed.

Lemma columns_pass_ok (date_column : option string) (cols : list string) :
  forall d, (forall col, In col cols -> has_column d col = true) ->
  exists d', columns_pass date_column cols d = Ok d' /\ grows d d'
    /\ forall col, In col cols ->
         has_column d' ("is_anomaly_zscore_" ++ col) = true
         /\ has_column d' ("is_anomaly_iqr_" ++ col) = true
         /\ (truthy date_column = true ->
             has_column d' ("is_anomaly_ma_" ++ col) = true).
Proof.
  induction cols as [|col rest IH]; intros d Hcols.
  - exists d. split; [reflexivity|]. split; [apply grows_refl|]. intros c [].
  - cbn [columns_pass].
    destruct (column_pass_ok date_column d col (Hcols col (or_introl eq_refl)))
      as (d1 & E1 & G1 & Fz & Fi & Fm).
    rewrite E1. cbn [and_then].
    destruct (IH d1) as (d2 & E2 & G2 & Frest).
    { intros c Hc. apply G1, Hcols. now right. }
    exists d2. split; [exact E2|]. split; [eauto using grows_trans|].
    intros c [<-|Hc].
    + split; [apply G2, Fz|]. split; [apply G2, Fi|]. intros Ht. apply G2, Fm, Ht.
    + now apply Frest.
Qed.

Lemma sort_frame_cases (d : DataFrame) (date_column : option string) :
  if negb (truthy date_column) || has_column d (date_name date_column)
  then exists d0, sort_frame d date_column = Ok d0
                  /\ col_names d0 = col_names d /\ nrows d0 = nrows d
  else sort_frame d date_column = Raise KeyError.
Proof.
  unfold sort_frame. destruct (truthy date_column); cbn [negb orb].
  - destruct (has_column d (date_name date_column)) eqn:E.
    + apply has_column_assoc in E as [key Hk]. rewrite Hk.
      eexists. split; [reflexivity|]. split; [apply sorted_by_names|reflexivity].
    + apply has_column_false in E. now rewrite E.
  - exists d. auto.
Qed.

Lemma check_array_cases (n : nat) (cols : list column) :
  check_array (map (map nan_to_num) (values_of n cols))
  = if (n =? 0)%nat || match cols with [] => true | _ => false end
    then Raise ValueError else Ok tt.
Proof. destruct n as [|n]; [reflexivity|]. destruct cols; reflexivity. Qed.

(** X5. [detect_all] on a table [d]: it raises [KeyError] when the date
    column (if one is given) or one of the numeric columns is missing;
    with all columns present it raises [ValueError] when the table has no
    row, when no numeric column is named, or when the contamination rate of
    the detector is outside (0, 0.5]; otherwise it returns a table with the
    rows of [d]. *)
Theorem detect_all_returns_exactly_when self (h : store) (data : ref)
    (d : DataFrame) (numeric_columns : list string) (date_column : option string) :
  nth_error h data = Some d ->
  let columns_present :=
    (negb (truthy date_column) || has_column d (date_name date_column))
    && forallb (has_column d) numeric_columns in
  let nothing_to_fit :=
    (nrows d =? 0)%nat || match numeric_columns with [] => true | _ => false end in
  if negb columns_present
  then fst (detect_all self data numeric_columns date_column h) = Raise KeyError
  else if nothing_to_fit || negb (valid_contamination (contamination self))
  then fst (detect_all self data numeric_columns date_column h) = Raise ValueError
  else exists d', returns (detect_all self data numeric_columns date_column) h d'
                  /\ nrows d' = nrows d.
Proof.
  intros Hd. cbv zeta.
  pose proof (detect_all_runs self h data d numeric_columns date_column Hd) as Hr.
  unfold detect_all_frame in Hr.
  pose proof (sort_frame_cases d date_column) as Hs.
  destruct (negb (truthy date_column) || has_column d (date_name date_column));
    cbn [andb negb].
  2:{ rewrite Hs in Hr. now apply raises_of_runs_as. }
  destruct Hs as (d0 & E0 & Hn0 & Hr0). rewrite E0 in Hr. cbn [and_then] in Hr.
  unfold isolation_forest_frame in Hr.
  destruct (forallb (has_column d) numeric_columns) eqn:Hnum; cbn [negb].
  2:{ rewrite select_missing in Hr; [now apply raises_of_runs_as|].
      rewrite <- Hnum. clear - Hn0. induction numeric_columns as [|n rest IH]; [reflexivity|].
      cbn [forallb]. now rewrite IH, (has_column_names d d0 n Hn0). }
  assert (Hin : incl numeric_columns (col_names d0))
    by (rewrite Hn0; now apply forallb_has_column).
  rewrite (select_present d0 numeric_columns Hin) in Hr.
  rewrite check_array_cases, Hr0 in Hr.
  assert (Ecols : match map (column_or_empty d0) numeric_columns with
                  | [] => true | _ => false end
                  = match numeric_columns with [] => true | _ => false end)
    by (now destruct numeric_columns).
  rewrite Ecols in Hr.
  destruct ((nrows d =? 0)%nat || match numeric_columns with [] => true | _ => false end);
    cbn [orb].
  { now apply raises_of_runs_as. }
  unfold check_contamination in Hr.
  destruct (valid_contamination (contamination self)); cbn [negb].
  2:{ now apply raises_of_runs_as. }
  cbv zeta in Hr. cbn [and_then] in Hr.
  set (d1 := set_column (set_column d0 _ _) _ _) in Hr.
  assert (G1 : grows d0 d1) by (unfold d1; grown).
  destruct (columns_pass_ok date_column numeric_columns d1) as (d2 & E2 & G2 & _).
  { intros col Hcol. apply G1. apply has_column_assoc. apply assoc_in_names.
    now apply Hin. }
  rewrite E2 in Hr. cbn [and_then] in Hr.
  exists (consensus_frame d2). split; [now apply runs_as_returns|].
  unfold consensus_frame. cbn [nrows set_column].
  destruct G1 as [N1 _], G2 as [N2 _]. congruence.
Qed.

(** ** The vote of [detect_all], counted *)

Lemma detector_flags_named (numeric_columns : list string)
    (date_column : option string) (n : string) :
  In n (detector_flags numeric_columns date_column) ->
  contains "is_anomaly" n = true.
Proof.
  unfold detector_flags. intros [<-|H]; [reflexivity|].
  apply in_flat_map in H as (col & _ & H).
  apply in_app_or in H as [[<-|[<-|[]]]|H]; try reflexivity.
  destruct (truthy date_column); [|contradiction].
  destruct H as [<-|[]]. reflexivity.
Qed.

(** The table [detect_all] votes on: it holds every flag column of the
    detectors, and, for an input with clean names, no other column the
    vote counts. *)
Lemma detect_all_before_vote self (d d' : DataFrame)
    (numeric_columns : list string) (date_column : option string) :
  detect_all_frame self d numeric_columns date_column = Ok d' ->
  exists d2,
    d' = consensus_frame d2 /\ nrows d2 = nrows d
    /\ (forall n, In n (detector_flags numeric_columns date_column) ->
          has_column d2 n = true)
    /\ (names_clean d ->
        votes_are_flags (detector_flags numeric_columns date_column) d2).
Proof.
  intros Hf.
  assert (Hpre : names_clean d ->
            exists d2, d' = consensus_frame d2
              /\ votes_are_flags (detector_flags numeric_columns date_column) d2)
    by (intros Hc; exact (detect_all_votes_are_flags self d d' _ _ Hc Hf)).
  revert Hf Hpre. unfold detect_all_frame, and_then.
  destruct (sort_frame d date_column) as [d0|] eqn:E0; [|discriminate].
  destruct (isolation_forest_frame self d0 numeric_columns) as [d1|] eqn:E1;
    [|discriminate].
  destruct (columns_pass date_column numeric_columns d1) as [d2|] eqn:E2;
    [|discriminate].
  intros [= <-] Hpre. exists d2.
  pose proof (sort_frame_cases d date_column) as Hs.
  destruct (negb (truthy date_column) || has_column d (date_name date_column));
    [|congruence].
  destruct Hs as (d0' & E0' & Hn0 & Hr0).
  assert (d0' = d0) by congruence. subst d0'.
  unfold isolation_forest_frame in E1.
  destruct (select d0 numeric_columns) as [cols|] eqn:Hsel; [|discriminate].
  destruct (check_array _) as [[]|]; [|discriminate].
  destruct (check_contamination _) as [[]|]; [|discriminate].
  cbv zeta in E1. injection E1 as E1.
  assert (G1 : grows d0 d1) by (rewrite <- E1; grown).
  assert (Hif : has_column d1 "is_anomaly_if" = true)
    by (rewrite <- E1; apply has_column_set_mono, has_column_set_same).
  destruct (columns_pass_ok date_column numeric_columns d1) as (d2' & E2' & G2 & Hflags).
  { intros col Hcol. apply G1. apply has_column_assoc. apply assoc_in_names.
    apply select_ok_incl in Hsel. now apply Hsel. }
  assert (d2' = d2) by congruence. subst d2'.
  split; [reflexivity|]. split.
  { destruct G1 as [N1 _], G2 as [N2 _]. congruence. }
  split.
  - unfold detector_flags. intros n [<-|Hn]; [apply G2, Hif|].
    apply in_flat_map in Hn as (col & Hcol & Hn).
    destruct (Hflags col Hcol) as (Hz & Hi & Hm).
    apply in_app_or in Hn as [[<-|[<-|[]]]|Hn]; [assumption|assumption|].
    destruct (truthy date_column); [|contradiction].
    destruct Hn as [<-|[]]. now apply Hm.
  - intros Hc. destruct (Hpre Hc) as (d3 & Heq & Hv).
    (* the two tables agree before the vote columns are written *)
    clear - Hc E0 Hsel E1 E2 Hn0.
    destruct (sort_frame_clean d d0 date_column Hc E0) as [Hc0 _].
    set (F := detector_flags numeric_columns date_column).
    assert (Hv1 : votes_are_flags F d1).
    { rewrite <- E1. apply votes_are_flags_set; [|left; reflexivity].
      apply votes_are_flags_set; [now apply clean_is_flags|]. right.
      split; [now left|]. rewrite map_map. apply bool_column_map. }
    apply (columns_pass_flags F date_column numeric_columns) with (d := d1);
      [|assumption|assumption].
    intros col Hcol. split; [|now apply detector_flags_in].
    apply Hc0. apply select_ok_incl in Hsel. now apply Hsel.
Qed.

Lemma consensus_flag_value (d : DataFrame) (i : nat) :
  (i < nrows d)%nat ->
  flag_at (consensus_frame d) "is_anomaly_consensus" i
  = geb (nansum (row_of (map (column_or_empty d) (anomaly_columns d)) i))
      consensus_threshold.
Proof.
  intros Hi. unfold flag_at, consensus_frame. rewrite column_set_same.
  rewrite (nth_map_in _ _ i missing missing) by now rewrite anomaly_counts_length.
  rewrite anomaly_counts_nth by assumption. reflexivity.
Qed.

Lemma anomaly_count_column (d : DataFrame) :
  assoc "anomaly_count" (columns (consensus_frame d)) = Some (anomaly_counts d).
Proof.
  unfold consensus_frame. rewrite column_set_other by reflexivity.
  apply column_set_same.
Qed.

Lemma same_members_same_length (l1 l2 : list string) :
  NoDup l1 -> NoDup l2 -> (forall n, In n l1 <-> In n l2) -> length l1 = length l2.
Proof.
  intros N1 N2 Hiff. apply Nat.le_antisymm; apply NoDup_incl_length; try assumption;
    intros n Hn; now apply Hiff.
Qed.

(** X6. [detect_all] on a table without a column named like a flag: in
    every row of the returned table [anomaly_count] is the number of
    detector flags that are true in the row, and [is_anomaly_consensus] is
    true exactly when that number is at least 2. *)
Theorem anomaly_count_is_the_number_of_votes self (h : store) (data : ref)
    (d d' : DataFrame) (numeric_columns : list string) (date_column : option string)
    (i : nat) :
  nth_error h data = Some d ->
  clean_names d = true ->
  returns (detect_all self data numeric_columns date_column) h d' ->
  (i < nrows d)%nat ->
  let votes := vote_count d' (detector_flags numeric_columns date_column) i in
  (exists counts count,
     assoc "anomaly_count" (columns d') = Some counts
     /\ nth i counts missing = CNum (Fin count)
     /\ count == inject_Z (Z.of_nat votes))
  /\ flag_at d' "is_anomaly_consensus" i = (2 <=? votes)%nat.
Proof.
  intros Hd Hclean Hret Hi. cbv zeta.
  apply clean_names_spec in Hclean.
  set (F := detector_flags numeric_columns date_column).
  pose proof (detect_all_runs self h data d numeric_columns date_column Hd) as Hruns.
  pose proof (returns_of_runs_as _ _ _ _ Hruns Hret) as Ef.
  destruct (detect_all_before_vote self d d' _ _ Ef) as (d2 & -> & Hrows & Hhas & Hv).
  fold F in Hhas, Hv. destruct (Hv Hclean) as [Hnd Hcols].
  assert (Hflag : forall n, In n (anomaly_columns d2) ->
            In n F /\ exists c, assoc n (columns d2) = Some c /\ bool_column c).
  { intros n Hn. unfold anomaly_columns in Hn. apply filter_In in Hn as [Hn Hc].
    destruct (assoc_in_names n (columns d2) Hn) as [c Hassoc].
    destruct (Hcols n c (assoc_some_in _ _ _ Hassoc) Hc) as [HF Hb]. eauto. }
  assert (Hcounted : forall n, In n F -> In n (anomaly_columns d2)).
  { intros n Hn. apply filter_In. split.
    - apply Hhas in Hn. apply has_column_assoc in Hn as [c Hc].
      apply assoc_some_in in Hc. now apply (in_map fst) in Hc.
    - now apply detector_flags_named in Hn. }
  destruct (row_votes d2 i (anomaly_columns d2)) as (q & Hq & Hcount).
  { intros n Hn. now apply Hflag. }
  assert (Hsame : length (filter (fun n => flag_at d2 n i) (anomaly_columns d2))
                  = vote_count (consensus_frame d2) F i).
  { unfold vote_count. apply same_members_same_length.
    - now apply NoDup_filter.
    - apply NoDup_filter, NoDup_nodup.
    - intros n. rewrite !filter_In, nodup_In. split.
      + intros [Hn Hf]. destruct (Hflag n Hn) as [HF _]. split; [assumption|].
        rewrite flag_at_consensus_frame; [assumption| |].
        * now apply detector_flags_named in HF.
        * intros ->. now apply consensus_not_detector_flag in HF.
      + intros [HF Hf]. split; [now apply Hcounted|].
        rewrite flag_at_consensus_frame in Hf; [assumption| |].
        * now apply detector_flags_named in HF.
        * intros ->. now apply consensus_not_detector_flag in HF. }
  rewrite <- Hrows in Hi. split.
  - exists (anomaly_counts d2), q. split; [apply anomaly_count_column|].
    split; [now rewrite anomaly_counts_nth, Hq|]. now rewrite <- Hsame.
  - rewrite consensus_flag_value by assumption. rewrite Hq, <- Hsame.
    set (k := length _) in *.
    replace (geb (Fin q) consensus_threshold) with (Qle_bool 2 q) by reflexivity.
    destruct (2 <=? k)%nat eqn:Ek.
    + apply Nat.leb_le in Ek. apply Qle_bool_iff. rewrite Hcount.
      change 2 with (inject_Z 2). rewrite <- Zle_Qle. lia.
    + apply Nat.leb_gt in Ek. destruct (Qle_bool 2 q) eqn:Eq; [|reflexivity].
      apply Qle_bool_iff in Eq. rewrite Hcount in Eq.
      change 2 with (inject_Z 2) in Eq. rewrite <- Zle_Qle in Eq. lia.
Qed.

(** ** The summary of a voted table *)

Lemma get_anomaly_summary_run self (h : store) (data : ref) (d : DataFrame) :
  nth_error h data = Some d ->
  get_anomaly_summary self data h = (Ok (summary_of d), h).
Proof.
  intros Hd. unfold get_anomaly_summary.
  rewrite (bind_columns_at h data d _ Hd), (bind_len_at h data d _ Hd),
    (bind_columns_at h data d _ Hd).
  assert (Hc : count_methods data (filter (contains "is_anomaly") (col_names d)) [] h
               = (Ok (method_counts_of d (anomaly_columns d) []), h)).
  { apply (count_methods_run h data d _ Hd).
    intros n Hn. now apply filter_In in Hn. }
  unfold summary_of. fold (has_column d "is_anomaly_consensus").
  destruct (has_column d "is_anomaly_consensus") eqn:Hh.
  - apply has_column_assoc in Hh as [c Hcol].
    unfold bind at 1. rewrite (bind_getitem_at h data d _ c _ Hd Hcol).
    unfold ret at 1. unfold bind. rewrite Hc. unfold column_or_empty.
    now rewrite Hcol.
  - unfold bind at 1. unfold ret at 1. unfold bind. now rewrite Hc.
Qed.

(** X7. On a table that has the column [is_anomaly_consensus],
    [get_anomaly_summary] returns and leaves the store as it was; the
    consensus count is the sum of that column (the number of true flags,
    for a column of flags), and the same number is reported once more
    among the method counts, under the name of the column. *)
Theorem summary_counts_consensus_twice self (h : store) (data : ref)
    (d : DataFrame) (c : list cell) :
  nth_error h data = Some d ->
  assoc "is_anomaly_consensus" (columns d) = Some c ->
  exists s,
    get_anomaly_summary self data h = (Ok s, h)
    /\ total_records s = nrows d
    /\ consensus_anomalies s = nansum (floats c)
    /\ assoc "is_anomaly_consensus" (method_counts s) = Some (consensus_anomalies s)
    /\ (bool_column c -> feq (consensus_anomalies s) (of_nat (count_true c))).
Proof.
  intros Hd Hc. exists (summary_of d).
  assert (Hh : has_column d "is_anomaly_consensus" = true)
    by (apply has_column_assoc; eauto).
  assert (Hsum : consensus_anomalies (summary_of d) = nansum (floats c)).
  { unfold summary_of, column_or_empty. cbn [consensus_anomalies].
    now rewrite Hh, Hc. }
  split; [now apply get_anomaly_summary_run|]. split; [reflexivity|].
  split; [exact Hsum|]. split.
  - rewrite Hsum. unfold summary_of. cbn [method_counts].
    rewrite (method_counts_of_in d "is_anomaly_consensus").
    + unfold column_or_empty. now rewrite Hc.
    + apply filter_In. split; [|reflexivity].
      apply assoc_some_in in Hc. now apply (in_map fst) in Hc.
  - intros Hb. rewrite Hsum. now apply nansum_bool_column.
Qed.

Lemma consensus_column (d : DataFrame) :
  assoc "is_anomaly_consensus" (columns (consensus_frame d))
  = Some (map (fun c => CBool (geb (cell_float c) consensus_threshold))
            (anomaly_counts d)).
Proof. unfold consensus_frame. apply column_set_same. Qed.

Lemma count_true_flags (d : DataFrame) (name : string) (c : column) :
  assoc name (columns d) = Some c ->
  count_true c = length (filter (flag_at d name) (seq 0 (length c))).
Proof.
  intros Hc. unfold flag_at. rewrite Hc. unfold count_true. clear Hc.
  induction c as [|x c IH] using rev_ind; [reflexivity|].
  rewrite length_app, Nat.add_comm. cbn [length Nat.add].
  rewrite seq_S, !filter_app, !length_app, IH. cbn [Nat.add filter].
  rewrite nth_middle.
  f_equal.
  - f_equal. apply filter_ext_in. intros i Hi. apply in_seq in Hi.
    rewrite app_nth1 by lia. reflexivity.
  - destruct x as [[|]|y]; reflexivity.
Qed.

(** X8. [get_anomaly_summary] on the table [detect_all] returned: the
    summary reports the number of rows of the input table, and as
    consensus anomalies the number of rows whose consensus flag is true;
    neither call changes the input table. *)
Theorem summary_of_a_detection self (h h' : store) (data r' : ref)
    (d : DataFrame) (numeric_columns : list string) (date_column : option string) :
  nth_error h data = Some d ->
  detect_all self data numeric_columns date_column h = (Ok r', h') ->
  exists d' s,
    nth_error h' r' = Some d'
    /\ get_anomaly_summary self r' h' = (Ok s, h')
    /\ nth_error h' data = Some d
    /\ total_records s = nrows d
    /\ feq (consensus_anomalies s)
         (of_nat (length (filter (flag_at d' "is_anomaly_consensus")
                            (seq 0 (nrows d)))))
    /\ forall n, In n (detector_flags numeric_columns date_column) ->
         exists c, assoc n (columns d') = Some c
                   /\ assoc n (method_counts s) = Some (nansum (floats c)).
Proof.
  intros Hd Hrun.
  pose proof (detect_all_runs self h data d numeric_columns date_column Hd) as Hruns.
  unfold runs_as in Hruns.
  destruct (detect_all_frame self d numeric_columns date_column) as [d'|e] eqn:Ef;
    destruct Hruns as (H & Hext & Hm); rewrite Hm in Hrun; [|discriminate].
  injection Hrun as <- <-.
  destruct (detect_all_before_vote self d d' _ _ Ef) as (d2 & -> & Hrows & Hhas & _).
  exists (consensus_frame d2), (summary_of (consensus_frame d2)).
  pose proof (nth_error_last H (consensus_frame d2)) as Hlast.
  split; [exact Hlast|]. split; [now apply get_anomaly_summary_run|].
  split.
  { destruct Hext as [t ->]. rewrite <- app_assoc.
    rewrite nth_error_app1; [assumption|]. apply nth_error_Some. congruence. }
  split; [exact Hrows|]. split.
  - pose proof (consensus_column d2) as Hc.
    set (c := map _ (anomaly_counts d2)) in Hc.
    assert (Hs : consensus_anomalies (summary_of (consensus_frame d2))
                 = nansum (floats c)).
    { unfold summary_of, column_or_empty. cbn [consensus_anomalies].
      rewrite Hc. unfold consensus_frame. now rewrite has_column_set_same. }
    rewrite Hs.
    assert (Hlen : length c = nrows d)
      by (unfold c; now rewrite length_map, anomaly_counts_length).
    rewrite <- Hlen, <- (count_true_flags _ _ c Hc).
    apply nansum_bool_column. unfold c. apply bool_column_map.
  - intros n Hn.
    assert (Hp : has_column (consensus_frame d2) n = true)
      by (unfold consensus_frame; apply has_column_set_mono, has_column_set_mono, Hhas, Hn).
    apply has_column_assoc in Hp as [c Hc]. exists c. split; [exact Hc|].
    unfold summary_of. cbn [method_counts].
    rewrite (method_counts_of_in (consensus_frame d2) n).
    + unfold column_or_empty. now rewrite Hc.
    + apply filter_In. split.
      * apply assoc_some_in in Hc. now apply (in_map fst) in Hc.
      * now apply detector_flags_named in Hn.
Qed.

(** * More properties of the trend analysis *)

(** ** A series on a line *)

Lemma sse_cons (a b x v : Q) (X y : list Q) :
  sse a b (x :: X) (v :: y)
  = (v - (a + b * x)) * (v - (a + b * x)) + sse a b X y.
Proof. reflexivity. Qed.

Lemma sse_nonneg (a b : Q) (X y : list Q) : 0 <= sse a b X y.
Proof.
  unfold sse. apply psum_nonneg. intros x v. set (r := v - (a + b * x)). nra.
Qed.

Lemma sse_zero_residuals (a b : Q) (X y : list Q) :
  sse a b X y == 0 ->
  forall i, (i < length X)%nat -> (i < length y)%nat ->
  nth i y 0 == a + b * nth i X 0.
Proof.
  revert y. induction X as [|x X IH]; intros y Hs i HX Hy; simpl in HX; [lia|].
  destruct y as [|v y]; simpl in Hy; [lia|].
  rewrite sse_cons in Hs.
  pose proof (sse_nonneg a b X y) as Hr.
  set (r := v - (a + b * x)) in *. set (s := sse a b X y) in *.
  assert (Hsq : 0 <= r * r) by nra.
  assert (Hrr : r * r == 0) by lra.
  assert (Hs0 : s == 0) by lra.
  destruct i as [|i]; cbn [nth].
  - apply Qmult_integral in Hrr. unfold r in Hrr. destruct Hrr; lra.
  - apply IH; [exact Hs0|lia|lia].
Qed.

Lemma sse_of_residuals (a b : Q) (X y : list Q) :
  (forall i, (i < length X)%nat -> (i < length y)%nat ->
     nth i y 0 == a + b * nth i X 0) ->
  sse a b X y == 0.
Proof.
  revert y. induction X as [|x X IH]; intros y Hr; [reflexivity|].
  destruct y as [|v y]; [reflexivity|].
  rewrite sse_cons. rewrite IH.
  - pose proof (Hr 0%nat ltac:(simpl; lia) ltac:(simpl; lia)) as H0. cbn [nth] in H0.
    rewrite H0. ring.
  - intros i HX Hy. apply (Hr (S i)); simpl; lia.
Qed.

Lemma arange_nth (n i : nat) :
  (i < n)%nat -> nth i (arange 0 n) 0 = inject_Z (Z.of_nat i).
Proof.
  intros Hi. unfold arange.
  rewrite (nth_map_in _ _ i 0 0%nat) by now rewrite length_seq.
  now rewrite seq_nth.
Qed.

(** The line fitted through points that lie on a line is that line. *)
Lemma trend_line_of_a_line (a b : Q) (ys : list Q) :
  (2 <= length ys)%nat -> on_line a b ys ->
  coef (trend_line ys) == b /\ intercept (trend_line ys) == a
  /\ sse (intercept (trend_line ys)) (coef (trend_line ys)) (arange 0 (length ys)) ys
     == 0.
Proof.
  intros Hn Hline. set (X := arange 0 (length ys)).
  assert (HX : length X = length ys) by apply arange_length.
  assert (Hne : ys <> []) by (destruct ys; [simpl in Hn; lia|discriminate]).
  assert (Hzero : sse a b X ys == 0).
  { apply sse_of_residuals. intros i Hi Hy. unfold X. rewrite arange_nth by assumption.
    now apply Hline. }
  pose proof (ols_least_squares X ys HX Hne a b) as Hle.
  pose proof (sse_nonneg (intercept (ols X ys)) (coef (ols X ys)) X ys) as Hge.
  assert (Hfit : sse (intercept (ols X ys)) (coef (ols X ys)) X ys == 0) by lra.
  pose proof (sse_zero_residuals _ _ X ys Hfit) as Hres.
  pose proof (Hres 0%nat ltac:(lia) ltac:(lia)) as H0.
  pose proof (Hres 1%nat ltac:(lia) ltac:(lia)) as H1.
  unfold X in H0, H1. rewrite arange_nth in H0, H1 by lia.
  rewrite (Hline 0%nat) in H0 by lia. rewrite (Hline 1%nat) in H1 by lia.
  change (inject_Z (Z.of_nat 0)) with 0 in H0.
  change (inject_Z (Z.of_nat 1)) with 1 in H1.
  fold X in H0, H1. unfold trend_line. fold X.
  set (a' := intercept (ols X ys)) in *. set (b' := coef (ols X ys)) in *.
  split; [lra|]. split; [lra|exact Hfit].
Qed.

Lemma classify_proper (s s' : Q) : s == s' -> classify s = classify s'.
Proof.
  intros Hs. destruct (classify s') eqn:E.
  - apply classify_upward in E. apply classify_upward. lra.
  - apply classify_downward in E. apply classify_downward. lra.
  - apply classify_stable in E. apply classify_stable. lra.
Qed.

(** The numerator of R2 is the sum of squared errors of the line. *)
Lemma r2_numerator (a b : Q) (X y : list Q) :
  Qsum (map (fun p => (fst p - snd p) * (fst p - snd p))
          (combine y (map (fun x => a + b * x) X)))
  == sse a b X y.
Proof.
  revert y. induction X as [|x X IH]; intros y.
  - cbn [map]. rewrite combine_nil. reflexivity.
  - destruct y as [|v y]; [reflexivity|].
    rewrite sse_cons. cbn [map combine Qsum fold_right fst snd].
    fold (Qsum (map (fun p => (fst p - snd p) * (fst p - snd p))
                  (combine y (map (fun x => a + b * x) X)))).
    rewrite IH. reflexivity.
Qed.

(** The denominator of R2 is the sum of squared errors of the mean. *)
Lemma r2_denominator (m : Q) (X y : list Q) :
  length X = length y ->
  Qsum (map (fun v => (v - m) * (v - m)) y) == sse m 0 X y.
Proof.
  intros HX. unfold sse.
  rewrite (psum_ext _ (fun _ v => (v - m) * (v - m))) by (intros; ring).
  now rewrite (psum_snd (fun v => (v - m) * (v - m))).
Qed.

Lemma r2_score_of_line (a b : Q) (X y : list Q) :
  length X = length y -> (2 <= length y)%nat ->
  exists num den,
    num == sse a b X y /\ den == sse (Qmean y) 0 X y
    /\ r2_score y (map (fun x => a + b * x) X)
       = if negb (Qeq_bool den 0) then Fin (1 - num / den)
         else if negb (Qeq_bool num 0) then Fin 0
         else Fin 1.
Proof.
  intros HX Hn. unfold r2_score. rewrite length_map, HX.
  destruct (Nat.ltb_spec (length y) 2) as [Hlt|_]; [lia|].
  eexists _, _. split; [apply r2_numerator|].
  split; [now apply r2_denominator|reflexivity].
Qed.

Lemma trend_of_series (series : list float) (window : nat) (ys : list Q) :
  finite_values series = Some ys -> ys <> [] ->
  detect_trend_direction series window
  = Ok {| trend_direction := classify (coef (trend_line ys));
          slope := coef (trend_line ys);
          strength :=
            r2_score ys
              (map (fun x => intercept (trend_line ys) + coef (trend_line ys) * x)
                 (arange 0 (length ys)));
          moving_average :=
            if (0 <? length (rolling window_mean window series))%nat
            then Some (last (rolling window_mean window series) NaN) else None |}.
Proof.
  intros Hf Hne. unfold detect_trend_direction, trend_line.
  rewrite (fit_finite _ series ys Hf Hne).
  rewrite <- (finite_values_length series ys Hf).
  rewrite predict_ok; [now rewrite Hf|].
  destruct ys; [congruence|]. discriminate.
Qed.

Lemma forecast_of_series (series : list float) (ys : list Q) (steps : Z) :
  finite_values series = Some ys -> ys <> [] -> (1 <= steps)%Z ->
  forecast_linear_trend series steps
  = Ok (map (fun k => (extrapolate (trend_line ys) (length ys) k, "Linear Trend"%string))
          (seq 0 (Z.to_nat steps))).
Proof.
  intros Hf Hne Hsteps. unfold forecast_linear_trend.
  rewrite (fit_finite _ series ys Hf Hne).
  rewrite <- (finite_values_length series ys Hf). fold (trend_line ys).
  rewrite predict_ok.
  - f_equal. unfold arange, extrapolate. rewrite seq_from, !map_map. reflexivity.
  - unfold arange. destruct (Z.to_nat steps) eqn:E; [lia|discriminate].
Qed.

(** X9. A series of at least two finite values that lie on a line
    [a + b i]: [detect_trend_direction] reports the slope [b], the
    direction of [b] and strength (R2) 1; [forecast_linear_trend] continues
    the line, its row [k] being [a + b (n + k)]. *)
Theorem a_line_is_recovered (series : list float) (ys : list Q) (a b : Q)
    (window : nat) (steps : Z) :
  finite_values series = Some ys ->
  (2 <= length ys)%nat ->
  on_line a b ys ->
  (1 <= steps)%Z ->
  (exists t,
     detect_trend_direction series window = Ok t
     /\ slope t == b
     /\ trend_direction t = classify b
     /\ feq (strength t) (Fin 1))
  /\ (exists rows,
        forecast_linear_trend series steps = Ok rows
        /\ length rows = Z.to_nat steps
        /\ forall k, (k < Z.to_nat steps)%nat ->
             fst (nth k rows (0, ""%string))
             == a + b * inject_Z (Z.of_nat (length ys + k))).
Proof.
  intros Hf Hn Hline Hsteps.
  assert (Hne : ys <> []) by (destruct ys; [simpl in Hn; lia|discriminate]).
  destruct (trend_line_of_a_line a b ys Hn Hline) as (Hb & Ha & Hfit).
  split.
  - eexists. split; [exact (trend_of_series series window ys Hf Hne)|].
    cbn [slope trend_direction strength].
    split; [exact Hb|]. split; [now apply classify_proper|].
    destruct (r2_score_of_line (intercept (trend_line ys)) (coef (trend_line ys))
                (arange 0 (length ys)) ys (arange_length 0 (length ys)) Hn)
      as (num & den & Enum & _ & ->).
    rewrite Hfit in Enum.
    destruct (Qeq_bool den 0) eqn:Eden; cbn [negb].
    + assert (E0 : Qeq_bool num 0 = true) by now apply Qeq_bool_iff.
      rewrite E0. cbn [negb feq]. reflexivity.
    + apply Qeq_bool_neq in Eden. cbn [feq]. rewrite Enum. field. exact Eden.
  - eexists. split; [exact (forecast_of_series series ys steps Hf Hne Hsteps)|].
    split; [now rewrite length_map, length_seq|].
    intros k Hk.
    rewrite (nth_map_in _ _ k (0, ""%string) 0%nat) by now rewrite length_seq.
    rewrite seq_nth by assumption. cbn [fst Nat.add]. unfold extrapolate.
    rewrite Ha, Hb. reflexivity.
Qed.

(** ** The strength of a trend *)

(** X10. For a series of finite values, the strength
    [detect_trend_direction] reports is NaN when the series has one point;
    otherwise, in exact arithmetic (no rounding and no overflow inside the
    regression and the score), it is a number between 0 and 1.  In doubles
    a rounding error can take it just below 0. *)
Theorem trend_strength_is_a_fraction (series : list float) (ys : list Q)
    (window : nat) :
  finite_values series = Some ys ->
  ys <> [] ->
  exists t,
    detect_trend_direction series window = Ok t
    /\ if (length ys =? 1)%nat then strength t = NaN
       else exists r, strength t = Fin r /\ 0 <= r /\ r <= 1.
Proof.
  intros Hf Hne.
  eexists. split; [exact (trend_of_series series window ys Hf Hne)|].
  cbn [strength].
  destruct (Nat.eqb_spec (length ys) 1) as [H1|H1].
  { unfold r2_score. rewrite length_map, arange_length, H1. reflexivity. }
  assert (Hn : (2 <= length ys)%nat).
  { destruct ys as [|? [|? ?]]; simpl in *; congruence || lia. }
  set (X := arange 0 (length ys)).
  assert (HX : length X = length ys) by apply arange_length.
  destruct (r2_score_of_line (intercept (trend_line ys)) (coef (trend_line ys))
              X ys HX Hn) as (num & den & Enum & Eden & ->).
  pose proof (ols_least_squares X ys HX Hne (Qmean ys) 0) as Hle.
  unfold trend_line in Enum. fold X in Enum.
  pose proof (sse_nonneg (intercept (ols X ys)) (coef (ols X ys)) X ys) as Hnum.
  rewrite <- Enum in Hle, Hnum. rewrite <- Eden in Hle.
  destruct (Qeq_bool den 0) eqn:E; cbn [negb].
  - destruct (Qeq_bool num 0); cbn [negb]; eexists; (split; [reflexivity|lra]).
  - apply Qeq_bool_neq in E. eexists. split; [reflexivity|].
    assert (Hden : 0 < den) by lra.
    assert (Hq : 0 <= num / den) by (apply Qle_shift_div_l; lra).
    assert (Hq' : num / den <= 1) by (apply Qle_shift_div_r; lra).
    lra.
Qed.

(** ** When the trend methods return *)






(** ** Growth metrics and the unit of the series *)

Lemma feq_refl (x : float) : feq x x.
Proof. destruct x; simpl; auto. reflexivity. Qed.

Lemma Qsign_compare (a : Q) : Qsign a = (a ?= 0).
Proof. unfold Qsign, Qcompare. simpl. now rewrite Z.mul_1_r. Qed.

Lemma Qsign_proper (a b : Q) : a == b -> Qsign a = Qsign b.
Proof. intros Hab. rewrite !Qsign_compare. now rewrite Hab. Qed.

Lemma Qsign_scaled (c a : Q) : 0 < c -> Qsign (c * a) = Qsign a.
Proof.
  intros Hc. rewrite !Qsign_compare.
  destruct (Qcompare_spec a 0) as [H|H|H].
  - apply (proj1 (Qeq_alt _ _)). rewrite H. ring.
  - apply (proj1 (Qlt_alt _ _)).
    assert (Hp : 0 < c * - a) by (apply Qmult_lt_0_compat; lra).
    setoid_replace (c * a) with (- (c * - a)) by ring. lra.
  - apply (proj1 (Qgt_alt _ _)). apply Qmult_lt_0_compat; lra.
Qed.

Lemma Qeq_bool_proper (a b : Q) : a == b -> Qeq_bool a 0 = Qeq_bool b 0.
Proof.
  intros Hab. destruct (Qeq_bool b 0) eqn:E.
  - apply Qeq_bool_iff. apply Qeq_bool_iff in E. now rewrite Hab.
  - apply Qeq_bool_neq in E. destruct (Qeq_bool a 0) eqn:E'; [|reflexivity].
    apply Qeq_bool_iff in E'. rewrite Hab in E'. contradiction.
Qed.

Lemma Qeq_bool_scaled (c b : Q) : 0 < c -> Qeq_bool (c * b) 0 = Qeq_bool b 0.
Proof.
  intros Hc. destruct (Qeq_bool b 0) eqn:E.
  - apply Qeq_bool_iff. apply Qeq_bool_iff in E. rewrite E. ring.
  - apply Qeq_bool_neq in E. destruct (Qeq_bool (c * b) 0) eqn:E'; [|reflexivity].
    apply Qeq_bool_iff in E'. apply Qmult_integral in E'. destruct E'; [lra|contradiction].
Qed.

Lemma div_scaled (c a b : Q) :
  0 < c -> feq (div (Fin (c * a)) (Fin (c * b))) (div (Fin a) (Fin b)).
Proof.
  intros Hc. cbn [div]. rewrite (Qeq_bool_scaled c b Hc), (Qsign_scaled c a Hc).
  destruct (Qeq_bool b 0) eqn:E; [apply feq_refl|].
  apply Qeq_bool_neq in E. cbn [feq]. field. split; [exact E|lra].
Qed.

Lemma add_feq (x x' y y' : float) : feq x x' -> feq y y' -> feq (add x y) (add x' y').
Proof.
  destruct x, x'; simpl; try contradiction; destruct y, y'; simpl; try contradiction;
    auto.
  intros -> ->. reflexivity.
Qed.

Lemma neg_feq (x x' : float) : feq x x' -> feq (neg x) (neg x').
Proof. destruct x, x'; simpl; try contradiction; auto. now intros ->. Qed.

Lemma sub_feq (x x' y y' : float) : feq x x' -> feq y y' -> feq (sub x y) (sub x' y').
Proof. intros Hx Hy. unfold sub. apply add_feq; [assumption|now apply neg_feq]. Qed.

Lemma mul_feq (x x' y : float) : feq x x' -> feq (mul x y) (mul x' y).
Proof.
  destruct x as [a| | |], x' as [a'| | |]; simpl; try contradiction; intros H;
    destruct y as [b| | |]; simpl;
    try (rewrite (Qsign_proper a a' H)); try apply feq_refl; try exact I; try reflexivity.
  now rewrite H.
Qed.

Lemma div_feq (x x' y : float) : feq x x' -> feq (div x y) (div x' y).
Proof.
  destruct x as [a| | |], x' as [a'| | |]; simpl; try contradiction; intros H;
    destruct y as [b| | |]; simpl;
    try (rewrite (Qsign_proper a a' H)); try apply feq_refl; try exact I; try reflexivity.
  destruct (Qeq_bool b 0); [apply feq_refl|]. simpl. now rewrite H.
Qed.

Lemma is_nan_feq (x x' : float) : feq x x' -> is_nan x = is_nan x'.
Proof. destruct x, x'; simpl; try contradiction; reflexivity. Qed.

Lemma drop_nan_feq (l l' : list float) :
  Forall2 feq l l' -> Forall2 feq (drop_nan l) (drop_nan l').
Proof.
  induction 1 as [|x x' l l' Hx _ IH]; [constructor|].
  unfold drop_nan in *. cbn [filter]. rewrite (is_nan_feq x x' Hx).
  destruct (is_nan x'); cbn [negb]; [assumption|now constructor].
Qed.

Lemma sum_feq (l l' : list float) : Forall2 feq l l' -> feq (sum l) (sum l').
Proof.
  induction 1 as [|x x' l l' Hx _ IH]; [reflexivity|].
  unfold sum in *. cbn [fold_right]. now apply add_feq.
Qed.

Lemma mean_feq (l l' : list float) : Forall2 feq l l' -> feq (mean l) (mean l').
Proof.
  intros H. unfold mean. rewrite (Forall2_length H). apply div_feq. now apply sum_feq.
Qed.

Lemma last_feq (l l' : list float) :
  Forall2 feq l l' -> feq (last l NaN) (last l' NaN).
Proof.
  induction 1 as [|x x' l l' Hx Hl IH]; [exact I|].
  destruct Hl as [|y y' l l' Hy Hl]; [exact Hx|]. exact IH.
Qed.

(** The relative changes of a series do not depend on its unit. *)
Lemma pct_change_from_scaled (c : Q) (ys : list Q) :
  0 < c -> forall p,
  Forall2 feq (pct_change_from (Fin (c * p)) (map Fin (map (Qmult c) ys)))
              (pct_change_from (Fin p) (map Fin ys)).
Proof.
  intros Hc. induction ys as [|y ys IH]; intros p; [constructor|].
  cbn [map pct_change_from]. constructor; [|apply IH].
  apply sub_feq; [now apply div_scaled|apply feq_refl].
Qed.

Lemma pct_change_scaled (c : Q) (ys : list Q) :
  0 < c ->
  Forall2 feq (pct_change (map Fin (map (Qmult c) ys))) (pct_change (map Fin ys)).
Proof.
  intros Hc. destruct ys as [|y ys]; [constructor|].
  cbn [map pct_change]. constructor; [exact I|now apply pct_change_from_scaled].
Qed.

Lemma finite_values_map (series : list float) (ys : list Q) :
  finite_values series = Some ys -> series = map Fin ys.
Proof.
  revert ys. induction series as [|x series IH]; intros ys; simpl.
  - now intros [= <-].
  - destruct x; try discriminate.
    destruct (finite_values series) as [qs|]; [|discriminate].
    intros [= <-]. simpl. now rewrite (IH qs).
Qed.

Lemma scaled_map (c : Q) (ys : list Q) :
  scaled c (map Fin ys) = map Fin (map (Qmult c) ys).
Proof. unfold scaled. rewrite !map_map. reflexivity. Qed.

Lemma growth_ratio_scaled (c a b : Q) :
  0 < c ->
  feq (mul (div (sub (Fin (c * a)) (Fin (c * b))) (Fin (c * b))) hundred)
      (mul (div (sub (Fin a) (Fin b)) (Fin b)) hundred).
Proof.
  intros Hc. apply mul_feq.
  change (sub (Fin (c * a)) (Fin (c * b))) with (Fin (c * a + - (c * b))).
  change (sub (Fin a) (Fin b)) with (Fin (a + - b)).
  assert (E : c * a + - (c * b) == c * (a + - b)) by ring.
  cbn [div]. rewrite (Qeq_bool_scaled c b Hc), (Qsign_proper _ _ E),
    (Qsign_scaled c _ Hc).
  destruct (Qeq_bool b 0) eqn:Eb; [apply feq_refl|].
  apply Qeq_bool_neq in Eb. cbn [feq]. field. split; [exact Eb|lra].
Qed.

(** X13. Multiplying every value of a series of finite values by
    [c > 0] (a change of unit) multiplies the start and the current value
    by [c] and leaves the month-over-month growth, the year-over-year
    growth and the average growth rate as they were. *)
Theorem growth_rates_ignore_the_unit (series : list float) (ys : list Q) (c : Q) :
  finite_values series = Some ys ->
  ys <> [] ->
  0 < c ->
  exists g g',
    calculate_growth_metrics series = Ok g
    /\ calculate_growth_metrics (scaled c series) = Ok g'
    /\ feq (mom_growth g') (mom_growth g)
    /\ same_option (yoy_growth g') (yoy_growth g)
    /\ feq (avg_growth_rate g') (avg_growth_rate g)
    /\ feq (current_value g') (mul (Fin c) (current_value g))
    /\ feq (start_value g') (mul (Fin c) (start_value g)).
Proof.
  intros Hf Hne Hc. apply finite_values_map in Hf. subst series.
  rewrite scaled_map.
  destruct ys as [|y ys]; [congruence|].
  set (zs := y :: ys).
  assert (Hlast : forall l : list Q,
            l <> [] -> last (map Fin l) NaN = Fin (last l 0)).
  { clear. induction l as [|a l IH]; [congruence|]. intros _.
    destruct l as [|b l]; [reflexivity|].
    change (last (map Fin (a :: b :: l)) NaN) with (last (map Fin (b :: l)) NaN).
    rewrite IH by discriminate. reflexivity. }
  assert (Hlast' : last (map (Qmult c) zs) 0 = c * last zs 0).
  { clear. unfold zs. generalize y. induction ys as [|b l IH]; intros a; [reflexivity|].
    change (last (map (Qmult c) (a :: b :: l)) 0) with (last (map (Qmult c) (b :: l)) 0).
    now rewrite IH. }
  unfold calculate_growth_metrics. fold zs.
  change (map Fin (map (Qmult c) zs)) with (Fin (c * y) :: map Fin (map (Qmult c) ys)).
  change (map Fin zs) with (Fin y :: map Fin ys).
  cbv zeta. eexists _, _. split; [reflexivity|]. split; [reflexivity|].
  cbn [mom_growth yoy_growth avg_growth_rate current_value start_value].
  change (Fin (c * y) :: map Fin (map (Qmult c) ys)) with (map Fin (map (Qmult c) zs)).
  change (Fin y :: map Fin ys) with (map Fin zs).
  rewrite !length_map.
  rewrite !Hlast by (unfold zs; discriminate). rewrite Hlast'.
  split; [|split; [|split; [|split]]].
  - apply mul_feq, last_feq, pct_change_scaled, Hc.
  - destruct (365 <=? length zs)%nat eqn:E; [|exact I].
    apply Nat.leb_le in E. cbn [same_option].
    assert (Hn : (length zs - 365 < length zs)%nat) by lia.
    rewrite (nth_map_in Fin _ _ NaN 0) by now rewrite length_map.
    rewrite (nth_map_in (Qmult c) _ _ 0 0) by assumption.
    rewrite (nth_map_in Fin _ _ NaN 0) by assumption.
    now apply growth_ratio_scaled.
  - apply mul_feq, mean_feq, drop_nan_feq, pct_change_scaled, Hc.
  - apply feq_refl.
  - apply feq_refl.
Qed.

(** ** The shape of peaks and troughs *)

Lemma plateau_end_flat (fuel : nat) (x : list float) (v : float) (i_max : nat) :
  forall i_ahead k,
  (i_ahead <= k)%nat -> (k < plateau_end fuel x v i_ahead i_max)%nat ->
  eqb (nth k x NaN) v = true.
Proof.
  induction fuel as [|fuel IH]; intros i_ahead k Hk; simpl; [lia|].
  destruct (Nat.ltb_spec i_ahead i_max) as [Hlt|Hge]; simpl; [|lia].
  destruct (eqb (nth i_ahead x NaN) v) eqn:E; [|lia].
  intros Hend. destruct (Nat.eq_dec k i_ahead) as [->|Hne]; [exact E|].
  apply (IH (S i_ahead)); [lia|exact Hend].
Qed.

Lemma ltb_not_nan (a b : float) : ltb a b = true -> eqb b b = true.
Proof.
  destruct a, b; simpl; try discriminate; intros _; try reflexivity;
    now apply Qeq_bool_iff.
Qed.

Lemma ltb_eqb_r (a b c : float) :
  eqb c b = true -> ltb a b = true -> ltb a c = true.
Proof.
  destruct a as [a| | |], b as [b| | |], c as [c| | |]; simpl;
    try discriminate; try reflexivity.
  intros E H. apply Qeq_bool_iff in E. apply Qltb_iff in H. apply Qltb_iff.
  now rewrite E.
Qed.

Lemma eqb_trans_r (a b c : float) :
  eqb c b = true -> eqb a b = true -> eqb a c = true.
Proof.
  destruct a as [a| | |], b as [b| | |], c as [c| | |]; simpl;
    try discriminate; try reflexivity.
  intros E H. apply Qeq_bool_iff in E. apply Qeq_bool_iff in H. apply Qeq_bool_iff.
  now rewrite E, H.
Qed.

(** Every index the search over [1, i_max) reports is a local maximum. *)
Lemma local_maxima_loop_shape (fuel : nat) (x : list float) (i_max : nat) :
  (i_max < length x)%nat ->
  forall i p, (1 <= i)%nat -> In p (local_maxima_loop fuel x i i_max) ->
  exists l r, local_maximum x p l r.
Proof.
  intros Hmax.
  induction fuel as [|fuel IH]; intros i p Hi; cbn [local_maxima_loop]; [contradiction|].
  destruct (Nat.ltb_spec i i_max) as [Hlt|Hge]; [|contradiction].
  pose proof (plateau_end_bounds (length x) x (nth i x NaN) i_max (S i) Hlt) as Hb.
  pose proof (plateau_end_flat (length x) x (nth i x NaN) i_max (S i)) as Hflat.
  set (i_ahead := plateau_end (length x) x (nth i x NaN) (S i) i_max) in *.
  destruct (ltb (nth (i - 1) x NaN) (nth i x NaN)) eqn:Hleft.
  - destruct (ltb (nth i_ahead x NaN) (nth i x NaN)) eqn:Hright.
    + intros [<-|Hin]; [|apply (IH (S i_ahead)); [lia|exact Hin]].
      set (p := ((i + (i_ahead - 1)) / 2)%nat).
      assert (Hp : (i <= p)%nat /\ (p < i_ahead)%nat).
      { unfold p. split.
        - apply Nat.div_le_lower_bound; lia.
        - apply Nat.Div0.div_lt_upper_bound. lia. }
      assert (Hrun : forall k, (i <= k)%nat -> (k < i_ahead)%nat ->
                eqb (nth k x NaN) (nth i x NaN) = true).
      { intros k Hk1 Hk2. destruct (Nat.eq_dec k i) as [->|Hne].
        - exact (ltb_not_nan _ _ Hleft).
        - apply Hflat; lia. }
      assert (Heq : eqb (nth p x NaN) (nth i x NaN) = true) by (apply Hrun; lia).
      exists (i - 1)%nat, i_ahead. unfold local_maximum.
      split; [lia|]. split; [lia|]. split; [lia|].
      split; [exact (ltb_eqb_r _ _ _ Heq Hleft)|].
      split; [exact (ltb_eqb_r _ _ _ Heq Hright)|].
      intros k Hk1 Hk2. apply (eqb_trans_r _ _ _ Heq). apply Hrun; lia.
    + intros Hin. apply (IH (S i)); [lia|exact Hin].
  - intros Hin. apply (IH (S i)); [lia|exact Hin].
Qed.

Lemma find_peaks_shape (x : list float) (prominence : float) (p : nat) :
  In p (find_peaks x prominence) -> exists l r, local_maximum x p l r.
Proof.
  unfold find_peaks, local_maxima. intros Hin. apply filter_In in Hin as [Hin _].
  destruct x as [|x0 x]; [contradiction|].
  apply (local_maxima_loop_shape (length (x0 :: x)) (x0 :: x) (length (x0 :: x) - 1))
    with (i := 1%nat);
    [simpl; lia|lia|exact Hin].
Qed.

Lemma local_maxima_loop_increasing (fuel : nat) (x : list float) (i_max : nat) :
  forall i, increasing (local_maxima_loop fuel x i i_max).
Proof.
  induction fuel as [|fuel IH]; intros i; cbn [local_maxima_loop]; [exact I|].
  destruct (Nat.ltb_spec i i_max) as [Hlt|Hge]; [|exact I].
  pose proof (plateau_end_bounds (length x) x (nth i x NaN) i_max (S i) Hlt) as Hb.
  set (i_ahead := plateau_end (length x) x (nth i x NaN) (S i) i_max) in *.
  destruct (ltb (nth (i - 1) x NaN) (nth i x NaN)); [|apply IH].
  destruct (ltb (nth i_ahead x NaN) (nth i x NaN)); [|apply IH].
  split; [|apply IH].
  apply Forall_forall. intros q Hq. apply local_maxima_loop_bounds in Hq.
  assert ((i + (i_ahead - 1)) / 2 < i_ahead)%nat
    by (apply Nat.Div0.div_lt_upper_bound; lia).
  lia.
Qed.

Lemma increasing_filter (f : nat -> bool) (l : list nat) :
  increasing l -> increasing (filter f l).
Proof.
  induction l as [|p l IH]; [trivial|]. intros [Hp Hl]. cbn [filter].
  destruct (f p); [|now apply IH]. split; [|now apply IH].
  apply Forall_forall. intros q Hq. apply filter_In in Hq as [Hq _].
  rewrite Forall_forall in Hp. now apply Hp.
Qed.

Lemma find_peaks_increasing (x : list float) (prominence : float) :
  increasing (find_peaks x prominence).
Proof. apply increasing_filter, local_maxima_loop_increasing. Qed.

Lemma negated_nth (x : list float) (k : nat) :
  nth k (negated x) NaN = neg (nth k x NaN).
Proof. unfold negated. change NaN with (neg NaN) at 1. apply map_nth. Qed.

Lemma ltb_neg (a b : float) : ltb (neg a) (neg b) = ltb b a.
Proof.
  destruct a as [a| | |], b as [b| | |]; simpl; try reflexivity.
  destruct (Qltb b a) eqn:E.
  - apply Qltb_iff in E. apply Qltb_iff. lra.
  - apply Qltb_false_iff in E. apply Qltb_false_iff. lra.
Qed.

Lemma eqb_neg (a b : float) : eqb (neg a) (neg b) = eqb a b.
Proof.
  destruct a as [a| | |], b as [b| | |]; simpl; try reflexivity.
  destruct (Qeq_bool a b) eqn:E.
  - apply Qeq_bool_iff in E. apply Qeq_bool_iff. now rewrite E.
  - apply Qeq_bool_neq in E. destruct (Qeq_bool (- a) (- b)) eqn:E'; [|reflexivity].
    apply Qeq_bool_iff in E'. exfalso. apply E. lra.
Qed.

Lemma leb_neg (a b : float) : leb (neg a) (neg b) = leb b a.
Proof.
  destruct a as [a| | |], b as [b| | |]; simpl; try reflexivity.
  destruct (Qle_bool b a) eqn:E.
  - apply Qle_bool_iff in E. apply Qle_bool_iff. lra.
  - destruct (Qle_bool (- a) (- b)) eqn:E'; [|reflexivity].
    apply Qle_bool_iff in E'. assert (Hba : b <= a) by lra.
    apply Qle_bool_iff in Hba. congruence.
Qed.

Lemma local_maximum_negated (x : list float) (p l r : nat) :
  local_maximum (negated x) p l r -> local_minimum x p l r.
Proof.
  unfold local_maximum, local_minimum, negated. rewrite length_map.
  fold (negated x). rewrite !negated_nth, !ltb_neg.
  intros (H1 & H2 & H3 & H4 & H5 & H6). repeat (split; [assumption|]).
  intros k Hk1 Hk2. specialize (H6 k Hk1 Hk2).
  now rewrite !negated_nth, eqb_neg in H6.
Qed.

(** X14. Every peak [identify_peaks_and_troughs] reports sits on a flat
    run of the series that is bounded on both sides by a strictly lower
    sample, and every trough on a flat run bounded by strictly higher
    samples; both lists of indices are strictly increasing. *)
Theorem peaks_and_troughs_are_local_extrema (series : list float)
    (prominence : float) :
  let e := identify_peaks_and_troughs series prominence in
  (forall p, In p (peak_indices e) -> exists l r, local_maximum series p l r)
  /\ (forall p, In p (trough_indices e) -> exists l r, local_minimum series p l r)
  /\ increasing (peak_indices e)
  /\ increasing (trough_indices e).
Proof.
  cbv zeta. unfold identify_peaks_and_troughs. cbn [peak_indices trough_indices].
  split; [|split; [|split]].
  - intros p Hp. exact (find_peaks_shape series prominence p Hp).
  - intros p Hp. fold (negated series) in Hp.
    destruct (find_peaks_shape _ _ _ Hp) as (l & r & Hm).
    exists l, r. now apply local_maximum_negated.
  - apply find_peaks_increasing.
  - apply find_peaks_increasing.
Qed.

Lemma leb_ltb_eqb (a b c : float) :
  eqb a c = true -> leb a b = true -> ltb b c = false.
Proof.
  destruct a as [a| | |], b as [b| | |], c as [c| | |]; simpl;
    try discriminate; try reflexivity.
  intros E H. apply Qeq_bool_iff in E. apply Qle_bool_iff in H.
  apply Qltb_false_iff. lra.
Qed.

Lemma no_peak_when_never_falling (x : list float) (p l r : nat) :
  never_falls x -> ~ local_maximum x p l r.
Proof.
  intros Hup (H1 & H2 & H3 & _ & Hr & Hflat).
  assert (Hk : eqb (nth (r - 1) x NaN) (nth p x NaN) = true) by (apply Hflat; lia).
  pose proof (Hup (r - 1)%nat) as Hle.
  replace (S (r - 1)) with r in Hle by lia. specialize (Hle H3).
  rewrite (leb_ltb_eqb _ _ _ Hk Hle) in Hr. discriminate.
Qed.

Lemma no_peak_when_never_rising (x : list float) (p l r : nat) :
  never_rises x -> ~ local_maximum x p l r.
Proof.
  intros Hdown (H1 & H2 & H3 & Hl & _ & Hflat).
  assert (Hk : eqb (nth (S l) x NaN) (nth p x NaN) = true) by (apply Hflat; lia).
  pose proof (Hdown l ltac:(lia)) as Hle.
  rewrite (leb_ltb_eqb _ _ _ Hk Hle) in Hl. discriminate.
Qed.

Lemma never_falls_negated (x : list float) : never_falls x -> never_rises (negated x).
Proof.
  intros H k Hk. unfold negated in Hk. rewrite length_map in Hk.
  rewrite !negated_nth, leb_neg. now apply H.
Qed.

Lemma never_rises_negated (x : list float) : never_rises x -> never_falls (negated x).
Proof.
  intros H k Hk. unfold negated in Hk. rewrite length_map in Hk.
  rewrite !negated_nth, leb_neg. now apply H.
Qed.

Lemma no_members {A : Type} (l : list A) : (forall a, ~ In a l) -> l = [].
Proof. destruct l as [|a l]; [reflexivity|]. intros H. destruct (H a). now left. Qed.

(** X15. A series that never falls, or never rises, has no peak and no
    trough, whatever the minimum prominence. *)
Theorem monotone_series_has_no_extrema (series : list float) (prominence : float) :
  never_falls series \/ never_rises series ->
  let e := identify_peaks_and_troughs series prominence in
  peak_indices e = [] /\ trough_indices e = []
  /\ peak_count e = 0%nat /\ trough_count e = 0%nat.
Proof.
  intros Hmono. cbv zeta.
  assert (Hp : find_peaks series prominence = []).
  { apply no_members. intros p Hp. destruct (find_peaks_shape _ _ _ Hp) as (l & r & Hm).
    destruct Hmono as [H|H].
    - exact (no_peak_when_never_falling _ _ _ _ H Hm).
    - exact (no_peak_when_never_rising _ _ _ _ H Hm). }
  assert (Ht : find_peaks (negated series) prominence = []).
  { apply no_members. intros p Hp'. destruct (find_peaks_shape _ _ _ Hp') as (l & r & Hm).
    destruct Hmono as [H|H].
    - exact (no_peak_when_never_rising _ _ _ _ (never_falls_negated _ H) Hm).
    - exact (no_peak_when_never_falling _ _ _ _ (never_rises_negated _ H) Hm). }
  unfold identify_peaks_and_troughs. fold (negated series).
  cbn [peak_indices trough_indices peak_count trough_count].
  rewrite Hp, Ht. auto.
Qed.

(** ** Seasonality *)

Lemma ltb_leb (a b : float) : ltb a b = true -> leb a b = true.
Proof.
  destruct a as [a| | |], b as [b| | |]; simpl; try discriminate; try reflexivity.
  intros H. apply Qltb_iff in H. apply Qle_bool_iff. lra.
Qed.

Lemma eqb_leb (a b : float) : eqb a b = true -> leb a b = true.
Proof.
  destruct a as [a| | |], b as [b| | |]; simpl; try discriminate; try reflexivity.
  intros H. apply Qeq_bool_iff in H. apply Qle_bool_iff. lra.
Qed.

(** The neighbours of a local maximum are not above it. *)
Lemma local_maximum_neighbours (x : list float) (p l r : nat) :
  local_maximum x p l r ->
  (0 < p)%nat /\ (p + 1 < length x)%nat
  /\ leb (nth (p - 1) x NaN) (nth p x NaN) = true
  /\ leb (nth (p + 1) x NaN) (nth p x NaN) = true.
Proof.
  intros (H1 & H2 & H3 & Hl & Hr & Hflat).
  split; [lia|]. split; [lia|]. split.
  - destruct (Nat.eq_dec (p - 1) l) as [->|Hne]; [now apply ltb_leb|].
    apply eqb_leb, Hflat; lia.
  - destruct (Nat.eq_dec (p + 1) r) as [->|Hne]; [now apply ltb_leb|].
    apply eqb_leb, Hflat; lia.
Qed.

Lemma find_peaks_height_shape (x : list float) (height : float) (p : nat) :
  In p (find_peaks_height x height) ->
  leb height (nth p x NaN) = true /\ exists l r, local_maximum x p l r.
Proof.
  unfold find_peaks_height, local_maxima. intros Hin.
  apply filter_In in Hin as [Hin Hh]. split; [exact Hh|].
  destruct x as [|x0 x]; [contradiction|].
  apply (local_maxima_loop_shape (length (x0 :: x)) (x0 :: x) (length (x0 :: x) - 1))
    with (i := 1%nat); [simpl; lia|lia|exact Hin].
Qed.

Lemma find_peaks_height_increasing (x : list float) (height : float) :
  increasing (find_peaks_height x height).
Proof. apply increasing_filter, local_maxima_loop_increasing. Qed.

Lemma autocorr_nth (series : list float) (n p : nat) :
  (p < n)%nat ->
  nth p (map (series_autocorr series) (seq 1 n)) NaN = series_autocorr series (p + 1).
Proof.
  intros Hp. rewrite (nth_map_in _ _ p NaN 0%nat) by now rewrite length_seq.
  rewrite seq_nth by assumption. f_equal. lia.
Qed.

(** X16. [detect_seasonality] reports seasonality exactly when it lists a
    peak lag.  Every lag it lists is at least 2 and leaves one lag tested
    after it; the autocorrelation at that lag is at least 0.5 and not
    below the autocorrelations at the lags next to it.  The primary period
    is the smallest lag listed.  A series of fewer than 4 points, or a
    [max_lag] below 4, never shows seasonality. *)
Theorem seasonality_is_a_peak_of_autocorrelation (series : list float) (max_lag : Z) :
  let s := detect_seasonality series max_lag in
  let bound := lag_bound series max_lag in
  (has_seasonality s = true <-> peak_lags s <> [])
  /\ (has_seasonality s = false <-> primary_period s = None)
  /\ (forall lag, In lag (peak_lags s) ->
        (2 <= lag)%nat /\ (lag + 1 < bound)%nat
        /\ leb (Fin (1 # 2)) (series_autocorr series lag) = true
        /\ leb (series_autocorr series (lag - 1)) (series_autocorr series lag) = true
        /\ leb (series_autocorr series (lag + 1)) (series_autocorr series lag) = true)
  /\ (forall period, primary_period s = Some period ->
        In period (peak_lags s)
        /\ forall lag, In lag (peak_lags s) -> (period <= lag)%nat)
  /\ ((bound < 4)%nat -> has_seasonality s = false).
Proof.
  cbv zeta. unfold detect_seasonality.
  set (n := (lag_bound series max_lag - 1)%nat).
  set (ac := map (series_autocorr series) (seq 1 n)).
  assert (Hlen : length ac = n) by (unfold ac; now rewrite length_map, length_seq).
  assert (Hpeak : forall p, In p (find_peaks_height ac (Fin (1 # 2))) ->
            (1 <= p)%nat /\ (p + 1 < n)%nat
            /\ leb (Fin (1 # 2)) (series_autocorr series (p + 1)) = true
            /\ leb (series_autocorr series p) (series_autocorr series (p + 1)) = true
            /\ leb (series_autocorr series (p + 2)) (series_autocorr series (p + 1))
               = true).
  { intros p Hp. apply find_peaks_height_shape in Hp as (Hh & l & r & Hm).
    apply local_maximum_neighbours in Hm as (H0 & H1 & Hl & Hr).
    rewrite Hlen in H1. unfold ac in Hh, Hl, Hr.
    rewrite (autocorr_nth series n p) in Hh, Hl, Hr by lia.
    rewrite (autocorr_nth series n (p - 1)) in Hl by lia.
    rewrite (autocorr_nth series n (p + 1)) in Hr by lia.
    replace (p - 1 + 1)%nat with p in Hl by lia.
    replace (p + 1 + 1)%nat with (p + 2)%nat in Hr by lia.
    split; [lia|]. split; [exact H1|]. split; [exact Hh|]. split; assumption. }
  pose proof (find_peaks_height_increasing ac (Fin (1 # 2))) as Hinc.
  destruct (find_peaks_height ac (Fin (1 # 2))) as [|p0 peaks] eqn:Epeaks.
  - cbn [length Nat.ltb Nat.leb has_seasonality primary_period peak_lags].
    split; [split; [discriminate|congruence]|].
    split; [split; reflexivity|].
    split; [intros lag []|]. split; [discriminate|reflexivity].
  - cbn [length Nat.ltb Nat.leb has_seasonality primary_period peak_lags hd].
    split; [split; [discriminate|reflexivity]|].
    split; [split; discriminate|].
    assert (Hlags : forall lag, In lag (map (fun p => (p + 1)%nat) (p0 :: peaks)) ->
              exists p, In p (p0 :: peaks) /\ lag = (p + 1)%nat).
    { intros lag Hin. apply in_map_iff in Hin as (p & <- & Hp). eauto. }
    split; [|split].
    + intros lag Hin. destruct (Hlags lag Hin) as (p & Hp & ->).
      destruct (Hpeak p Hp) as (H1 & H2 & Hh & Hl & Hr).
      replace (p + 1 - 1)%nat with p by lia.
      replace (p + 1 + 1)%nat with (p + 2)%nat by lia.
      split; [lia|]. split; [unfold n in H2; lia|]. split; [exact Hh|].
      split; assumption.
    + intros period [= <-]. split; [now left|].
      intros lag Hin. destruct (Hlags lag Hin) as (p & [<-|Hp] & ->); [lia|].
      destruct Hinc as [Hall _]. rewrite Forall_forall in Hall.
      specialize (Hall p Hp). lia.
    + intros Hb. exfalso. destruct (Hpeak p0 (or_introl eq_refl)) as (H1 & H2 & _).
      unfold n in H2. lia.
Qed.

(** ** The sales report *)

Lemma nth_error_update_same (h : store) (r : ref) (d d' : DataFrame) :
  nth_error h r = Some d -> nth_error (update r d' h) r = Some d'.
Proof.
  revert r. induction h as [|x h IH]; intros [|r]; simpl; try discriminate.
  - reflexivity.
  - apply IH.
Qed.

Lemma nth_error_update_other (h : store) (r r' : ref) (d' : DataFrame) :
  r' <> r -> nth_error (update r d' h) r' = nth_error h r'.
Proof.
  revert r r'. induction h as [|x h IH]; intros [|r] [|r'] Hne; simpl;
    try reflexivity; try congruence.
  apply IH. congruence.
Qed.

Lemma update_length (h : store) (r : ref) (d' : DataFrame) :
  length (update r d' h) = length h.
Proof.
  revert r. induction h as [|x h IH]; intros [|r]; simpl; try reflexivity.
  now rewrite IH.
Qed.

Lemma assoc_take (name : string) (perm : list nat) (cols : list (string * column)) :
  assoc name (map (fun nc => (fst nc, take perm (snd nc))) cols)
  = match assoc name cols with
    | Some c => Some (take perm c)
    | None => None
    end.
Proof.
  induction cols as [|[k c] cols IH]; [reflexivity|].
  cbn [map assoc fst snd]. destruct (String.eqb k name); [reflexivity|exact IH].
Qed.

Lemma assoc_dropped (name other : string) (cols : list (string * column)) :
  assoc name (filter (fun nc => negb (String.eqb (fst nc) other)) cols)
  = if String.eqb name other then None else assoc name cols.
Proof.
  induction cols as [|[k c] cols IH].
  - cbn. now destruct (String.eqb name other).
  - cbn [filter assoc fst]. destruct (String.eqb k other) eqn:Ek; cbn [negb].
    + apply String.eqb_eq in Ek. subst k. rewrite IH.
      destruct (String.eqb name other) eqn:En; [reflexivity|].
      rewrite String.eqb_sym, En. reflexivity.
    + cbn [assoc]. destruct (String.eqb k name) eqn:Ekn.
      * apply String.eqb_eq in Ekn. subst k. now rewrite Ek.
      * exact IH.
Qed.

(** What [analyze_sales_trends] does, once the date column is converted:
    the caller's table is updated, two tables are allocated, and the
    analyses run on the value column of the second. *)
Lemma analyze_sales_trends_run (h : store) (df : ref) (d : DataFrame)
    (date_column value_column : string) (forecast_days : Z)
    (dates converted : column) :
  nth_error h df = Some d ->
  assoc date_column (columns d) = Some dates ->
  pd_to_datetime dates = Ok converted ->
  let d1 := set_column d date_column converted in
  let d2 := sorted_by d1 converted in
  analyze_sales_trends df date_column value_column forecast_days h
  = (match (if String.eqb value_column date_column then None
            else assoc value_column (columns d)) with
     | Some values => report_of (sales_series converted values) forecast_days
     | None => Raise KeyError
     end,
     update df d1 h ++ [d2; drop_column d2 date_column]).
Proof.
  intros Hd Hdates Hconv. cbv zeta.
  set (d1 := set_column d date_column converted).
  set (d2 := sorted_by d1 converted).
  set (h1 := update df d1 h).
  assert (H1 : nth_error h1 df = Some d1) by (apply (nth_error_update_same h df d), Hd).
  assert (Hkey : assoc date_column (columns d1) = Some converted)
    by apply column_set_same.
  assert (Hkey2 : assoc date_column (columns d2) = Some (take (argsort converted) converted)).
  { unfold d2, sorted_by. cbn [columns]. now rewrite assoc_take, Hkey. }
  unfold analyze_sales_trends.
  rewrite (bind_getitem_at h df d _ dates _ Hd Hdates).
  rewrite bind_lift, Hconv.
  unfold bind at 1. unfold df_setitem at 1. unfold bind at 1, deref at 1, write at 1.
  rewrite Hd. fold d1. fold h1.
  unfold bind at 1. unfold df_sort_values at 1. unfold bind at 1, deref at 1.
  rewrite H1, Hkey. unfold alloc at 1. fold d2.
  unfold bind at 1. unfold df_set_index at 1. unfold bind at 1, deref at 1.
  assert (H2 : nth_error (h1 ++ [d2]) (length h1) = Some d2) by apply nth_error_last.
  rewrite H2, Hkey2. unfold alloc at 1.
  assert (H3 : nth_error ((h1 ++ [d2]) ++ [drop_column d2 date_column])
                 (length (h1 ++ [d2])) = Some (drop_column d2 date_column))
    by apply nth_error_last.
  assert (Hval : assoc value_column (columns (drop_column d2 date_column))
                 = if String.eqb value_column date_column then None
                   else match assoc value_column (columns d) with
                        | Some c => Some (take (argsort converted) c)
                        | None => None
                        end).
  { unfold drop_column. cbn [columns]. rewrite assoc_dropped.
    destruct (String.eqb value_column date_column) eqn:E; [reflexivity|].
    unfold d2, sorted_by. cbn [columns]. rewrite assoc_take.
    unfold d1. rewrite column_set_other; [reflexivity|].
    now rewrite String.eqb_sym. }
  replace (h1 ++ [d2; drop_column d2 date_column])
    with ((h1 ++ [d2]) ++ [drop_column d2 date_column])
    by (now rewrite <- app_assoc).
  set (h3 := (h1 ++ [d2]) ++ [drop_column d2 date_column]) in *.
  unfold bind at 1. unfold df_getitem at 1. unfold bind at 1, deref at 1.
  rewrite H3, Hval.
  destruct (String.eqb value_column date_column); [reflexivity|].
  destruct (assoc value_column (columns d)) as [c|]; [|reflexivity].
  unfold ret at 1. cbv zeta. fold (sales_series converted c).
  set (series := sales_series converted c).
  rewrite bind_lift. unfold report_of.
  destruct (detect_trend_direction series default_trend_window) as [t|e];
    [|reflexivity].
  cbn [and_then]. rewrite bind_lift.
  destruct (calculate_growth_metrics series) as [g|e]; [|reflexivity].
  cbn [and_then]. rewrite bind_lift.
  destruct (forecast_linear_trend series forecast_days) as [f|e]; reflexivity.
Qed.

(** X17. [analyze_sales_trends] changes the table it is given: when the
    table has the date column and the conversion to dates succeeds, the
    call leaves that column replaced by the converted dates, whether the
    analysis then returns or raises; every other table stays as it was.
    When the date column is missing ([KeyError]) or the conversion raises,
    nothing is changed. *)
Theorem sales_analysis_overwrites_the_date_column (h : store) (df : ref)
    (d : DataFrame) (date_column value_column : string) (forecast_days : Z) :
  nth_error h df = Some d ->
  match assoc date_column (columns d) with
  | None =>
      analyze_sales_trends df date_column value_column forecast_days h
      = (Raise KeyError, h)
  | Some dates =>
      match pd_to_datetime dates with
      | Raise e =>
          analyze_sales_trends df date_column value_column forecast_days h
          = (Raise e, h)
      | Ok converted =>
          exists res h',
            analyze_sales_trends df date_column value_column forecast_days h
            = (res, h')
            /\ nth_error h' df = Some (set_column d date_column converted)
            /\ forall r d0, r <> df -> nth_error h r = Some d0 ->
                 nth_error h' r = Some d0
      end
  end.
Proof.
  intros Hd.
  destruct (assoc date_column (columns d)) as [dates|] eqn:Hdates.
  - destruct (pd_to_datetime dates) as [converted|e] eqn:Hconv.
    + eexists _, _.
      split; [exact (analyze_sales_trends_run h df d date_column value_column
                       forecast_days dates converted Hd Hdates Hconv)|].
      assert (Hlt : (df < length h)%nat) by (apply nth_error_Some; congruence).
      split.
      * rewrite nth_error_app1 by (rewrite update_length; exact Hlt).
        exact (nth_error_update_same h df d _ Hd).
      * intros r d0 Hne Hr.
        assert (Hr' : (r < length h)%nat) by (apply nth_error_Some; congruence).
        rewrite nth_error_app1 by (rewrite update_length; exact Hr').
        now rewrite nth_error_update_other.
    + unfold analyze_sales_trends.
      rewrite (bind_getitem_at h df d _ dates _ Hd Hdates).
      now rewrite bind_lift, Hconv.
  - unfold analyze_sales_trends, bind at 1, df_getitem, bind, deref.
    now rewrite Hd, Hdates.
Qed.

Lemma insert_key_permutation (k : float * nat) (l : list (float * nat)) :
  Permutation (insert_key k l) (k :: l).
Proof.
  induction l as [|x l IH]; [apply Permutation_refl|].
  cbn [insert_key]. destruct (key_le (fst x) (fst k)); [|apply Permutation_refl].
  apply perm_trans with (x :: k :: l); [now apply perm_skip|apply perm_swap].
Qed.

Lemma sort_keys_permutation (keys : list (float * nat)) :
  Permutation (sort_keys keys) keys.
Proof.
  unfold sort_keys.
  assert (G : forall acc, Permutation (fold_left (fun acc k => insert_key k acc) keys acc)
                            (keys ++ acc)).
  { induction keys as [|k keys IH]; intros acc; [apply Permutation_refl|].
    cbn [fold_left]. eapply perm_trans; [apply IH|].
    eapply perm_trans; [apply Permutation_app_head, insert_key_permutation|].
    change (k :: keys ++ acc) with ((k :: keys) ++ acc)%list.
    cbn [app]. apply Permutation_sym, Permutation_middle. }
  specialize (G []). now rewrite app_nil_r in G.
Qed.

Lemma snd_combine {A B : Type} (l : list A) (l' : list B) :
  length l = length l' -> map snd (combine l l') = l'.
Proof.
  revert l'. induction l as [|a l IH]; intros [|b l'] Hlen; simpl in *;
    try reflexivity; try discriminate.
  f_equal. apply IH. lia.
Qed.

Lemma argsort_permutation (c : column) : Permutation (argsort c) (seq 0 (length c)).
Proof.
  unfold argsort. eapply perm_trans; [apply Permutation_map, sort_keys_permutation|].
  rewrite snd_combine; [apply Permutation_refl|].
  unfold floats. now rewrite length_map, length_seq.
Qed.

Lemma take_all (c : column) : take (seq 0 (length c)) c = c.
Proof.
  unfold take. apply nth_ext with (d := missing) (d' := missing).
  - now rewrite length_map, length_seq.
  - intros i Hi. rewrite length_map, length_seq in Hi.
    rewrite (nth_map_in _ _ i missing 0%nat) by now rewrite length_seq.
    now rewrite seq_nth.
Qed.



Lemma finite_column_spec (c : column) :
  finite_column c = true <-> Forall (fun x => is_finite x = true) (floats c).
Proof.
  unfold finite_column, floats. rewrite forallb_forall, Forall_map, Forall_forall.
  reflexivity.
Qed.





(** * The rows and columns of [detect_all] *)

Lemma writes_only_incl (O O' : list string) (d d' : DataFrame) :
  incl O O' -> writes_only O d d' -> writes_only O' d d'.
Proof.
  unfold writes_only. intros Hin (Hn & (added & Hnames & Hadded) & Hother).
  split; [exact Hn|]. split.
  - exists added. split; [exact Hnames|]. intros x Hx. auto.
  - intros name Hname. apply Hother. intros Hc. apply Hname. auto.
Qed.

Lemma writes_only_trans (O : list string) (d d1 d2 : DataFrame) :
  writes_only O d d1 -> writes_only O d1 d2 -> writes_only O d d2.
Proof.
  unfold writes_only.
  intros (Hn & (a1 & Hnames1 & Ha1) & Ho1) (Hn2 & (a2 & Hnames2 & Ha2) & Ho2).
  split; [congruence|]. split.
  - exists (a1 ++ a2). split; [now rewrite Hnames2, Hnames1, app_assoc|].
    intros x Hx. apply in_app_or in Hx as [Hx|Hx]; auto.
  - intros name Hname. rewrite Ho2 by assumption. now apply Ho1.
Qed.

Lemma zscore_frame_writes (d d' : DataFrame) (col : string) (t : float) :
  zscore_frame d col t = Ok d' -> writes_only (zscore_outputs col) d d'.
Proof.
  unfold zscore_frame. destruct (assoc col (columns d)); [|discriminate].
  intros [= <-]. unfold zscore_outputs. written.
Qed.

Lemma iqr_frame_writes (d d' : DataFrame) (col : string) (m : float) :
  iqr_frame d col m = Ok d' -> writes_only (iqr_outputs col) d d'.
Proof.
  unfold iqr_frame. destruct (assoc col (columns d)); [|discriminate].
  intros [= <-]. unfold iqr_outputs. written.
Qed.

Lemma ma_frame_writes (d d' : DataFrame) (col : string) (w : nat) (t : float) :
  ma_frame d col w t = Ok d' -> writes_only (ma_outputs col) d d'.
Proof.
  unfold ma_frame. destruct (assoc col (columns d)); [|discriminate].
  intros [= <-]. unfold ma_outputs. written.
Qed.

Lemma isolation_forest_frame_writes self (d d' : DataFrame) (features : list string) :
  isolation_forest_frame self d features = Ok d' -> writes_only forest_outputs d d'.
Proof.
  unfold isolation_forest_frame.
  destruct (select d features); [|discriminate].
  destruct (check_array _) as [[]|]; [|discriminate].
  destruct (check_contamination _) as [[]|]; [|discriminate].
  intros [= <-]. unfold forest_outputs. written.
Qed.

Lemma column_pass_writes (date_column : option string) (d d' : DataFrame)
    (col : string) :
  column_pass date_column d col = Ok d' ->
  writes_only (column_outputs date_column col) d d'.
Proof.
  unfold column_pass, and_then, column_outputs.
  destruct (zscore_frame d col default_zscore_threshold) as [d1|] eqn:E1; [|discriminate].
  destruct (iqr_frame d1 col default_iqr_multiplier) as [d2|] eqn:E2; [|discriminate].
  apply zscore_frame_writes in E1. apply iqr_frame_writes in E2.
  set (O := zscore_outputs col ++ iqr_outputs col
            ++ (if truthy date_column then ma_outputs col else [])).
  assert (H1 : writes_only O d d1).
  { apply (writes_only_incl (zscore_outputs col)); [|exact E1].
    intros x Hx. unfold O. apply in_or_app. now left. }
  assert (H2 : writes_only O d1 d2).
  { apply (writes_only_incl (iqr_outputs col)); [|exact E2].
    intros x Hx. unfold O. apply in_or_app. right. apply in_or_app. now left. }
  destruct (truthy date_column) eqn:Ht.
  - intros E3. apply ma_frame_writes in E3.
    apply (writes_only_trans O d d2); [now apply (writes_only_trans O d d1)|].
    apply (writes_only_incl (ma_outputs col)); [|exact E3].
    intros x Hx. unfold O. apply in_or_app. right. apply in_or_app. now right.
  - intros [= <-]. now apply (writes_only_trans O d d1).
Qed.

Lemma columns_pass_writes (date_column : option string) (cols : list string) :
  forall d d', columns_pass date_column cols d = Ok d' ->
  writes_only (flat_map (column_outputs date_column) cols) d d'.
Proof.
  induction cols as [|col rest IH]; intros d d'; cbn [columns_pass flat_map].
  - intros [= <-]. apply writes_only_refl.
  - unfold and_then.
    destruct (column_pass date_column d col) as [d1|] eqn:E1; [|discriminate].
    intros E2. apply column_pass_writes in E1. apply IH in E2.
    apply (writes_only_trans _ d d1).
    + apply (writes_only_incl _ _ _ _ (incl_appl _ (incl_refl _)) E1).
    + apply (writes_only_incl _ _ _ _ (incl_appr _ (incl_refl _)) E2).
Qed.

Lemma consensus_frame_writes (d : DataFrame) :
  writes_only ["anomaly_count"%string; "is_anomaly_consensus"%string] d
    (consensus_frame d).
Proof. unfold consensus_frame. written. Qed.

Lemma key_le_total (a b : float) : key_le a b = false -> key_le b a = true.
Proof.
  unfold key_le. destruct a as [a| | |], b as [b| | |]; simpl;
    try discriminate; try reflexivity.
  intros H. apply Qle_bool_iff. apply Qlt_le_weak. apply Qltb_iff.
  unfold Qltb. now rewrite H.
Qed.

Lemma key_le_trans (a b c : float) :
  key_le a b = true -> key_le b c = true -> key_le a c = true.
Proof.
  unfold key_le. destruct a as [a| | |], b as [b| | |], c as [c| | |]; simpl;
    try discriminate; try reflexivity.
  rewrite !Qle_bool_iff. apply Qle_trans.
Qed.

Lemma insert_key_ordered (k : float * nat) (l : list (float * nat)) :
  ordered_keys (map fst l) -> ordered_keys (map fst (insert_key k l)).
Proof.
  induction l as [|h t IH]; intros Hl.
  - cbn. split; [constructor|exact I].
  - cbn [insert_key]. cbn [map ordered_keys] in Hl. destruct Hl as [Hh Ht].
    destruct (key_le (fst h) (fst k)) eqn:E.
    + cbn [map ordered_keys]. split; [|now apply IH].
      apply Forall_forall. intros y Hy. apply in_map_iff in Hy as (p & <- & Hp).
      apply (Permutation_in _ (insert_key_permutation k t)) in Hp.
      destruct Hp as [<-|Hp]; [exact E|].
      rewrite Forall_forall in Hh. apply Hh. now apply in_map.
    + apply key_le_total in E. cbn [map ordered_keys].
      split; [|split; assumption].
      constructor; [exact E|].
      eapply Forall_impl; [|exact Hh]. intros y Hy. cbv beta in Hy.
      exact (key_le_trans _ _ _ E Hy).
Qed.

Lemma sort_keys_ordered (keys : list (float * nat)) :
  ordered_keys (map fst (sort_keys keys)).
Proof.
  unfold sort_keys.
  assert (G : forall acc, ordered_keys (map fst acc) ->
              ordered_keys (map fst (fold_left (fun acc k => insert_key k acc) keys acc))).
  { induction keys as [|k keys IH]; intros acc Hacc; [exact Hacc|].
    cbn [fold_left]. apply IH. now apply insert_key_ordered. }
  apply G. exact I.
Qed.

Lemma combine_seq_in {A : Type} (l : list A) (d : A) (x : A) (i : nat) :
  In (x, i) (combine l (seq 0 (length l))) -> x = nth i l d.
Proof.
  intros Hin. apply (In_nth _ _ (d, 0%nat)) in Hin as (n & Hn & Hnth).
  rewrite combine_nth in Hnth by now rewrite length_seq.
  rewrite length_combine, length_seq, Nat.min_id in Hn.
  rewrite seq_nth in Hnth by assumption. cbn [Nat.add] in Hnth.
  now injection Hnth as <- <-.
Qed.

(** The keys of the sorted table, read through the permutation. *)
Lemma sorted_keys (key : column) :
  floats (take (argsort key) key)
  = map fst (sort_keys (combine (floats key) (seq 0 (length key)))).
Proof.
  unfold take, argsort, floats. rewrite !map_map.
  apply map_ext_in. intros [f i] Hin. cbn [fst snd].
  apply (Permutation_in _ (sort_keys_permutation _)) in Hin.
  replace (length key) with (length (map cell_float key)) in Hin
    by apply length_map.
  apply (combine_seq_in _ NaN) in Hin. subst f.
  change NaN with (cell_float missing). symmetry. apply map_nth.
Qed.

Lemma sorted_keys_ordered (key : column) :
  ordered_keys (floats (take (argsort key) key)).
Proof. rewrite sorted_keys. apply sort_keys_ordered. Qed.

(** X19. The table [detect_all] returns holds the rows of its input: when
    a date column is given, reordered by that column (the same reordering
    for every column, a permutation of the row numbers, dates ascending
    with the missing ones last), otherwise in the order they had.  The
    input's columns keep their place, apart from those named like an output
    of a detector, and only such outputs are added. *)
Theorem detect_all_keeps_the_rows self (h : store) (data : ref) (d d' : DataFrame)
    (numeric_columns : list string) (date_column : option string) :
  nth_error h data = Some d ->
  returns (detect_all self data numeric_columns date_column) h d' ->
  let outputs := detect_all_outputs numeric_columns date_column in
  if truthy date_column
  then exists key,
         assoc (date_name date_column) (columns d) = Some key
         /\ writes_only outputs (sorted_by d key) d'
         /\ Permutation (argsort key) (seq 0 (length key))
         /\ ordered_keys (floats (take (argsort key) key))
         /\ forall name c, assoc name (columns d) = Some c -> ~ In name outputs ->
              assoc name (columns d') = Some (take (argsort key) c)
  else writes_only outputs d d'.
Proof.
  intros Hd Hret. cbv zeta.
  pose proof (detect_all_runs self h data d numeric_columns date_column Hd) as Hruns.
  pose proof (returns_of_runs_as _ _ _ _ Hruns Hret) as Ef.
  unfold detect_all_frame, and_then in Ef.
  destruct (sort_frame d date_column) as [d0|] eqn:E0; [|discriminate].
  destruct (isolation_forest_frame self d0 numeric_columns) as [d1|] eqn:E1;
    [|discriminate].
  destruct (columns_pass date_column numeric_columns d1) as [d2|] eqn:E2;
    [|discriminate].
  injection Ef as <-.
  set (O := detect_all_outputs numeric_columns date_column).
  assert (Hw : writes_only O d0 (consensus_frame d2)).
  { apply isolation_forest_frame_writes in E1. apply columns_pass_writes in E2.
    apply (writes_only_trans O d0 d2); [apply (writes_only_trans O d0 d1)|].
    - apply (writes_only_incl _ _ _ _ (incl_appl _ (incl_refl _)) E1).
    - apply (writes_only_incl (flat_map (column_outputs date_column) numeric_columns));
        [|exact E2].
      unfold O, detect_all_outputs. apply incl_appr, incl_appl, incl_refl.
    - apply (writes_only_incl ["anomaly_count"%string; "is_anomaly_consensus"%string]);
        [|apply consensus_frame_writes].
      unfold O, detect_all_outputs. apply incl_appr, incl_appr, incl_refl. }
  unfold sort_frame in E0. destruct (truthy date_column).
  - destruct (assoc (date_name date_column) (columns d)) as [key|] eqn:Hkey;
      [|discriminate].
    injection E0 as <-. exists key. split; [reflexivity|]. split; [exact Hw|].
    split; [apply argsort_permutation|]. split; [apply sorted_keys_ordered|].
    intros name c Hc Hname. destruct Hw as (_ & _ & Hother).
    rewrite (Hother name Hname). unfold sorted_by. cbn [columns].
    now rewrite assoc_take, Hc.
  - now injection E0 as <-.
Qed.

(** * The daily sales table *)

Lemma bind_getitem_cases {B : Type} (h : store) (r : ref) (d : DataFrame)
    (name : string) (k : column -> M B) :
  nth_error h r = Some d ->
  bind (df_getitem r name) k h
  = match assoc name (columns d) with
    | Some c => k c h
    | None => (Raise KeyError, h)
    end.
Proof.
  intros Hr. unfold bind, df_getitem, bind, deref. rewrite Hr.
  now destruct (assoc name (columns d)).
Qed.

(** The function runs as [daily_sales_frame] on the six columns, in a new
    object; a missing column raises and nothing is allocated. *)
Lemma prepare_sales_data_run (h : store) (df : ref) (d : DataFrame) :
  nth_error h df = Some d ->
  prepare_sales_data_for_anomaly_detection df h
  = match assoc "Date" (columns d), assoc "SalesAmount" (columns d),
          assoc "Quantity" (columns d), assoc "GrossProfit" (columns d),
          assoc "OrderNumber" (columns d), assoc "CustomerKey" (columns d) with
    | Some dates, Some sales, Some quantity, Some profit, Some orders,
      Some customers =>
        (Ok (length h),
         h ++ [daily_sales_frame dates sales quantity profit orders customers])
    | _, _, _, _, _, _ => (Raise KeyError, h)
    end.
Proof.
  intros Hd. unfold prepare_sales_data_for_anomaly_detection.
  rewrite (bind_getitem_cases h df d _ _ Hd).
  destruct (assoc "Date" (columns d)) as [dates|]; [|reflexivity].
  rewrite (bind_getitem_cases h df d _ _ Hd).
  destruct (assoc "SalesAmount" (columns d)) as [sales|]; [|reflexivity].
  rewrite (bind_getitem_cases h df d _ _ Hd).
  destruct (assoc "Quantity" (columns d)) as [quantity|]; [|reflexivity].
  rewrite (bind_getitem_cases h df d _ _ Hd).
  destruct (assoc "GrossProfit" (columns d)) as [profit|]; [|reflexivity].
  rewrite (bind_getitem_cases h df d _ _ Hd).
  destruct (assoc "OrderNumber" (columns d)) as [orders|]; [|reflexivity].
  rewrite (bind_getitem_cases h df d _ _ Hd).
  destruct (assoc "CustomerKey" (columns d)) as [customers|]; [|reflexivity].
  cbv zeta. unfold bind at 1. unfold alloc at 1.
  unfold daily_sales_frame. cbv zeta.
  set (keys := group_keys (floats dates)).
  set (groups := map (group_rows (floats dates)) keys).
  set (ts := map (group_sum sales) groups).
  set (tq := map (group_sum quantity) groups).
  set (tp := map (group_sum profit) groups).
  set (oc := map (group_nunique orders) groups).
  set (cc := map (group_nunique customers) groups).
  repeat (step; cbn [assoc columns nrows set_column assoc_set
                     String.eqb Ascii.eqb Bool.eqb]).
  reflexivity.
Qed.

(** ** Groups *)

Lemma eqb_sym (a b : float) : eqb a b = eqb b a.
Proof.
  destruct a as [a| | |], b as [b| | |]; simpl; try reflexivity.
  destruct (Qeq_bool b a) eqn:E.
  - apply Qeq_bool_iff in E. apply Qeq_bool_iff. now symmetry.
  - apply Qeq_bool_neq in E. destruct (Qeq_bool a b) eqn:E'; [|reflexivity].
    apply Qeq_bool_iff in E'. exfalso. apply E. now symmetry.
Qed.

Lemma eqb_trans (a b c : float) :
  eqb a b = true -> eqb b c = true -> eqb a c = true.
Proof.
  destruct a as [a| | |], b as [b| | |], c as [c| | |]; simpl;
    try discriminate; try reflexivity.
  rewrite !Qeq_bool_iff. intros -> ->. reflexivity.
Qed.

Lemma eqb_refl (a : float) : is_nan a = false -> eqb a a = true.
Proof.
  destruct a; simpl; try discriminate; try reflexivity.
  intros _. now apply Qeq_bool_iff.
Qed.

Lemma eqb_not_nan (a b : float) : eqb a b = true -> is_nan a = false.
Proof. destruct a, b; simpl; try discriminate; reflexivity. Qed.

Lemma occurrences_removed (x z : float) (l : list float) :
  occurrences x (filter (fun y => negb (eqb y z)) l)
  = if eqb x z then 0%nat else occurrences x l.
Proof.
  unfold occurrences. induction l as [|y l IH]; cbn [filter].
  - now destruct (eqb x z).
  - destruct (eqb y z) eqn:Eyz; cbn [negb filter].
    + rewrite IH. destruct (eqb x z) eqn:Exz; [reflexivity|].
      destruct (eqb x y) eqn:Exy; [|reflexivity].
      rewrite (eqb_trans x y z Exy Eyz) in Exz. discriminate.
    + destruct (eqb x y) eqn:Exy; cbn [length]; rewrite IH.
      * destruct (eqb x z) eqn:Exz; [|reflexivity].
        rewrite eqb_sym in Exy. rewrite (eqb_trans y x z Exy Exz) in Eyz.
        discriminate.
      * reflexivity.
Qed.

(** Each value occurs once among the distinct values. *)
Lemma occurrences_distinct (x : float) (l : list float) :
  occurrences x (distinct l) = if existsb (eqb x) l then 1%nat else 0%nat.
Proof.
  induction l as [|a l IH]; [reflexivity|].
  cbn [distinct existsb]. unfold occurrences in *. cbn [filter].
  pose proof (occurrences_removed x a (distinct l)) as Hr. unfold occurrences in Hr.
  destruct (eqb x a) eqn:E; cbn [length orb]; rewrite Hr; [reflexivity|exact IH].
Qed.

Lemma filter_length_permutation {A : Type} (f : A -> bool) (l l' : list A) :
  Permutation l l' -> length (filter f l) = length (filter f l').
Proof.
  induction 1 as [|x l l' _ IH|x y l|l l' l'' _ IH1 _ IH2]; cbn [filter].
  - reflexivity.
  - destruct (f x); cbn [length]; now rewrite IH.
  - destruct (f x), (f y); reflexivity.
  - congruence.
Qed.

Lemma insert_sorted_permutation (x : float) (l : list float) :
  Permutation (insert_sorted x l) (x :: l).
Proof.
  induction l as [|h t IH]; [apply Permutation_refl|].
  cbn [insert_sorted]. destruct (leb x h); [apply Permutation_refl|].
  apply perm_trans with (h :: x :: t); [now apply perm_skip|apply perm_swap].
Qed.

Lemma sort_permutation (l : list float) : Permutation (sort l) l.
Proof.
  induction l as [|x l IH]; [apply Permutation_refl|].
  cbn [sort fold_right]. eapply perm_trans; [apply insert_sorted_permutation|].
  now apply perm_skip.
Qed.

Lemma existsb_drop_nan (x : float) (l : list float) :
  existsb (eqb x) (drop_nan l) = existsb (eqb x) l.
Proof.
  unfold drop_nan. induction l as [|a l IH]; [reflexivity|].
  cbn [filter existsb]. destruct (is_nan a) eqn:E; cbn [negb existsb].
  - rewrite IH. destruct a; try discriminate. now destruct x.
  - now rewrite IH.
Qed.

(** One key for each date that occurs. *)
Lemma occurrences_group_keys (x : float) (dates : list float) :
  occurrences x (group_keys dates)
  = if existsb (eqb x) dates then 1%nat else 0%nat.
Proof.
  unfold group_keys, occurrences.
  rewrite (filter_length_permutation _ _ _ (sort_permutation _)).
  fold (occurrences x (distinct (drop_nan dates))).
  now rewrite occurrences_distinct, existsb_drop_nan.
Qed.

Lemma distinct_in (x : float) (l : list float) : In x (distinct l) -> In x l.
Proof.
  induction l as [|a l IH]; [trivial|]. cbn [distinct].
  intros [<-|Hin]; [now left|]. apply filter_In in Hin as [Hin _]. right. now apply IH.
Qed.

Lemma group_keys_in (k : float) (dates : list float) :
  In k (group_keys dates) -> In k dates /\ is_nan k = false.
Proof.
  unfold group_keys. intros Hin.
  apply (Permutation_in _ (sort_permutation _)) in Hin.
  apply distinct_in in Hin. unfold drop_nan in Hin.
  apply filter_In in Hin as [Hin Hn]. split; [exact Hin|].
  now apply negb_true_iff in Hn.
Qed.

Lemma group_keys_ascending (dates : list float) :
  all_finite dates -> ascending (group_keys dates).
Proof.
  intros Hf. unfold group_keys. apply sort_ascending.
  apply Forall_forall. intros x Hx. apply distinct_in in Hx.
  unfold drop_nan in Hx. apply filter_In in Hx as [Hx _].
  unfold all_finite in Hf. rewrite Forall_forall in Hf. now apply Hf.
Qed.

Lemma daily_sales_names (dates sales quantity profit orders customers : column) :
  col_names (daily_sales_frame dates sales quantity profit orders customers)
  = daily_sales_columns.
Proof. reflexivity. Qed.

Lemma has_columns_assoc (d : DataFrame) (names : list string) :
  forallb (has_column d) names = true ->
  forall n, In n names -> exists c, assoc n (columns d) = Some c.
Proof.
  intros Hall n Hn. rewrite forallb_forall in Hall.
  apply has_column_assoc. now apply Hall.
Qed.

(** X20. [prepare_sales_data_for_anomaly_detection] returns exactly when
    the table has the six columns it reads, and raises [KeyError]
    otherwise; it changes no table.  The table it returns is a new object
    with the nine columns Date ... ProfitMargin, in that order, and one row
    for each distinct date of the input: no date is missing in it, each
    date that occurs in the input occurs once, no other date occurs, and
    (for finite dates) the dates are in ascending order. *)
Theorem daily_sales_has_one_row_per_date (h : store) (df : ref) (d : DataFrame) :
  nth_error h df = Some d ->
  if forallb (has_column d) sales_columns
  then exists daily dates keys,
         prepare_sales_data_for_anomaly_detection df h
         = (Ok (length h), h ++ [daily])
         /\ col_names daily = daily_sales_columns
         /\ assoc "Date" (columns d) = Some dates
         /\ assoc "Date" (columns daily) = Some (map CNum keys)
         /\ nrows daily = length keys
         /\ Forall (fun k => is_nan k = false) keys
         /\ (forall x, occurrences x keys
                       = if existsb (eqb x) (floats dates) then 1%nat else 0%nat)
         /\ (finite_column dates = true -> ascending keys)
  else prepare_sales_data_for_anomaly_detection df h = (Raise KeyError, h).
Proof.
  intros Hd. rewrite (prepare_sales_data_run h df d Hd).
  destruct (forallb (has_column d) sales_columns) eqn:Hall.
  - pose proof (has_columns_assoc d sales_columns Hall) as Hcols.
    destruct (Hcols "Date"%string) as [dates ->]; [simpl; auto|].
    destruct (Hcols "SalesAmount"%string) as [sales ->]; [simpl; auto|].
    destruct (Hcols "Quantity"%string) as [quantity ->]; [simpl; auto|].
    destruct (Hcols "GrossProfit"%string) as [profit ->]; [simpl; auto|].
    destruct (Hcols "OrderNumber"%string) as [orders ->]; [simpl; auto 6|].
    destruct (Hcols "CustomerKey"%string) as [customers ->]; [simpl; auto 7|].
    exists (daily_sales_frame dates sales quantity profit orders customers), dates,
      (group_keys (floats dates)).
    split; [reflexivity|]. split; [reflexivity|]. split; [reflexivity|].
    split; [reflexivity|]. split; [reflexivity|]. split; [|split].
    + apply Forall_forall. intros k Hk. now apply group_keys_in in Hk.
    + intros x. apply occurrences_group_keys.
    + intros Hf. apply group_keys_ascending. now apply finite_column_spec.
  - assert (Hmiss : exists n, In n sales_columns /\ assoc n (columns d) = None).
    { destruct (forallb_forall (has_column d) sales_columns) as [_ Hback].
      destruct (existsb (fun n => negb (has_column d n)) sales_columns) eqn:Ex.
      - apply existsb_exists in Ex as (n & Hn & Hneg). exists n. split; [exact Hn|].
        apply negb_true_iff in Hneg. now apply has_column_false.
      - rewrite Hback in Hall; [discriminate|]. intros n Hn.
        destruct (has_column d n) eqn:E; [reflexivity|].
        assert (Ht : existsb (fun n => negb (has_column d n)) sales_columns = true)
          by (apply existsb_exists; exists n; split; [exact Hn|now rewrite E]).
        congruence. }
    destruct Hmiss as (n & Hn & Hnone).
    destruct (assoc "Date" (columns d)) as [dates|] eqn:E1; [|reflexivity].
    destruct (assoc "SalesAmount" (columns d)) as [sales|] eqn:E2; [|reflexivity].
    destruct (assoc "Quantity" (columns d)) as [quantity|] eqn:E3; [|reflexivity].
    destruct (assoc "GrossProfit" (columns d)) as [profit|] eqn:E4; [|reflexivity].
    destruct (assoc "OrderNumber" (columns d)) as [orders|] eqn:E5; [|reflexivity].
    destruct (assoc "CustomerKey" (columns d)) as [customers|] eqn:E6; [|reflexivity].
    exfalso. unfold sales_columns in Hn.
    repeat (destruct Hn as [<-|Hn]; [congruence|]). exact Hn.
Qed.

(** ** The sums over the groups *)

Lemma sum_of_finite (qs : list Q) : sum (map Fin qs) = Fin (Qsum qs).
Proof.
  induction qs as [|q qs IH]; [reflexivity|].
  unfold sum in *. cbn [map fold_right]. rewrite IH. reflexivity.
Qed.

Lemma drop_nan_of_finite (qs : list Q) : drop_nan (map Fin qs) = map Fin qs.
Proof.
  unfold drop_nan. induction qs as [|q qs IH]; [reflexivity|].
  cbn [map filter is_nan negb]. now rewrite IH.
Qed.

(** The values of a group of rows of a finite column. *)
Lemma group_values_finite (c : column) (rows : list nat) :
  finite_column c = true -> Forall (fun i => (i < length c)%nat) rows ->
  group_values c rows
  = map Fin (map (fun i => to_Q (cell_float (nth i c missing))) rows).
Proof.
  intros Hf Hrows. unfold group_values. rewrite map_map.
  apply map_ext_in. intros i Hi. rewrite Forall_forall in Hrows.
  unfold finite_column in Hf. rewrite forallb_forall in Hf.
  specialize (Hf _ (nth_In c missing (Hrows i Hi))).
  destruct (cell_float (nth i c missing)); try discriminate. reflexivity.
Qed.

Lemma Qsum_map_ext {A : Type} (f g : A -> Q) (l : list A) :
  (forall a, In a l -> f a == g a) -> Qsum (map f l) == Qsum (map g l).
Proof.
  induction l as [|a l IH]; intros Hfg; [reflexivity|].
  cbn [map]. change (f a + Qsum (map f l) == g a + Qsum (map g l)).
  rewrite (Hfg a (or_introl eq_refl)), IH; [reflexivity|].
  intros b Hb. apply Hfg. now right.
Qed.

Lemma Qsum_map_plus {A : Type} (f g : A -> Q) (l : list A) :
  Qsum (map (fun a => f a + g a) l) == Qsum (map f l) + Qsum (map g l).
Proof.
  induction l as [|a l IH]; [reflexivity|].
  cbn [map].
  change (f a + g a + Qsum (map (fun a => f a + g a) l)
          == f a + Qsum (map f l) + (g a + Qsum (map g l))).
  rewrite IH. ring.
Qed.

Lemma Qsum_indicator {A : Type} (f : A -> bool) (v : Q) (l : list A) :
  Qsum (map (fun a => if f a then v else 0) l)
  == v * inject_Z (Z.of_nat (length (filter f l))).
Proof.
  induction l as [|a l IH]; [cbn; ring|].
  cbn [map filter].
  change ((if f a then v else 0) + Qsum (map (fun a => if f a then v else 0) l)
          == v * inject_Z (Z.of_nat (length (if f a then a :: filter f l
                                             else filter f l)))).
  rewrite IH. destruct (f a); [|ring].
  cbn [length]. rewrite Nat2Z.inj_succ, <- Z.add_1_l, inject_Z_plus.
  change (inject_Z 1) with 1. ring.
Qed.

(** Summing group by group is summing over the rows, when each row
    belongs to one group. *)
Lemma Qsum_by_group (date : nat -> float) (q : nat -> Q) (keys : list float)
    (rows : list nat) :
  (forall i, In i rows -> occurrences (date i) keys = 1%nat) ->
  Qsum (map (fun k => Qsum (map q (filter (fun i => eqb (date i) k) rows))) keys)
  == Qsum (map q rows).
Proof.
  induction rows as [|i rows IH]; intros Hone.
  - cbn [filter map]. clear. induction keys as [|k keys IH]; [reflexivity|].
    cbn [map]. change (0 + Qsum (map (fun _ => Qsum []) keys) == 0).
    rewrite IH. reflexivity.
  - rewrite (Qsum_map_ext _
               (fun k => (if eqb (date i) k then q i else 0)
                         + Qsum (map q (filter (fun j => eqb (date j) k) rows)))).
    2:{ intros k _. cbn [filter]. destruct (eqb (date i) k); [reflexivity|].
        rewrite Qplus_0_l. reflexivity. }
    rewrite Qsum_map_plus, IH by (intros j Hj; apply Hone; now right).
    rewrite Qsum_indicator. fold (occurrences (date i) keys).
    rewrite (Hone i (or_introl eq_refl)). cbn [map].
    change (q i * 1 + Qsum (map q rows) == q i + Qsum (map q rows)). ring.
Qed.

Lemma dated_rows_bound (dates : list float) :
  Forall (fun i => (i < length dates)%nat) (dated_rows dates).
Proof.
  apply Forall_forall. intros i Hi. unfold dated_rows in Hi.
  apply filter_In in Hi as [Hi _]. apply in_seq in Hi. lia.
Qed.

Lemma group_rows_dated (dates : list float) (k : float) :
  group_rows dates k = filter (fun i => eqb (nth i dates NaN) k) (dated_rows dates).
Proof.
  unfold group_rows, dated_rows. induction (seq 0 (length dates)) as [|i l IH];
    [reflexivity|].
  cbn [filter]. destruct (eqb (nth i dates NaN) k) eqn:E.
  - rewrite (eqb_not_nan _ _ E). cbn [negb filter]. rewrite E. now rewrite IH.
  - destruct (is_nan (nth i dates NaN)); cbn [negb filter]; [exact IH|].
    rewrite E. exact IH.
Qed.

(** The totals of the groups add up to the total of the dated rows. *)
Lemma group_sums_add_up (dates : list float) (c : column) :
  finite_column c = true -> length dates = length c ->
  feq (sum (floats (map (group_sum c) (map (group_rows dates) (group_keys dates)))))
      (sum (group_values c (dated_rows dates))).
Proof.
  intros Hf Hlen.
  set (q := fun i => to_Q (cell_float (nth i c missing))).
  assert (Hrows : Forall (fun i => (i < length c)%nat) (dated_rows dates))
    by (rewrite <- Hlen; apply dated_rows_bound).
  rewrite (group_values_finite c _ Hf Hrows), sum_of_finite. fold q.
  assert (E : floats (map (group_sum c) (map (group_rows dates) (group_keys dates)))
              = map Fin (map (fun k => Qsum (map q (filter
                   (fun i => eqb (nth i dates NaN) k) (dated_rows dates))))
                   (group_keys dates))).
  { unfold floats. rewrite !map_map. apply map_ext. intros k.
    unfold group_sum. cbn [cell_float]. rewrite group_rows_dated.
    rewrite (group_values_finite c _ Hf).
    - unfold nansum. now rewrite drop_nan_of_finite, sum_of_finite.
    - apply Forall_forall. intros i Hi. apply filter_In in Hi as [Hi _].
      rewrite Forall_forall in Hrows. now apply Hrows. }
  rewrite E, sum_of_finite. cbn [feq].
  apply (Qsum_by_group (fun i => nth i dates NaN)).
  intros i Hi. rewrite occurrences_group_keys.
  unfold dated_rows in Hi. apply filter_In in Hi as [Hi Hn].
  apply in_seq in Hi. apply negb_true_iff in Hn.
  assert (Hex : existsb (eqb (nth i dates NaN)) dates = true).
  { apply existsb_exists. exists (nth i dates NaN).
    split; [apply nth_In; lia|now apply eqb_refl]. }
  now rewrite Hex.
Qed.

Lemma dated_rows_all (dates : list float) :
  Forall (fun x => is_nan x = false) dates -> dated_rows dates = seq 0 (length dates).
Proof.
  intros Hall. unfold dated_rows.
  assert (G : forall l, (forall i, In i l -> (i < length dates)%nat) ->
              filter (fun i => negb (is_nan (nth i dates NaN))) l = l).
  { induction l as [|i l IH]; intros Hl; [reflexivity|].
    cbn [filter]. rewrite Forall_forall in Hall.
    rewrite (Hall _ (nth_In dates NaN (Hl i (or_introl eq_refl)))). cbn [negb].
    rewrite IH; [reflexivity|]. intros j Hj. apply Hl. now right. }
  apply G. intros i Hi. apply in_seq in Hi. lia.
Qed.

Lemma group_values_all (c : column) : group_values c (seq 0 (length c)) = floats c.
Proof.
  unfold group_values, floats.
  transitivity (map cell_float (take (seq 0 (length c)) c)).
  - unfold take. now rewrite map_map.
  - now rewrite take_all.
Qed.

(** X21. The daily totals add up: when a summed column (SalesAmount,
    Quantity or GrossProfit) holds finite values, the sum of its daily
    totals (TotalSales, TotalQuantity, TotalProfit) is the sum of its
    values over the rows that have a date; over all rows, when no date is
    missing. *)
Theorem daily_totals_add_up (h h' : store) (df r' : ref) (d daily : DataFrame)
    (source total : string) (dates c : list cell) :
  nth_error h df = Some d ->
  In (source, total) summed_columns ->
  assoc "Date" (columns d) = Some dates ->
  assoc source (columns d) = Some c ->
  length dates = length c ->
  finite_column c = true ->
  prepare_sales_data_for_anomaly_detection df h = (Ok r', h') ->
  nth_error h' r' = Some daily ->
  exists totals,
    assoc total (columns daily) = Some totals
    /\ length totals = nrows daily
    /\ feq (sum (floats totals)) (sum (group_values c (dated_rows (floats dates))))
    /\ (Forall (fun x => is_nan (cell_float x) = false) dates ->
        feq (sum (floats totals)) (sum (floats c))).
Proof.
  intros Hd Hin Hdates Hc Hlen Hf Hrun Hdaily.
  rewrite (prepare_sales_data_run h df d Hd), Hdates in Hrun.
  destruct (assoc "SalesAmount" (columns d)) as [sales|] eqn:E2; [|discriminate].
  destruct (assoc "Quantity" (columns d)) as [quantity|] eqn:E3; [|discriminate].
  destruct (assoc "GrossProfit" (columns d)) as [profit|] eqn:E4; [|discriminate].
  destruct (assoc "OrderNumber" (columns d)) as [orders|] eqn:E5; [|discriminate].
  destruct (assoc "CustomerKey" (columns d)) as [customers|] eqn:E6; [|discriminate].
  injection Hrun as <- <-. rewrite nth_error_last in Hdaily. injection Hdaily as <-.
  assert (Hlen' : length (floats dates) = length c)
    by (unfold floats; now rewrite length_map).
  pose proof (group_sums_add_up (floats dates) c Hf Hlen') as Hsum.
  exists (map (group_sum c) (map (group_rows (floats dates)) (group_keys (floats dates)))).
  assert (Hcol : assoc total
                   (columns (daily_sales_frame dates sales quantity profit orders
                               customers))
                 = Some (map (group_sum c)
                           (map (group_rows (floats dates)) (group_keys (floats dates))))).
  { unfold summed_columns in Hin.
    destruct Hin as [[= <- <-]|[[= <- <-]|[[= <- <-]|[]]]].
    - rewrite E2 in Hc. injection Hc as <-. reflexivity.
    - rewrite E3 in Hc. injection Hc as <-. reflexivity.
    - rewrite E4 in Hc. injection Hc as <-. reflexivity. }
  split; [exact Hcol|]. split; [cbn [nrows daily_sales_frame]; now rewrite !length_map|].
  split; [exact Hsum|].
  intros Hall. rewrite dated_rows_all in Hsum.
  - rewrite Hlen', group_values_all in Hsum. exact Hsum.
  - unfold floats. now rewrite Forall_map.
Qed.

(** ** The counts over the groups *)

Lemma distinct_length (l : list float) : (length (distinct l) <= length l)%nat.
Proof.
  induction l as [|a l IH]; [apply Nat.le_refl|]. cbn [distinct length].
  pose proof (filter_length_le (fun y => negb (eqb y a)) (distinct l)). lia.
Qed.

Lemma distinct_none (l : list float) : length (distinct l) = 0%nat <-> l = [].
Proof.
  destruct l as [|a l]; [split; reflexivity|]. cbn [distinct length].
  split; [lia|discriminate].
Qed.

Lemma drop_nan_none (l : list float) :
  drop_nan l = [] <-> forall x, In x l -> is_nan x = true.
Proof.
  unfold drop_nan. induction l as [|a l IH]; [split; [intros _ x []|reflexivity]|].
  cbn [filter]. destruct (is_nan a) eqn:E; cbn [negb].
  - rewrite IH. split.
    + intros H x [<-|Hx]; [exact E|now apply H].
    + intros H x Hx. apply H. now right.
  - split; [discriminate|]. intros H. rewrite (H a (or_introl eq_refl)) in E.
    discriminate.
Qed.

Lemma group_rows_not_empty (dates : list float) (k : float) :
  In k (group_keys dates) -> (1 <= length (group_rows dates k))%nat.
Proof.
  intros Hk. apply group_keys_in in Hk as [Hin Hn].
  apply (In_nth _ _ NaN) in Hin as (i & Hi & Hnth).
  assert (Hrow : In i (group_rows dates k)).
  { unfold group_rows. apply filter_In. split; [apply in_seq; lia|].
    rewrite Hnth. now apply eqb_refl. }
  destruct (group_rows dates k); [contradiction|simpl; lia].
Qed.

(** X22. In every row of the daily table each count (OrderCount,
    CustomerCount) is a whole number between 0 and the number of input
    rows of that date, which is at least 1; the count is 0 exactly when
    the counted column (OrderNumber, CustomerKey) is missing in all rows of
    the date. *)
Theorem daily_counts_are_bounded (h h' : store) (df r' : ref) (d daily : DataFrame)
    (source count : string) (dates c : list cell) (j : nat) :
  nth_error h df = Some d ->
  In (source, count) counted_columns ->
  assoc "Date" (columns d) = Some dates ->
  assoc source (columns d) = Some c ->
  prepare_sales_data_for_anomaly_detection df h = (Ok r', h') ->
  nth_error h' r' = Some daily ->
  (j < nrows daily)%nat ->
  exists day_column counts key n,
    assoc "Date" (columns daily) = Some day_column
    /\ assoc count (columns daily) = Some counts
    /\ nth j day_column missing = CNum key
    /\ nth j counts missing = CNum (of_nat n)
    /\ (1 <= length (group_rows (floats dates) key))%nat
    /\ (n <= length (group_rows (floats dates) key))%nat
    /\ (n = 0%nat <->
        forall i, In i (group_rows (floats dates) key) ->
          is_nan (cell_float (nth i c missing)) = true).
Proof.
  intros Hd Hin Hdates Hc Hrun Hdaily Hj.
  rewrite (prepare_sales_data_run h df d Hd), Hdates in Hrun.
  destruct (assoc "SalesAmount" (columns d)) as [sales|] eqn:E2; [|discriminate].
  destruct (assoc "Quantity" (columns d)) as [quantity|] eqn:E3; [|discriminate].
  destruct (assoc "GrossProfit" (columns d)) as [profit|] eqn:E4; [|discriminate].
  destruct (assoc "OrderNumber" (columns d)) as [orders|] eqn:E5; [|discriminate].
  destruct (assoc "CustomerKey" (columns d)) as [customers|] eqn:E6; [|discriminate].
  injection Hrun as <- <-. rewrite nth_error_last in Hdaily. injection Hdaily as <-.
  cbn [nrows daily_sales_frame] in Hj.
  set (keys := group_keys (floats dates)) in *.
  set (key := nth j keys NaN).
  set (rows := group_rows (floats dates) key).
  exists (map CNum keys),
    (map (group_nunique c) (map (group_rows (floats dates)) keys)), key,
    (length (distinct (drop_nan (group_values c rows)))).
  split; [reflexivity|]. split.
  { unfold counted_columns in Hin.
    destruct Hin as [[= <- <-]|[[= <- <-]|[]]].
    - rewrite E5 in Hc. injection Hc as <-. reflexivity.
    - rewrite E6 in Hc. injection Hc as <-. reflexivity. }
  split.
  { now rewrite (nth_map_in CNum keys j missing NaN). }
  split.
  { rewrite (nth_map_in (group_nunique c) _ j missing [])
      by now rewrite length_map.
    rewrite (nth_map_in (group_rows (floats dates)) keys j [] NaN) by assumption.
    reflexivity. }
  split.
  { apply group_rows_not_empty. apply nth_In. exact Hj. }
  split.
  { eapply Nat.le_trans; [apply distinct_length|].
    unfold drop_nan. eapply Nat.le_trans; [apply filter_length_le|].
    unfold group_values. now rewrite length_map. }
  rewrite distinct_none, drop_nan_none. unfold group_values. split.
  - intros H i Hi. apply H. apply in_map_iff. now exists i.
  - intros H x Hx. apply in_map_iff in Hx as (i & <- & Hi). now apply H.
Qed.

(** * What the isolation forest is given *)

Lemma forest_input_same (features : list string) (d d2 : DataFrame) :
  same_features features d d2 ->
  exists cols cols2,
    select d features = Ok cols /\ select d2 features = Ok cols2
    /\ map (map nan_to_num) (values_of (nrows d) cols)
       = map (map nan_to_num) (values_of (nrows d2) cols2).
Proof.
  intros [Hn Hsame].
  assert (H1 : incl features (col_names d)).
  { intros n Hin. destruct (Hsame n Hin) as (c & c2 & Hc & _ & _).
    apply assoc_some_in in Hc. now apply (in_map fst) in Hc. }
  assert (H2 : incl features (col_names d2)).
  { intros n Hin. destruct (Hsame n Hin) as (c & c2 & _ & Hc & _).
    apply assoc_some_in in Hc. now apply (in_map fst) in Hc. }
  exists (map (column_or_empty d) features), (map (column_or_empty d2) features).
  split; [now apply select_present|]. split; [now apply select_present|].
  rewrite <- Hn. unfold values_of. rewrite !map_map.
  apply map_ext_in. intros i Hi. apply in_seq in Hi.
  unfold row_of. rewrite !map_map. apply map_ext_in. intros n Hin.
  destruct (Hsame n Hin) as (c & c2 & Hc & Hc2 & Hrows).
  unfold column_or_empty. rewrite Hc, Hc2. apply Hrows. lia.
Qed.

(** X23. The isolation forest never sees a missing value: two tables whose
    features agree in every row, once a missing value is read as 0 (and an
    infinity as the largest double of its sign), get the same flags and the
    same scores from [detect_isolation_forest]. *)
Theorem forest_reads_missing_as_zero self (h h2 : store) (data data2 : ref)
    (d d2 d' d2' : DataFrame) (features : list string) :
  nth_error h data = Some d ->
  nth_error h2 data2 = Some d2 ->
  same_features features d d2 ->
  returns (detect_isolation_forest self data features) h d' ->
  returns (detect_isolation_forest self data2 features) h2 d2' ->
  assoc "is_anomaly_if" (columns d') = assoc "is_anomaly_if" (columns d2')
  /\ assoc "anomaly_score_if" (columns d') = assoc "anomaly_score_if" (columns d2').
Proof.
  intros Hd Hd2 Hsame Hret Hret2.
  pose proof (returns_of_runs_as _ _ _ _
                (detect_isolation_forest_runs self h data d features Hd) Hret) as E.
  pose proof (returns_of_runs_as _ _ _ _
                (detect_isolation_forest_runs self h2 data2 d2 features Hd2) Hret2)
    as E2.
  destruct (forest_input_same features d d2 Hsame) as (cols & cols2 & Hs & Hs2 & HX).
  unfold isolation_forest_frame in E, E2. rewrite Hs in E. rewrite Hs2 in E2.
  rewrite <- HX in E2.
  destruct (check_array _) as [[]|]; [|discriminate].
  destruct (check_contamination _) as [[]|]; [|discriminate].
  cbv zeta in E, E2. injection E as <-. injection E2 as <-.
  split; now read_back.
Qed.

End Library.

(** * The properties on examples

    The theorems above, applied to concrete tables and series with the
    stand-ins for the library parameters; and the inputs on which the
    specification's wording of a property fails. *)

(** ** C1 *)

(** The consensus theorem on the spike table: row 4 is flagged by the
    forest and by the IQR detector. *)
Lemma consensus_needs_two_votes_witness :
  exists d',
    returns (detect_all sqrt_floor no_scaling forest_far_from_origin forest_minus_size
               detector 0%nat ["x"%string] None) [spike_table] d'
    /\ flag_at d' "is_anomaly_consensus" 4 = true
    /\ (2 <= vote_count d' (detector_flags ["x"%string] None) 4)%nat.
Proof.
  eexists. split; [|split].
  - eexists _, _. split; [vm_compute; reflexivity|vm_compute; reflexivity].
  - vm_compute. reflexivity.
  - eapply (consensus_needs_two_votes sqrt_floor no_scaling forest_far_from_origin
              forest_minus_size detector [spike_table] 0%nat spike_table _
              ["x"%string] None).
    + reflexivity.
    + reflexivity.
    + eexists _, _. split; [vm_compute; reflexivity|vm_compute; reflexivity].
    + vm_compute. reflexivity.
Defined.

(** The specification's wording fails when the input has a column whose
    name contains [is_anomaly]: that column is counted as a vote.  On the
    labelled table row 0 gets a true consensus flag and no detector flagged
    it. *)
Lemma consensus_counts_input_columns :
  ~ (forall (np_sqrt : Q -> Q) scaler fit_predict score_samples
            (self : AnomalyDetector) (h : store) (data : ref) (d d' : DataFrame)
            (numeric_columns : list string) (date_column : option string),
        nth_error h data = Some d ->
        returns (detect_all np_sqrt scaler fit_predict score_samples self data
                   numeric_columns date_column) h d' ->
        forall i, flag_at d' "is_anomaly_consensus" i = true ->
          (2 <= vote_count d' (detector_flags numeric_columns date_column) i)%nat).
Proof.
  intros claim.
  assert (R : exists d',
             returns (detect_all sqrt_floor no_scaling forest_far_from_origin
                        forest_minus_size detector 0%nat ["x"%string] None)
                     [labelled_table] d'
             /\ flag_at d' "is_anomaly_consensus" 0 = true
             /\ vote_count d' (detector_flags ["x"%string] None) 0 = 0%nat).
  { eexists. split; [|split].
    - eexists _, _. split; [vm_compute; reflexivity|vm_compute; reflexivity].
    - vm_compute. reflexivity.
    - vm_compute. reflexivity. }
  destruct R as (d' & Hret & Hflag & Hvotes).
  pose proof (claim sqrt_floor no_scaling forest_far_from_origin forest_minus_size
                detector [labelled_table] 0%nat labelled_table d' ["x"%string] None
                eq_refl Hret 0%nat Hflag) as Hc.
  rewrite Hvotes in Hc. lia.
Qed.

(** Whatever the forest says of that row, fewer than 2 detectors flag it:
    with a forest that flags every row the consensus flag is true on one
    vote. *)
Lemma consensus_on_one_vote :
  exists d',
    returns (detect_all sqrt_floor no_scaling forest_all_outliers forest_minus_size
               detector 0%nat ["x"%string] None) [labelled_table] d'
    /\ flag_at d' "is_anomaly_consensus" 0 = true
    /\ vote_count d' (detector_flags ["x"%string] None) 0 = 1%nat.
Proof.
  eexists. split; [|split].
  - eexists _, _. split; [vm_compute; reflexivity|vm_compute; reflexivity].
  - vm_compute. reflexivity.
  - vm_compute. reflexivity.
Qed.

(** ** C2 *)

Lemma trend_direction_under_negation_and_scaling_witness :
  direction_of arithmetic_series 30 = Ok Upward
  /\ direction_of (negated arithmetic_series) 30 = Ok Downward
  /\ direction_of (scaled 2 arithmetic_series) 30 = Ok Upward.
Proof.
  assert (Hc : 0 < 2) by reflexivity.
  destruct (trend_direction_under_negation_and_scaling arithmetic_series 30 2 Hc
              eq_refl)
    as (_ & Hneg & _ & _ & _ & Hkeep).
  assert (Hup : direction_of arithmetic_series 30 = Ok Upward)
    by (vm_compute; reflexivity).
  split; [exact Hup|]. split.
  - rewrite Hneg, Hup. reflexivity.
  - apply Hkeep; [discriminate|discriminate|exact Hup].
Defined.

(** The specification's wording fails: the slope of 0, 1 is 1 (Upward);
    divided by 1000 the series has slope 0.001, below the fixed threshold
    0.01 (Stable). *)
Lemma scaling_changes_direction :
  ~ (forall (series : list float) (window : nat) (c : Q),
        0 < c ->
        direction_of (scaled c series) window = direction_of series window).
Proof.
  intros claim.
  specialize (claim [Fin 0; Fin 1] 30%nat (1 # 1000) eq_refl).
  vm_compute in claim. discriminate claim.
Qed.

(** ** C3 *)

Lemma growth_metrics_null_below_a_year_witness :
  exists g,
    calculate_growth_metrics power_integer arithmetic_series = Ok g
    /\ yoy_growth g = None /\ cagr g = None.
Proof.
  destruct (growth_metrics_null_below_a_year power_integer arithmetic_series)
    as (g & Hg & Hyoy & Hcagr & _).
  - discriminate.
  - exists g. split; [exact Hg|]. split.
    + apply Hyoy. simpl. lia.
    + apply Hcagr. simpl. lia.
Defined.

(** A year of data whose first value is -1 has a CAGR:
    ((-2 / -1) ** 1 - 1) * 100 = 100. *)
Lemma cagr_of_negative_year :
  exists g v, calculate_growth_metrics power_integer negative_year = Ok g
              /\ cagr g = Some (Fin v) /\ v == 100.
Proof.
  eexists. eexists. split; [|split].
  - unfold calculate_growth_metrics, negative_year. cbv beta iota zeta. reflexivity.
  - cbn [cagr]. vm_compute. reflexivity.
  - vm_compute. reflexivity.
Qed.

(** The specification's wording fails: the CAGR of that series is not
    null although its first value is not strictly positive. *)
Lemma cagr_ignores_sign_of_first_value :
  ~ (forall (np_power : float -> float -> float) (series : list float)
            (g : growth_metrics),
        calculate_growth_metrics np_power series = Ok g ->
        (length series < 365)%nat \/ ltb (Fin 0) (hd NaN series) = false ->
        cagr g = None).
Proof.
  intros claim. destruct cagr_of_negative_year as (g & v & Hg & Hcagr & _).
  specialize (claim power_integer negative_year g Hg (or_intror eq_refl)).
  congruence.
Qed.

(** ** C4 *)

Lemma isolation_forest_rows_witness :
  fst (detect_isolation_forest no_scaling forest_far_from_origin forest_minus_size
         detector 0%nat ["x"%string] [spike_table])
  <> Raise spec_insufficient_data
  /\ (exists d' flags scores,
        returns (detect_isolation_forest no_scaling forest_far_from_origin
                   forest_minus_size detector 0%nat ["x"%string]) [spike_table] d'
        /\ assoc "is_anomaly_if" (columns d') = Some flags
        /\ assoc "anomaly_score_if" (columns d') = Some scores
        /\ length flags = 5%nat /\ length scores = 5%nat)
  /\ fst (detect_isolation_forest no_scaling forest_far_from_origin forest_minus_size
            careless_detector 0%nat ["x"%string] [spike_table])
     = Raise ValueError.
Proof.
  assert (Hin : incl ["x"%string] (col_names spike_table))
    by (intros name [<-|[]]; right; left; reflexivity).
  destruct (isolation_forest_rows no_scaling forest_far_from_origin forest_minus_size
              detector [spike_table] 0%nat spike_table ["x"%string] eq_refl Hin)
    as (Hnever & _ & _ & Hrows).
  split; [exact Hnever|]. split.
  - destruct Hrows as (d' & flags & scores & Hret & Hf & Hs & Hlf & _ & Hls & _).
    + simpl. lia.
    + discriminate.
    + reflexivity.
    + exists d', flags, scores. repeat split; assumption.
  - destruct (isolation_forest_rows no_scaling forest_far_from_origin
                forest_minus_size careless_detector [spike_table] 0%nat spike_table
                ["x"%string] eq_refl Hin)
      as (_ & _ & Hbad & _).
    apply Hbad. reflexivity.
Defined.

(** The specification's wording fails: on a table with no row the detector
    raises scikit-learn's [ValueError]; nothing raises
    [InsufficientDataError]. *)
Lemma isolation_forest_raises_value_error :
  ~ (forall scaler fit_predict score_samples (self : AnomalyDetector) (h : store)
            (data : ref) (features : list string) (d : DataFrame),
        nth_error h data = Some d ->
        (nrows d < 2)%nat ->
        fst (detect_isolation_forest scaler fit_predict score_samples self data
               features h)
        = Raise spec_insufficient_data).
Proof.
  intros claim.
  specialize (claim no_scaling forest_far_from_origin forest_minus_size detector
                [empty_table] 0%nat ["x"%string] empty_table eq_refl).
  assert (Hrows : (nrows empty_table < 2)%nat) by (simpl; lia).
  specialize (claim Hrows). vm_compute in claim. discriminate claim.
Qed.

(** ** C5 *)

Lemma constant_series_is_not_flagged_witness :
  (exists dz,
      returns (detect_zscore sqrt_floor detector 0%nat "x" default_zscore_threshold)
        [flat_table] dz
      /\ assoc "is_anomaly_zscore_x" (columns dz)
         = Some [CBool false; CBool false; CBool false])
  /\ (exists di,
      returns (detect_iqr detector 0%nat "x" default_iqr_multiplier) [flat_table] di
      /\ assoc "is_anomaly_iqr_x" (columns di)
         = Some [CBool false; CBool false; CBool false]).
Proof.
  apply (constant_series_is_not_flagged sqrt_floor detector [flat_table] 0%nat
           flat_table "x" [num 7; num 7; num 7] 7
           default_zscore_threshold default_iqr_multiplier).
  - reflexivity.
  - reflexivity.
  - reflexivity.
Defined.

(** ** C6 *)



(** ** C7 *)



(** A horizon of no step is rejected as well, by the prediction. *)
Lemma linear_trend_rejects_empty_horizon :
  forecast_linear_trend [Fin 100; Fin 110] 0 = Raise ValueError.
Proof. reflexivity. Qed.

(** ** C8 *)



(** ** C10 *)

Lemma summary_without_consensus_witness :
  exists s,
    get_anomaly_summary detector 0%nat [flagged_table] = (Ok s, [flagged_table])
    /\ total_records s = 2%nat
    /\ consensus_anomalies s = Fin 0
    /\ assoc "is_anomaly_iqr_x" (method_counts s)
       = Some (nansum [Fin 1; Fin 1]).
Proof.
  destruct (summary_without_consensus detector [flagged_table] 0%nat flagged_table)
    as (s & Hs & Hn & Hc & _ & Hcounts).
  - reflexivity.
  - reflexivity.
  - exists s. split; [exact Hs|]. split; [exact Hn|]. split; [exact Hc|].
    apply (Hcounts "is_anomaly_iqr_x"%string [CBool true; CBool true]).
    + right. left. reflexivity.
    + reflexivity.
Defined.

(** ** More properties of the detectors, on examples *)

(** The spike table has the column [x] and no column [y]. *)
Lemma column_detectors_need_their_column_witness :
  (exists dz, returns (detect_zscore sqrt_floor detector 0%nat "x" (Fin 3))
                [spike_table] dz)
  /\ fst (detect_iqr detector 0%nat "y" (Fin (3 # 2)) [spike_table]) = Raise KeyError.
Proof.
  split.
  - exact (proj1 (column_detectors_need_their_column sqrt_floor detector
                    [spike_table] 0%nat spike_table "x" (Fin 3) (Fin (3 # 2)) (Fin 2)
                    3%nat eq_refl)).
  - exact (proj1 (proj2 (column_detectors_need_their_column sqrt_floor detector
                    [spike_table] 0%nat spike_table "y" (Fin 3) (Fin (3 # 2)) (Fin 2)
                    3%nat eq_refl))).
Defined.

Lemma detectors_write_only_their_columns_witness :
  exists d',
    returns (detect_iqr detector 0%nat "x" (Fin (3 # 2))) [spike_table] d'
    /\ writes_only (iqr_outputs "x") spike_table d'.
Proof.
  assert (R : exists d', returns (detect_iqr detector 0%nat "x" (Fin (3 # 2)))
                           [spike_table] d').
  { eexists. eexists _, _. split; [vm_compute; reflexivity|vm_compute; reflexivity]. }
  destruct R as [d' Hret]. exists d'. split; [exact Hret|].
  exact (proj1 (proj2 (detectors_write_only_their_columns sqrt_floor no_scaling
           forest_far_from_origin forest_minus_size detector [spike_table] 0%nat
           spike_table d' ["x"%string] "x" (Fin 3) (Fin (3 # 2)) (Fin 2) 3%nat
           eq_refl)) Hret).
Defined.

(** Row 2 of the gap table holds no value: no detector flags it. *)
Lemma missing_values_are_never_flagged_witness :
  exists dz di dm,
    returns (detect_zscore sqrt_floor detector 0%nat "x" (Fin 3)) [gap_table] dz
    /\ returns (detect_iqr detector 0%nat "x" (Fin (3 # 2))) [gap_table] di
    /\ returns (detect_moving_average_deviation sqrt_floor detector 0%nat "x" 2
                  (Fin 2)) [gap_table] dm
    /\ flag_at dz "is_anomaly_zscore_x" 2 = false
    /\ flag_at di "is_anomaly_iqr_x" 2 = false
    /\ flag_at dm "is_anomaly_ma_x" 2 = false.
Proof.
  assert (Rz : exists dz, returns (detect_zscore sqrt_floor detector 0%nat "x" (Fin 3))
                            [gap_table] dz).
  { eexists. eexists _, _. split; [vm_compute; reflexivity|vm_compute; reflexivity]. }
  assert (Ri : exists di, returns (detect_iqr detector 0%nat "x" (Fin (3 # 2)))
                            [gap_table] di).
  { eexists. eexists _, _. split; [vm_compute; reflexivity|vm_compute; reflexivity]. }
  assert (Rm : exists dm, returns (detect_moving_average_deviation sqrt_floor detector
                                     0%nat "x" 2 (Fin 2)) [gap_table] dm).
  { eexists. eexists _, _. split; [vm_compute; reflexivity|vm_compute; reflexivity]. }
  destruct Rz as [dz Hz], Ri as [di Hi], Rm as [dm Hm].
  exists dz, di, dm. split; [exact Hz|]. split; [exact Hi|]. split; [exact Hm|].
  exact (missing_values_are_never_flagged sqrt_floor detector [gap_table] 0%nat
           gap_table dz di dm "x" [num 1; num 2; missing; num 400] 2%nat
           (Fin 3) (Fin (3 # 2)) (Fin 2) 2%nat eq_refl eq_refl eq_refl Hz Hi Hm).
Defined.


Lemma detect_all_returns_exactly_when_witness :
  (exists d', returns (detect_all sqrt_floor no_scaling forest_far_from_origin
                         forest_minus_size detector 0%nat ["x"%string] (Some "Date"%string))
                [spike_table] d' /\ nrows d' = 5%nat)
  /\ fst (detect_all sqrt_floor no_scaling forest_far_from_origin forest_minus_size
            detector 0%nat ["x"%string] (Some "Day"%string) [spike_table])
     = Raise KeyError
  /\ fst (detect_all sqrt_floor no_scaling forest_far_from_origin forest_minus_size
            detector 0%nat ["x"%string] None [empty_table])
     = Raise ValueError
  /\ fst (detect_all sqrt_floor no_scaling forest_far_from_origin forest_minus_size
            careless_detector 0%nat ["x"%string] None [spike_table])
     = Raise ValueError.
Proof.
  split; [|split; [|split]].
  - exact (detect_all_returns_exactly_when sqrt_floor no_scaling forest_far_from_origin
             forest_minus_size detector [spike_table] 0%nat spike_table ["x"%string]
             (Some "Date"%string) eq_refl).
  - exact (detect_all_returns_exactly_when sqrt_floor no_scaling forest_far_from_origin
             forest_minus_size detector [spike_table] 0%nat spike_table ["x"%string]
             (Some "Day"%string) eq_refl).
  - exact (detect_all_returns_exactly_when sqrt_floor no_scaling forest_far_from_origin
             forest_minus_size detector [empty_table] 0%nat empty_table ["x"%string]
             None eq_refl).
  - exact (detect_all_returns_exactly_when sqrt_floor no_scaling forest_far_from_origin
             forest_minus_size careless_detector [spike_table] 0%nat spike_table
             ["x"%string] None eq_refl).
Defined.

(** Row 4 of the spike table gets two votes, row 0 none. *)
Lemma anomaly_count_is_the_number_of_votes_witness :
  exists d',
    returns (detect_all sqrt_floor no_scaling forest_far_from_origin forest_minus_size
               detector 0%nat ["x"%string] None) [spike_table] d'
    /\ vote_count d' (detector_flags ["x"%string] None) 4 = 2%nat
    /\ flag_at d' "is_anomaly_consensus" 4 = true
    /\ flag_at d' "is_anomaly_consensus" 0 = false.
Proof.
  assert (R : exists d',
             returns (detect_all sqrt_floor no_scaling forest_far_from_origin
                        forest_minus_size detector 0%nat ["x"%string] None)
                     [spike_table] d'
             /\ vote_count d' (detector_flags ["x"%string] None) 4 = 2%nat
             /\ vote_count d' (detector_flags ["x"%string] None) 0 = 0%nat).
  { eexists. split; [|split].
    - eexists _, _. split; [vm_compute; reflexivity|vm_compute; reflexivity].
    - vm_compute. reflexivity.
    - vm_compute. reflexivity. }
  destruct R as (d' & Hret & H4 & H0). exists d'.
  split; [exact Hret|]. split; [exact H4|]. split.
  - rewrite (proj2 (anomaly_count_is_the_number_of_votes sqrt_floor no_scaling
               forest_far_from_origin forest_minus_size detector [spike_table] 0%nat
               spike_table d' ["x"%string] None 4%nat eq_refl eq_refl Hret
               ltac:(vm_compute; lia))).
    now rewrite H4.
  - rewrite (proj2 (anomaly_count_is_the_number_of_votes sqrt_floor no_scaling
               forest_far_from_origin forest_minus_size detector [spike_table] 0%nat
               spike_table d' ["x"%string] None 0%nat eq_refl eq_refl Hret
               ltac:(vm_compute; lia))).
    now rewrite H0.
Defined.

Lemma summary_counts_consensus_twice_witness :
  exists s,
    get_anomaly_summary detector 0%nat [voted_table] = (Ok s, [voted_table])
    /\ total_records s = 2%nat
    /\ assoc "is_anomaly_consensus" (method_counts s) = Some (consensus_anomalies s)
    /\ feq (consensus_anomalies s) (of_nat 1).
Proof.
  destruct (summary_counts_consensus_twice detector [voted_table] 0%nat voted_table
              [CBool false; CBool true] eq_refl eq_refl)
    as (s & Hrun & Hn & _ & Hm & Hb).
  exists s. split; [exact Hrun|]. split; [exact Hn|]. split; [exact Hm|].
  apply Hb. repeat constructor.
Defined.

Lemma summary_of_a_detection_witness :
  exists h' r' d' s,
    detect_all sqrt_floor no_scaling forest_far_from_origin forest_minus_size
      detector 0%nat ["x"%string] None [spike_table] = (Ok r', h')
    /\ nth_error h' r' = Some d'
    /\ get_anomaly_summary detector r' h' = (Ok s, h')
    /\ total_records s = 5%nat.
Proof.
  assert (R : exists h' r',
             detect_all sqrt_floor no_scaling forest_far_from_origin forest_minus_size
               detector 0%nat ["x"%string] None [spike_table] = (Ok r', h')).
  { eexists _, _. vm_compute. reflexivity. }
  destruct R as (h' & r' & Hrun).
  destruct (summary_of_a_detection sqrt_floor no_scaling forest_far_from_origin
              forest_minus_size detector [spike_table] h' 0%nat r' spike_table
              ["x"%string] None eq_refl Hrun)
    as (d' & s & Hd' & Hs & _ & Hn & _).
  exists h', r', d', s. auto.
Defined.

(** ** More properties of the trend analysis, on examples *)

(** 100, 110, ..., 190 lies on the line 100 + 10 i. *)
Lemma a_line_is_recovered_witness :
  (exists t,
     detect_trend_direction arithmetic_series 30 = Ok t
     /\ slope t == 10 /\ trend_direction t = Upward /\ feq (strength t) (Fin 1))
  /\ exists rows,
       forecast_linear_trend arithmetic_series 2 = Ok rows
       /\ length rows = 2%nat.
Proof.
  destruct (a_line_is_recovered arithmetic_series
              [100; 110; 120; 130; 140; 150; 160; 170; 180; 190] 100 10 30%nat 2%Z)
    as [(t & Ht & Hs & Hd & Hr) (rows & Hrows & Hlen & _)].
  - reflexivity.
  - simpl. lia.
  - intros i Hi. do 10 (destruct i as [|i]; [vm_compute; reflexivity|]).
    simpl in Hi. lia.
  - lia.
  - split; [exists t|exists rows]; auto.
Defined.

Lemma trend_strength_is_a_fraction_witness :
  exists t r,
    detect_trend_direction bump_series 30 = Ok t
    /\ strength t = Fin r /\ 0 <= r /\ r <= 1.
Proof.
  destruct (trend_strength_is_a_fraction bump_series [0; 1; 0; 100; 0] 30%nat)
    as (t & Ht & r & Hr & H0 & H1).
  - reflexivity.
  - discriminate.
  - exists t, r. auto.
Defined.

(** The arithmetic series in another unit. *)
Lemma growth_rates_ignore_the_unit_witness :
  exists g g',
    calculate_growth_metrics power_integer arithmetic_series = Ok g
    /\ calculate_growth_metrics power_integer (scaled (1 # 100) arithmetic_series)
       = Ok g'
    /\ feq (mom_growth g') (mom_growth g)
    /\ feq (avg_growth_rate g') (avg_growth_rate g).
Proof.
  destruct (growth_rates_ignore_the_unit power_integer arithmetic_series
              [100; 110; 120; 130; 140; 150; 160; 170; 180; 190] (1 # 100))
    as (g & g' & Hg & Hg' & Hm & _ & Ha & _).
  - reflexivity.
  - discriminate.
  - reflexivity.
  - exists g, g'. auto.
Defined.

Lemma monotone_series_has_no_extrema_witness :
  peak_count (identify_peaks_and_troughs arithmetic_series default_prominence) = 0%nat
  /\ trough_count (identify_peaks_and_troughs arithmetic_series default_prominence)
     = 0%nat.
Proof.
  destruct (monotone_series_has_no_extrema arithmetic_series default_prominence)
    as (_ & _ & Hp & Ht).
  - left. intros k Hk. do 9 (destruct k as [|k]; [reflexivity|]).
    simpl in Hk. lia.
  - split; assumption.
Defined.

(** The analysis of the spike table replaces its date column, and
    returns. *)
Lemma sales_analysis_overwrites_the_date_column_witness :
  exists res h',
    analyze_sales_trends power_integer autocorr_weekly dates_as_given unit
      no_stationarity no_forecast no_forecast no_decomposition
      0%nat "Date" "x" 30 [spike_table] = (res, h')
    /\ nth_error h' 0%nat
       = Some (set_column spike_table "Date" [num 1; num 2; num 3; num 4; num 5]).
Proof.
  destruct (sales_analysis_overwrites_the_date_column power_integer autocorr_weekly
              dates_as_given unit no_stationarity no_forecast no_forecast
              no_decomposition [spike_table] 0%nat spike_table "Date" "x" 30 eq_refl)
    as (res & h' & Hrun & Hdf & _).
  exists res, h'. split; assumption.
Defined.




(** The bump series 0, 1, 0, 100, 0 has a peak at index 3 and a trough at
    index 2. *)
Lemma peaks_and_troughs_are_local_extrema_witness :
  (exists l r, local_maximum bump_series 3 l r)
  /\ (exists l r, local_minimum bump_series 2 l r).
Proof.
  destruct (peaks_and_troughs_are_local_extrema bump_series default_prominence)
    as (Hp & Ht & _ & _).
  split.
  - apply Hp. vm_compute. right. now left.
  - apply Ht. vm_compute. now left.
Defined.

(** A weekly autocorrelation over thirty days: the period found is 7. *)
Lemma seasonality_is_a_peak_of_autocorrelation_witness :
  has_seasonality (detect_seasonality autocorr_weekly thirty_days 365) = true
  /\ primary_period (detect_seasonality autocorr_weekly thirty_days 365) = Some 7%nat
  /\ forall lag,
       In lag (peak_lags (detect_seasonality autocorr_weekly thirty_days 365)) ->
       (7 <= lag)%nat.
Proof.
  destruct (seasonality_is_a_peak_of_autocorrelation autocorr_weekly thirty_days 365)
    as (_ & _ & _ & Hprimary & _).
  split; [vm_compute; reflexivity|]. split; [vm_compute; reflexivity|].
  apply (Hprimary 7%nat). vm_compute. reflexivity.
Defined.

(** [detect_all] on the shuffled table: the values come back in the order
    of the dates. *)
Lemma detect_all_keeps_the_rows_witness :
  exists d',
    returns (detect_all sqrt_floor no_scaling forest_far_from_origin forest_minus_size
               detector 0%nat ["x"%string] (Some "Date"%string)) [shuffled_table] d'
    /\ assoc "x" (columns d') = Some [num 10; num 20; num 30]
    /\ assoc "Date" (columns d') = Some [num 1; num 2; num 3].
Proof.
  assert (R : exists d',
             returns (detect_all sqrt_floor no_scaling forest_far_from_origin
                        forest_minus_size detector 0%nat ["x"%string]
                        (Some "Date"%string)) [shuffled_table] d').
  { eexists. eexists _, _. split; [vm_compute; reflexivity|vm_compute; reflexivity]. }
  destruct R as [d' Hret]. exists d'. split; [exact Hret|].
  destruct (detect_all_keeps_the_rows sqrt_floor no_scaling forest_far_from_origin
              forest_minus_size detector [shuffled_table] 0%nat shuffled_table d'
              ["x"%string] (Some "Date"%string) eq_refl Hret)
    as (key & Hkey & _ & _ & _ & Hcols).
  injection Hkey as <-. split.
  - rewrite (Hcols "x"%string [num 30; num 10; num 20] eq_refl).
    + reflexivity.
    + vm_compute. intros H. repeat (destruct H as [H|H]; [discriminate|]). exact H.
  - rewrite (Hcols "Date"%string [num 3; num 1; num 2] eq_refl).
    + reflexivity.
    + vm_compute. intros H. repeat (destruct H as [H|H]; [discriminate|]). exact H.
Defined.

(** ** The daily sales table, on an example *)

Lemma daily_sales_has_one_row_per_date_witness :
  (exists daily,
     prepare_sales_data_for_anomaly_detection 0%nat [orders_table]
     = (Ok 1%nat, [orders_table; daily])
     /\ nrows daily = 2%nat
     /\ assoc "Date" (columns daily) = Some [num 1; num 2])
  /\ prepare_sales_data_for_anomaly_detection 0%nat [spike_table]
     = (Raise KeyError, [spike_table]).
Proof.
  split.
  - destruct (daily_sales_has_one_row_per_date [orders_table] 0%nat orders_table eq_refl)
      as (daily & dates & keys & Hrun & _ & Hdates & Hkeys & Hn & _).
    exists daily. split; [exact Hrun|].
    assert (Ed : nth_error (snd (prepare_sales_data_for_anomaly_detection 0%nat
                                   [orders_table])) 1 = Some daily)
      by (rewrite Hrun; reflexivity).
    vm_compute in Ed. injection Ed as <-. split; reflexivity.
  - exact (daily_sales_has_one_row_per_date [spike_table] 0%nat spike_table eq_refl).
Defined.

(** The sales of the two days, 5 and 30, add up to the 35 of the three
    order lines. *)
Lemma daily_totals_add_up_witness :
  exists r' h' daily totals,
    prepare_sales_data_for_anomaly_detection 0%nat [orders_table] = (Ok r', h')
    /\ nth_error h' r' = Some daily
    /\ assoc "TotalSales" (columns daily) = Some totals
    /\ feq (sum (floats totals)) (Fin 35).
Proof.
  assert (R : exists r' h' daily,
             prepare_sales_data_for_anomaly_detection 0%nat [orders_table]
             = (Ok r', h')
             /\ nth_error h' r' = Some daily).
  { eexists _, _, _. split; [vm_compute; reflexivity|vm_compute; reflexivity]. }
  destruct R as (r' & h' & daily & Hrun & Hdaily).
  destruct (daily_totals_add_up [orders_table] h' 0%nat r' orders_table daily
              "SalesAmount" "TotalSales" [num 2; num 1; num 2]
              [num 10; num 5; num 20] eq_refl (or_introl eq_refl) eq_refl eq_refl
              eq_refl eq_refl Hrun Hdaily)
    as (totals & Htotals & _ & _ & Hall).
  exists r', h', daily, totals. split; [exact Hrun|]. split; [exact Hdaily|].
  split; [exact Htotals|]. apply Hall. repeat constructor.
Defined.

(** Day 2 has two order lines of one order. *)
Lemma daily_counts_are_bounded_witness :
  exists r' h' daily counts n,
    prepare_sales_data_for_anomaly_detection 0%nat [orders_table] = (Ok r', h')
    /\ nth_error h' r' = Some daily
    /\ assoc "OrderCount" (columns daily) = Some counts
    /\ nth 1 counts missing = CNum (of_nat n)
    /\ (n <= 2)%nat.
Proof.
  assert (R : exists r' h' daily,
             prepare_sales_data_for_anomaly_detection 0%nat [orders_table]
             = (Ok r', h')
             /\ nth_error h' r' = Some daily
             /\ nrows daily = 2%nat
             /\ assoc "Date" (columns daily) = Some [num 1; num 2]).
  { eexists _, _, _. split; [vm_compute; reflexivity|].
    split; [vm_compute; reflexivity|]. split; reflexivity. }
  destruct R as (r' & h' & daily & Hrun & Hdaily & Hrows & Hdays).
  destruct (daily_counts_are_bounded [orders_table] h' 0%nat r' orders_table daily
              "OrderNumber" "OrderCount" [num 2; num 1; num 2]
              [num 100; num 101; num 100] 1%nat eq_refl (or_introl eq_refl)
              eq_refl eq_refl Hrun Hdaily ltac:(rewrite Hrows; lia))
    as (days & counts & key & n & Hd & Hc & Hkey & Hn & _ & Hle & _).
  exists r', h', daily, counts, n. split; [exact Hrun|]. split; [exact Hdaily|].
  split; [exact Hc|]. split; [exact Hn|].
  rewrite Hdays in Hd. injection Hd as <-. cbn in Hkey. injection Hkey as <-.
  exact Hle.
Defined.

(** The forest gives the gap table and the filled table the same flags. *)
Lemma forest_reads_missing_as_zero_witness :
  exists d' d2',
    returns (detect_isolation_forest no_scaling forest_far_from_origin
               forest_minus_size detector 0%nat ["x"%string]) [gap_table] d'
    /\ returns (detect_isolation_forest no_scaling forest_far_from_origin
                  forest_minus_size detector 0%nat ["x"%string]) [filled_table] d2'
    /\ assoc "is_anomaly_if" (columns d') = assoc "is_anomaly_if" (columns d2').
Proof.
  assert (R : exists d',
             returns (detect_isolation_forest no_scaling forest_far_from_origin
                        forest_minus_size detector 0%nat ["x"%string]) [gap_table] d').
  { eexists. eexists _, _. split; [vm_compute; reflexivity|vm_compute; reflexivity]. }
  assert (R2 : exists d2',
             returns (detect_isolation_forest no_scaling forest_far_from_origin
                        forest_minus_size detector 0%nat ["x"%string])
                     [filled_table] d2').
  { eexists. eexists _, _. split; [vm_compute; reflexivity|vm_compute; reflexivity]. }
  destruct R as [d' Hret], R2 as [d2' Hret2]. exists d', d2'.
  split; [exact Hret|]. split; [exact Hret2|].
  apply (forest_reads_missing_as_zero no_scaling forest_far_from_origin
           forest_minus_size detector [gap_table] [filled_table] 0%nat 0%nat
           gap_table filled_table d' d2' ["x"%string] eq_refl eq_refl).
  - split; [reflexivity|]. intros name [<-|[]].
    exists [num 1; num 2; missing; num 400], [num 1; num 2; num 0; num 400].
    split; [reflexivity|]. split; [reflexivity|].
    intros i Hi. do 4 (destruct i as [|i]; [reflexivity|]). simpl in Hi. lia.
  - exact Hret.
  - exact Hret2.
Defined.
